(** * Prompt-context retrieval of the Concerto editor extension

    A shallow embedding of the copilot's prompt planner
    ([agentPlanner], [inlineRequestPrompt], [modelRequestPrompt]) and of
    its embedding utilities ([cosineSimilarity], the three
    [fetchRelevant...] rankings, [generateEmbeddingPrompt],
    [extractNamespaces], [getNamespaceMappings], [generateCTOImports]).
    The OpenAI client ([generateContent], [generateEmbeddings]) follows in
    a module of its own, [OpenAI].

    Conventions.
    - A JavaScript string is a [string]: a sequence of code units, here the
      units below 256.
    - [undefined] is [None]; a field read through [?.] is an [option].
    - A thrown [Error] is [Throw]; functions that may throw return a
      [Result].
    - Calls that leave the module (template renderers, the embedding
      gateway) are recorded in a log of [Call]s, in the order they happen.
    - Numbers that only serve as offsets are [Z]; the components of a
      vector and the similarity scores are IEEE 754 doubles, [number], with
      their rounding, infinities and NaN. *)

From Stdlib Require Import String Ascii List ZArith Bool Lia.
From Stdlib Require Import QArith Permutation.
From Stdlib Require Import NArith DecimalString.
From Corelib Require Import PrimFloat.
Import ListNotations.
Close Scope Q_scope.
Open Scope string_scope.

(** ** JavaScript values and strings *)

(** A number: an IEEE 754 double. *)
Definition number : Type := float.

(** [new Error(message)]. *)
Inductive JsError : Type :=
| Error (message : string).

Inductive Result (A : Type) : Type :=
| Ok (a : A)
| Throw (e : JsError).
Arguments Ok {A} a.
Arguments Throw {A} e.

Definition bindR {A B : Type} (r : Result A) (k : A -> Result B) : Result B :=
  match r with
  | Ok a => k a
  | Throw e => Throw e
  end.

(** The index a negative or too large argument of [slice] stands for. *)
Definition relativeIndex (len k : Z) : Z :=
  if (k <? 0)%Z then Z.max (len + k) 0 else Z.min k len.

(** [s.slice(start, end)]; [s.slice(start)] is [stringSlice s start None]. *)
Definition stringSlice (s : string) (start : Z) (end_ : option Z) : string :=
  let len := Z.of_nat (String.length s) in
  let from := relativeIndex len start in
  let to := match end_ with
            | None => len
            | Some e => relativeIndex len e
            end in
  substring (Z.to_nat from) (Z.to_nat (Z.max (to - from) 0)) s.

(** [a.slice(start, end)] on arrays. *)
Definition arraySlice {A : Type} (a : list A) (start end_ : Z) : list A :=
  let len := Z.of_nat (List.length a) in
  let from := relativeIndex len start in
  let to := relativeIndex len end_ in
  firstn (Z.to_nat (Z.max (to - from) 0)) (skipn (Z.to_nat from) a).

(** A value interpolated in a template literal: [`${v}`]. *)
Definition templateString (v : option string) : string :=
  match v with
  | Some s => s
  | None => "undefined"
  end.

(** [!v] for a value that is a string or [undefined]. *)
Definition falsyString (v : option string) : bool :=
  match v with
  | None => true
  | Some s => (s =? "")
  end.

(** [!n] for a value that is an integer or [undefined]. *)
Definition falsyNumber (v : option Z) : bool :=
  match v with
  | None => true
  | Some n => (n =? 0)%Z
  end.

(** [v === lit] for a value that is a string or [undefined]. *)
Definition strictEq (v : option string) (lit : string) : bool :=
  match v with
  | Some s => (s =? lit)
  | None => false
  end.

(** ** Request data (utils/types) *)

Record DocumentDetails : Type := {
  main_content : string;
  main_cursorPosition : option Z
}.

Record ContextDocument : Type := {
  doc_fileName : string;
  doc_content : option string
}.

Record Documents : Type := {
  main : DocumentDetails;
  contextDocuments : option (list ContextDocument)
}.

Record PromptConfig : Type := {
  requestType : string;
  language : string;
  instruction : option string
}.

Record ModelConfig : Type := {
  provider : string;
  llmModel : string;
  apiUrl : string;
  accessToken : string
}.

Record Message : Type := {
  msg_content : string;
  msg_role : string
}.

Definition Prompt : Type := list Message.

Definition Embedding : Type := list number.

Record AgentPlannerParams : Type := {
  documents : Documents;
  promptConfig : PromptConfig;
  config : ModelConfig
}.

(** ** Context extractor: [generateEmbeddingPrompt] *)

(** [contextDocuments?.find(doc => doc.fileName === name)?.content]. *)
Definition findContent (docs : option (list ContextDocument)) (name : string)
  : option string :=
  match docs with
  | None => None
  | Some l =>
      match find (fun doc => doc_fileName doc =? name) l with
      | Some doc => doc_content doc
      | None => None
      end
  end.

Definition MissingDocument : JsError := Error "Required documents are missing".

(** [requestType] is [None] when the caller passes no second argument. *)
Definition generateEmbeddingPrompt (documents : Documents)
  (requestType : option string) : Result string :=
  let contextDocuments := contextDocuments documents in
  let prompt := "" in
  if strictEq requestType "grammar" then
    let sampleContent := findContent contextDocuments "sample.md" in
    Ok (templateString sampleContent)
  else if strictEq requestType "model" then
    let grammarContent := findContent contextDocuments "grammar.tem.md" in
    let packageContent := findContent contextDocuments "package.json" in
    if falsyString grammarContent || falsyString packageContent then
      Throw MissingDocument
    else
      Ok (templateString grammarContent ++ " " ++ templateString packageContent)
  else Ok prompt.

(** ** The planner's effects *)

(** The calls the planner makes to other modules. *)
Inductive Call : Type :=
| call_getConcertoInlineTemplate (beforeCursor afterCursor : string)
| call_getInlineTemplate (beforeCursor afterCursor : string)
| call_getFixTemplate (content : string)
| call_getGeneralTemplate
| call_getGrammarTemplate
| call_generateEmbeddingsByProvider (provider : string) (text : string)
| call_getConcertoModelTemplate (promptEmbedding : Embedding) (provider : string).

(** A computation that logs its calls and returns or throws. *)
Definition M (A : Type) : Type := list Call -> list Call * Result A.

Definition ret {A : Type} (a : A) : M A := fun log => (log, Ok a).

Definition throw {A : Type} (e : JsError) : M A := fun log => (log, Throw e).

Definition bind {A B : Type} (m : M A) (k : A -> M B) : M B :=
  fun log =>
    match m log with
    | (log', Ok a) => k a log'
    | (log', Throw e) => (log', Throw e)
    end.

(** A synchronous function of this module used by the planner. *)
Definition lift {A : Type} (r : Result A) : M A := fun log => (log, r).

(** A call to another module: logged, then its outcome. *)
Definition external {A : Type} (c : Call) (outcome : Result A) : M A :=
  fun log => (log ++ [c], outcome)%list.

Declare Scope planner_scope.
Delimit Scope planner_scope with planner.
Notation "x <- m ;; k" := (bind m (fun x => k))
  (at level 61, m at next level, right associativity) : planner_scope.

(** ** The planner: [agentPlanner] *)

(** The members of the [RequestType] and [Language] enumerations the planner
    compares with; their values are declared in utils/types. *)
Record Enums : Type := {
  RequestType_Inline : string;
  RequestType_Fix : string;
  RequestType_General : string;
  RequestType_Model : string;
  RequestType_Grammar : string;
  Language_Concerto : string
}.

(** The template renderers (promptTemplates/...) and the embedding gateway
    (api/llmModelManager): what each returns or throws. *)
Record Collaborators : Type := {
  getConcertoInlineTemplate : string -> string -> PromptConfig -> Result Prompt;
  getInlineTemplate : string -> string -> PromptConfig -> Result Prompt;
  getFixTemplate : string -> PromptConfig -> Result Prompt;
  getGeneralTemplate : PromptConfig -> Result Prompt;
  getGrammarTemplate : Documents -> Result Prompt;
  generateEmbeddingsByProvider : string -> ModelConfig -> string -> Result Embedding;
  getConcertoModelTemplate : Documents -> Embedding -> string -> Result Prompt
}.

Definition UnsupportedRequestType : JsError := Error "Unsupported request type".

(** The cursor offset [inlineRequestPrompt] splits at. *)
Definition effectiveCursor (content : string) (cursorPosition : option Z) : Z :=
  if falsyNumber cursorPosition then Z.of_nat (String.length content)
  else match cursorPosition with
       | Some n => n
       | None => 0%Z
       end.

Definition beforeCursor (content : string) (cursorPosition : option Z) : string :=
  stringSlice content 0 (Some (effectiveCursor content cursorPosition)).

Definition afterCursor (content : string) (cursorPosition : option Z) : string :=
  stringSlice content (effectiveCursor content cursorPosition) None.

Section Planner.

Variable enums : Enums.
Variable ext : Collaborators.

Definition inlineRequestPrompt (documents : Documents)
  (promptConfig : PromptConfig) : M Prompt :=
  let content := main_content (main documents) in
  let cursorPosition := main_cursorPosition (main documents) in
  let before := beforeCursor content cursorPosition in
  let after := afterCursor content cursorPosition in
  if language promptConfig =? Language_Concerto enums then
    external (call_getConcertoInlineTemplate before after)
      (getConcertoInlineTemplate ext before after promptConfig)
  else
    external (call_getInlineTemplate before after)
      (getInlineTemplate ext before after promptConfig).

Definition modelRequestPrompt (documents : Documents) (config : ModelConfig)
  : M Prompt :=
  let provider := provider config in
  (embeddingPrompt <- lift (generateEmbeddingPrompt documents None) ;;
   promptEmbedding <-
     external (call_generateEmbeddingsByProvider provider embeddingPrompt)
       (generateEmbeddingsByProvider ext provider config embeddingPrompt) ;;
   external (call_getConcertoModelTemplate promptEmbedding provider)
     (getConcertoModelTemplate ext documents promptEmbedding provider))%planner.

Definition agentPlanner (params : AgentPlannerParams) : M Prompt :=
  let documents := documents params in
  let promptConfig := promptConfig params in
  let config := config params in
  let content := main_content (main documents) in
  let requestType := requestType promptConfig in
  if requestType =? RequestType_Inline enums then
    inlineRequestPrompt documents promptConfig
  else if requestType =? RequestType_Fix enums then
    external (call_getFixTemplate content) (getFixTemplate ext content promptConfig)
  else if requestType =? RequestType_General enums then
    external call_getGeneralTemplate (getGeneralTemplate ext promptConfig)
  else if requestType =? RequestType_Model enums then
    modelRequestPrompt documents config
  else if requestType =? RequestType_Grammar enums then
    external call_getGrammarTemplate (getGrammarTemplate ext documents)
  else
    throw UnsupportedRequestType.

End Planner.

(** ** Regular expressions

    The two patterns of the module, [namespaceRegex] and [importRegex],
    are values of [regex]; [matchRe] is a backtracking matcher in
    continuation style, trying alternatives and repetition counts in the
    order the language prescribes (left alternative first, longest
    repetition first). *)

Definition LF : string := String (ascii_of_nat 10) EmptyString.
Definition CR : string := String (ascii_of_nat 13) EmptyString.

Definition inRange (lo hi : N) (c : ascii) : bool :=
  (lo <=? N_of_ascii c)%N && (N_of_ascii c <=? hi)%N.

(** [\w]: letters, digits and the underscore. *)
Definition isWordChar (c : ascii) : bool :=
  inRange 48 57 c || inRange 65 90 c || inRange 97 122 c || inRange 95 95 c.

(** [\s] among the code units below 256: tab, line feed, vertical tab, form
    feed, carriage return, space and the no-break space. *)
Definition isSpaceChar (c : ascii) : bool :=
  inRange 9 13 c || inRange 32 32 c || inRange 160 160 c.

(** [.]: anything but a line terminator (line feed, carriage return). *)
Definition isDotChar (c : ascii) : bool :=
  negb (inRange 10 10 c || inRange 13 13 c).

Inductive regex : Type :=
| Chars (lit : string)            (* the characters of [lit], in a row *)
| Boundary                        (* [\b] *)
| Many (cls : ascii -> bool)      (* [c*], greedy *)
| Many1 (cls : ascii -> bool)     (* [c+], greedy *)
| Alt (r1 r2 : regex)             (* [r1|r2] *)
| Cat (r1 r2 : regex)             (* [r1 r2] *)
| Capture (r : regex).            (* [(r)], the pattern's group 1 *)

Definition isWordAt (c : option ascii) : bool :=
  match c with
  | Some a => isWordChar a
  | None => false
  end.

Definition firstChar (s : string) : option ascii :=
  match s with
  | String c _ => Some c
  | EmptyString => None
  end.

(** The literal [lit] read off the front of [s]: the last character read and
    what is left. *)
Fixpoint chars (lit : string) (prev : option ascii) (s : string)
  : option (option ascii * string) :=
  match lit with
  | EmptyString => Some (prev, s)
  | String a lit' =>
      match s with
      | String c s' => if Ascii.eqb a c then chars lit' (Some c) s' else None
      | EmptyString => None
      end
  end.

(** Greedy repetition of a character class: the longest run first, then one
    character less each time the rest of the pattern fails. *)
Fixpoint many {R : Type} (cls : ascii -> bool) (prev : option ascii) (s : string)
  (k : option ascii -> string -> option R) : option R :=
  match s with
  | String c s' =>
      if cls c then
        match many cls (Some c) s' k with
        | Some r => Some r
        | None => k prev s
        end
      else k prev s
  | EmptyString => k prev s
  end.

(** The part of [s] in front of its suffix [rest]. *)
Definition consumed (s rest : string) : string :=
  substring 0 (String.length s - String.length rest) s.

(** [matchRe r prev s cap k]: match [r] at the front of [s], the character
    before it being [prev], then hand what is left to [k]. *)
Fixpoint matchRe {R : Type} (r : regex) (prev : option ascii) (s : string)
  (cap : option string)
  (k : option ascii -> string -> option string -> option R) : option R :=
  match r with
  | Chars lit =>
      match chars lit prev s with
      | Some (prev', s') => k prev' s' cap
      | None => None
      end
  | Boundary =>
      if xorb (isWordAt prev) (isWordAt (firstChar s)) then k prev s cap else None
  | Many cls => many cls prev s (fun p s' => k p s' cap)
  | Many1 cls =>
      match s with
      | String c s' =>
          if cls c then many cls (Some c) s' (fun p s'' => k p s'' cap) else None
      | EmptyString => None
      end
  | Alt r1 r2 =>
      match matchRe r1 prev s cap k with
      | Some x => Some x
      | None => matchRe r2 prev s cap k
      end
  | Cat r1 r2 => matchRe r1 prev s cap (fun p s' c => matchRe r2 p s' c k)
  | Capture r1 => matchRe r1 prev s cap (fun p s' _ => k p s' (Some (consumed s s')))
  end.

(** A match of [r] starting exactly here: what follows the match, and
    group 1. *)
Definition matchAt (r : regex) (prev : option ascii) (s : string)
  : option (string * option string) :=
  matchRe r prev s None (fun _ rest cap => Some (rest, cap)).

(** The loop [while ((match = re.exec(s)) !== null) ...] of a global pattern:
    group 1 of each match, leftmost first, the search resuming where the
    previous match ended. [skip] counts the characters of the running match
    still to pass. Both patterns of this module consume a character. *)
Fixpoint execAll (r : regex) (prev : option ascii) (skip : nat) (s : string)
  : list (option string) :=
  match s with
  | EmptyString => []
  | String c s' =>
      match skip with
      | S n => execAll r (Some c) n s'
      | O =>
          match matchAt r prev s with
          | Some (rest, cap) =>
              cap :: execAll r (Some c) (String.length s - String.length rest - 1) s'
          | None => execAll r (Some c) 0 s'
          end
      end
  end.

(** [s.replace(re, replacement)] for a global pattern. *)
Fixpoint replaceAll (r : regex) (replacement : string) (prev : option ascii)
  (skip : nat) (s : string) : string :=
  match s with
  | EmptyString => EmptyString
  | String c s' =>
      match skip with
      | S n => replaceAll r replacement (Some c) n s'
      | O =>
          match matchAt r prev s with
          | Some (rest, _) =>
              match String.length s - String.length rest with
              | O => replacement ++ String c (replaceAll r replacement (Some c) 0 s')
              | S n => replacement ++ replaceAll r replacement (Some c) n s'
              end
          | None => String c (replaceAll r replacement (Some c) 0 s')
          end
      end
  end.

(** Whether [s] starts with [pattern]. *)
Fixpoint startsWith (pattern s : string) : bool :=
  match pattern with
  | EmptyString => true
  | String a pattern' =>
      match s with
      | String c s' => Ascii.eqb a c && startsWith pattern' s'
      | EmptyString => false
      end
  end.

Fixpoint dropString (n : nat) (s : string) : string :=
  match n, s with
  | S n', String _ s' => dropString n' s'
  | _, _ => s
  end.

(** [s.replace(pattern, replacement)] for a string pattern: the first
    occurrence only. *)
Fixpoint replaceFirst (pattern replacement s : string) : string :=
  if startsWith pattern s then replacement ++ dropString (String.length pattern) s
  else match s with
       | EmptyString => EmptyString
       | String c s' => String c (replaceFirst pattern replacement s')
       end.

(** ** Objects used as maps

    An object is the list of its own properties in the order [Object.keys]
    and [Object.entries] enumerate them: the names that are array indices
    first, in ascending order, then the other names in the order in which
    the properties were created. *)

Definition JsObject (V : Type) : Type := list (string * V).

Fixpoint allDigits (s : string) : bool :=
  match s with
  | EmptyString => true
  | String c s' => inRange 48 57 c && allDigits s'
  end.

(** The number a string of decimal digits writes, read after [acc]. *)
Fixpoint digitsValue (s : string) (acc : N) : N :=
  match s with
  | EmptyString => acc
  | String c s' => digitsValue s' (10 * acc + (N_of_ascii c - 48))%N
  end.

(** The array index a property name stands for, if any: the name is the
    decimal numeral, with no leading zero, of an integer below 2^32 - 1. *)
Definition arrayIndex (key : string) : option N :=
  match key with
  | EmptyString => None
  | String c rest =>
      if allDigits key
         && negb (Ascii.eqb c "0" && negb (rest =? ""))
         && (digitsValue key 0 <=? 4294967294)%N
      then Some (digitsValue key 0)
      else None
  end.

Fixpoint hasOwnProperty {V : Type} (key : string) (o : JsObject V) : bool :=
  match o with
  | [] => false
  | (k, _) :: o' => (k =? key) || hasOwnProperty key o'
  end.

(** The value of an own property replaced: the property keeps its place. *)
Fixpoint updateProperty {V : Type} (key : string) (v : V) (o : JsObject V)
  : JsObject V :=
  match o with
  | [] => []
  | (k, w) :: o' =>
      if k =? key then (k, v) :: o' else (k, w) :: updateProperty key v o'
  end.

(** A new property whose name is the array index [n]: it goes behind the
    smaller indices and in front of everything else. *)
Fixpoint insertIndex {V : Type} (n : N) (key : string) (v : V) (o : JsObject V)
  : JsObject V :=
  match o with
  | [] => [(key, v)]
  | (k, w) :: o' =>
      match arrayIndex k with
      | Some m => if (m <? n)%N then (k, w) :: insertIndex n key v o' else (key, v) :: o
      | None => (key, v) :: o
      end
  end.

(** [o[key] = v] on an object that [{}] created. An assignment to
    "__proto__" goes to the setter the object inherits, which sets the
    prototype or does nothing, and creates no property. Any other name
    becomes or stays an own property. *)
Definition objectSet {V : Type} (key : string) (v : V) (o : JsObject V) : JsObject V :=
  if key =? "__proto__" then o
  else if hasOwnProperty key o then updateProperty key v o
  else match arrayIndex key with
       | Some n => insertIndex n key v o
       | None => (o ++ [(key, v)])%list
       end.

(** ** Namespace mapper *)

(** [/\b(?:asset|participant|enum|abstract asset)\s+(\w+)/g] *)
Definition namespaceRegex : regex :=
  Cat Boundary
    (Cat (Alt (Chars "asset")
            (Alt (Chars "participant")
               (Alt (Chars "enum") (Chars "abstract asset"))))
       (Cat (Many1 isSpaceChar) (Capture (Many1 isWordChar)))).

(** Group 1 takes part in every match of [namespaceRegex]. *)
Definition group1 (m : option string) : string :=
  match m with
  | Some name => name
  | None => EmptyString
  end.

Definition extractNamespaces (fileContent : string) : list string :=
  map group1 (execAll namespaceRegex None 0 fileContent).

Definition generateCTOImports (namespaceMappings : JsObject (list string)) : string :=
  fold_left
    (fun result entry =>
       let '(key, values) := entry in
       if (List.length values =? 1)%nat then
         result ++ "import org.accordproject." ++ replaceFirst ".cto" "" key ++ "."
           ++ templateString (nth_error values 0)
           ++ " from https://models.accordproject.org/accordproject/" ++ key ++ LF
       else if (1 <? List.length values)%nat then
         result ++ "import org.accordproject." ++ replaceFirst ".cto" "" key ++ ".{ "
           ++ String.concat ", " values
           ++ " } from https://models.accordproject.org/accordproject/" ++ key ++ LF
       else result)
    namespaceMappings EmptyString.

(** ** Stored embeddings (utils/types) *)

Record GeminiEmbedding : Type := {
  embedding : option (list number)
}.

Record GeminiModelEntry : Type := {
  gemini_embeddings : option GeminiEmbedding
}.

Record OpenAiModelEntry : Type := {
  openai_embeddings : option (list number)
}.

Record ModelEmbeddings : Type := {
  fileContent : string;
  fileName : string;
  gemini : option GeminiModelEntry;
  openai : option OpenAiModelEntry
}.

Record GrammarEmbeddings : Type := {
  grammar_gemini : option GeminiEmbedding;
  grammar_openai : option (list number)
}.

Record GrammarEntry : Type := {
  grammar_content : string;
  grammar_embeddings : option GrammarEmbeddings
}.

Record SampleEntry : Type := {
  sample_content : string
}.

Record TemplateEntry : Type := {
  grammar : option GrammarEntry;
  sample : option SampleEntry
}.

Definition TemplateEmbeddings : Type := JsObject TemplateEntry.

Definition getNamespaceMappings (modelEmbeddings : JsObject ModelEmbeddings) : string :=
  let namespaceMappings :=
    fold_left
      (fun mappings entry =>
         let fileContent := fileContent (snd entry) in
         let fileName := fileName (snd entry) in
         let namespaces := extractNamespaces fileContent in
         objectSet fileName namespaces mappings)
      modelEmbeddings [] in
  generateCTOImports namespaceMappings.

(** ** Similarity engine *)

(** [for (const x of l) { ... }] over a loop state, left when the body
    throws. *)
Fixpoint forOf {A B : Type} (body : B -> A -> Result B) (l : list A) (state : B)
  : Result B :=
  match l with
  | [] => Ok state
  | x :: l' => bindR (body state x) (forOf body l')
  end.

(** [a.sort(compare)]: [x], which stood in front of [sorted], stays there
    unless [compare] puts an element of [sorted] first (a positive result;
    a NaN result counts as 0). The sort is stable. Where [compare] is no
    consistent ordering, as with NaN results, the language leaves the order
    to the engine; this is the order in which an element only moves behind
    one that [compare] puts first. *)
Fixpoint insertSorted {A : Type} (compare : A -> A -> number) (x : A) (sorted : list A)
  : list A :=
  match sorted with
  | [] => [x]
  | y :: rest =>
      if PrimFloat.ltb PrimFloat.zero (compare x y) then y :: insertSorted compare x rest
      else x :: sorted
  end.

Definition arraySort {A : Type} (compare : A -> A -> number) (a : list A) : list A :=
  fold_right (insertSorted compare) [] a.

(** [/import .*\n/g] *)
Definition importRegex : regex :=
  Cat (Chars "import ") (Cat (Many isDotChar) (Chars LF)).

(** [content.replace(/import .*\n/g, '')] *)
Definition removeImports (content : string) : string :=
  replaceAll importRegex "" None 0 content.

(** [obj.gemini?.embeddings?.embedding] *)
Definition modelGeminiEmbedding (obj : ModelEmbeddings) : option (list number) :=
  match gemini obj with
  | Some g =>
      match gemini_embeddings g with
      | Some e => embedding e
      | None => None
      end
  | None => None
  end.

(** [obj.openai?.embeddings] *)
Definition modelOpenAiEmbedding (obj : ModelEmbeddings) : option (list number) :=
  match openai obj with
  | Some o => openai_embeddings o
  | None => None
  end.

(** [template.grammar?.embeddings?.gemini?.embedding] *)
Definition grammarGeminiEmbedding (template : TemplateEntry) : option (list number) :=
  match grammar template with
  | Some g =>
      match grammar_embeddings g with
      | Some e =>
          match grammar_gemini e with
          | Some ge => embedding ge
          | None => None
          end
      | None => None
      end
  | None => None
  end.

(** [template.grammar?.embeddings?.openai] *)
Definition grammarOpenAiEmbedding (template : TemplateEntry) : option (list number) :=
  match grammar template with
  | Some g =>
      match grammar_embeddings g with
      | Some e => grammar_openai e
      | None => None
      end
  | None => None
  end.

(** An array, empty or not, is a truthy value; [undefined] is not. *)
Definition truthyArray {A : Type} (v : option (list A)) : bool :=
  match v with
  | Some _ => true
  | None => false
  end.

(** The [embeddings] variable after the [if ... else if ...] that reads the
    provider's stored vector. *)
Definition selectEmbeddings (provider : string) (geminiPath openaiPath : option (list number))
  : option (list number) :=
  if (provider =? "gemini") && truthyArray geminiPath then geminiPath
  else if (provider =? "openai") && truthyArray openaiPath then openaiPath
  else None.

Definition NamespaceScore : Type := number * string * string.
Definition TemplateScore : Type := number * string * option string * option string.

Definition namespaceSimilarity (t : NamespaceScore) : number := fst (fst t).
Definition templateSimilarity (t : TemplateScore) : number := fst (fst (fst t)).

Definition renderNamespace (t : NamespaceScore) : string :=
  let '(similarity, file, fileContent) := t in
  file ++ LF.

Definition renderTemplate (t : TemplateScore) : string :=
  let '(similarity, templateName, grammarContent, modelContent) := t in
  "Template: " ++ templateName ++ LF
    ++ "Template grammar: " ++ templateString grammarContent ++ LF
    ++ "Corresponding model: " ++ templateString modelContent ++ LF.

Definition renderGrammar (t : TemplateScore) : string :=
  let '(similarity, file, sampleContent, grammarContent) := t in
  "Template sample: " ++ templateString sampleContent ++ LF
    ++ " and corresponding grammar: " ++ templateString grammarContent ++ LF.

Section Similarity.

(** [math.dot] and [math.norm] of the mathjs package: what each returns or
    throws. *)
Variable math_dot : list number -> list number -> Result number.
Variable math_norm : list number -> Result number.

Definition cosineSimilarity (vec1 vec2 : list number) : Result number :=
  bindR (math_dot vec1 vec2) (fun dotProduct =>
  bindR (math_norm vec1) (fun normVec1 =>
  bindR (math_norm vec2) (fun normVec2 =>
  Ok (PrimFloat.div dotProduct (PrimFloat.mul normVec1 normVec2))))).

(** The loop of [fetchRelevantNamespaces]: [namespaceSimilarities]. *)
Definition scoreNamespaces (modelNamespaces : JsObject ModelEmbeddings)
  (promptEmbedding : list number) (provider : string) : Result (list NamespaceScore) :=
  forOf
    (fun namespaceSimilarities entry =>
       let '(file, obj) := entry in
       match selectEmbeddings provider (modelGeminiEmbedding obj)
               (modelOpenAiEmbedding obj) with
       | Some embeddings =>
           bindR (cosineSimilarity promptEmbedding embeddings) (fun similarity =>
           Ok (namespaceSimilarities ++ [(similarity, file, fileContent obj)])%list)
       | None => Ok namespaceSimilarities
       end)
    modelNamespaces [].

Definition fetchRelevantNamespaces (modelNamespaces : JsObject ModelEmbeddings)
  (promptEmbedding : list number) (provider : string) (topN : nat)
  : Result (list string) :=
  bindR (scoreNamespaces modelNamespaces promptEmbedding provider)
    (fun namespaceSimilarities =>
       let topNamespaces :=
         arraySlice
           (arraySort
              (fun a b => PrimFloat.sub (namespaceSimilarity b) (namespaceSimilarity a))
              namespaceSimilarities)
           0 (Z.of_nat topN) in
       Ok (map renderNamespace topNamespaces)).

(** The loop of [fetchRelevantTemplates]: [templateSimilarities]. *)
Definition scoreTemplates (templateEmbeddings : TemplateEmbeddings)
  (promptEmbedding : list number) (provider : string) : Result (list TemplateScore) :=
  forOf
    (fun templateSimilarities entry =>
       let '(templateName, template) := entry in
       match selectEmbeddings provider (grammarGeminiEmbedding template)
               (grammarOpenAiEmbedding template) with
       | Some embeddings =>
           bindR (cosineSimilarity promptEmbedding embeddings) (fun similarity =>
           let grammarContent := option_map grammar_content (grammar template) in
           let cleanedModelContent := option_map removeImports grammarContent in
           Ok (templateSimilarities
                 ++ [(similarity, templateName, grammarContent, cleanedModelContent)])%list)
       | None => Ok templateSimilarities
       end)
    templateEmbeddings [].

Definition fetchRelevantTemplates (templateEmbeddings : TemplateEmbeddings)
  (promptEmbedding : list number) (provider : string) (topN : nat)
  : Result (list string) :=
  bindR (scoreTemplates templateEmbeddings promptEmbedding provider)
    (fun templateSimilarities =>
       let topTemplates :=
         arraySlice
           (arraySort
              (fun a b => PrimFloat.sub (templateSimilarity b) (templateSimilarity a))
              templateSimilarities)
           0 (Z.of_nat topN) in
       Ok (map renderTemplate topTemplates)).

(** The loop of [fetchRelevantGrammar]: [templateSimilarities]. *)
Definition scoreGrammar (templateEmbeddings : TemplateEmbeddings)
  (promptEmbedding : list number) (provider : string) : Result (list TemplateScore) :=
  forOf
    (fun templateSimilarities entry =>
       let '(templateName, template) := entry in
       match selectEmbeddings provider (grammarGeminiEmbedding template)
               (grammarOpenAiEmbedding template) with
       | Some embeddings =>
           bindR (cosineSimilarity promptEmbedding embeddings) (fun similarity =>
           Ok (templateSimilarities
                 ++ [(similarity, templateName,
                      option_map sample_content (sample template),
                      option_map grammar_content (grammar template))])%list)
       | None => Ok templateSimilarities
       end)
    templateEmbeddings [].

Definition fetchRelevantGrammar (templateEmbeddings : TemplateEmbeddings)
  (promptEmbedding : list number) (provider : string) (topN : nat)
  : Result (list string) :=
  bindR (scoreGrammar templateEmbeddings promptEmbedding provider)
    (fun templateSimilarities =>
       let topTemplates :=
         arraySlice
           (arraySort
              (fun a b => PrimFloat.sub (templateSimilarity b) (templateSimilarity a))
              templateSimilarities)
           0 (Z.of_nat topN) in
       Ok (map renderGrammar topTemplates)).

End Similarity.

(** * The OpenAI client (server/src/copilot/api/openai.ts)

    [generateContent] and [generateEmbeddings] post one request through
    axios and turn what comes back into a value or an [Error].

    Conventions.
    - The body of a response has type [any]: a [JsValue].
    - The calls that leave the module ([axios.post], [log]) are recorded as
      [Event]s, in the order they happen; what [axios.post] answers is a
      field of the [Platform].
    - A [try] block ends in a value or in what it throws: [Attempt]. *)

Module OpenAI.

#[warnings="-register-all"]
Inductive JsValue : Type :=
| JsUndefined
| JsNull
| JsBoolean (b : bool)
| JsNumber (q : Q)   (* a number of the response: finite, and only compared with 0 *)
| JsString (s : string)
| JsArray (items : list JsValue)
| JsObjectValue (fields : list (string * JsValue)).

(** [!!v] *)
Definition truthy (v : JsValue) : bool :=
  match v with
  | JsUndefined | JsNull => false
  | JsBoolean b => b
  | JsNumber q => negb (Qeq_bool q 0)
  | JsString s => negb (s =? "")
  | JsArray _ | JsObjectValue _ => true
  end.

(** [v === undefined || v === null], the test [?.] makes. *)
Definition nullish (v : JsValue) : bool :=
  match v with
  | JsUndefined | JsNull => true
  | _ => false
  end.

(** [v || d] for a value that is a string or [undefined]; also
    [if (!v) v = d]. *)
Definition orDefault (v : option string) (d : string) : string :=
  if falsyString v then d else templateString v.

(** [s.includes(pattern)] *)
Fixpoint includes (s pattern : string) : bool :=
  startsWith pattern s
  || match s with
     | EmptyString => false
     | String _ s' => includes s' pattern
     end.

(** A non-negative integer as a template literal or [+] prints it. *)
Definition decimal (n : N) : string := NilEmpty.string_of_uint (N.to_uint n).

(** ** Configuration and requests *)

Record AdditionalParams : Type := {
  temperature : option Q;
  maxTokens : option Q;
  topP : option Q;
  frequencyPenalty : option Q;
  presencePenalty : option Q
}.

(** The fields of the server's [ModelConfig] this module reads. *)
Record ModelConfig : Type := {
  llmModel : string;
  additionalParams : option AdditionalParams;
  apiUrl : option string;
  accessToken : option string;
  embeddingModel : option string
}.

Record GenerateContentRequest : Type := {
  model : string;
  messages : list Message;
  max_tokens : option Q;
  request_temperature : option Q;
  top_p : option Q;
  frequency_penalty : option Q;
  presence_penalty : option Q
}.

Record GenerateEmbeddingsRequest : Type := {
  input : list string;
  embeddings_model : string
}.

Inductive RequestBody : Type :=
| ContentBody (request : GenerateContentRequest)
| EmbeddingsBody (request : GenerateEmbeddingsRequest).

Definition Headers : Type := list (string * string).

(** ** Responses and errors *)

Record AxiosResponse : Type := {
  status : N;
  statusText : string;
  data : JsValue
}.

(** What ['...' + v] does with a value [v] that need not be plain data: it
    appends the string [v] converts to, or throws a TypeError when [v] is
    an object with no way to a primitive value (one without a prototype,
    such as the request configuration of recent axios versions). *)
Inductive Conversion : Type :=
| Converts (text : string)
| CannotConvert.

(** An error [axios.isAxiosError] accepts. [error_request] tells whether
    [error.request] is set, [error_config] what [error.config] converts
    to. *)
Record AxiosError : Type := {
  error_response : option AxiosResponse;
  error_request : bool;
  error_config : Conversion;
  error_message : string
}.

Inductive Thrown : Type :=
| AxiosRejection (e : AxiosError)
| NewError (message : string)        (* [new Error(message)] *)
| TypeError (message : string)       (* thrown by the language *)
| OtherRejection (shown : Conversion).   (* any other value; what it converts to *)

Inductive Attempt (A : Type) : Type :=
| Returned (a : A)
| Raised (e : Thrown).
Arguments Returned {A} a.
Arguments Raised {A} e.

Inductive Event : Type :=
| Post (url : string) (body : RequestBody) (headers : Headers)
| Log (message : string).

(** What the module takes from outside: the end points of utils/constants,
    the answer of [axios.post], and the conversions of the language that
    depend on more than the shape of a value. *)
Record Platform : Type := {
  LLM_ENDPOINTS_OPENAI : string;
  LLM_EMDEDDINGS_ENDPOINTS_OPENAI : string;
  axios_post : string -> RequestBody -> Headers -> Attempt AxiosResponse;
  (* the number a string, an array or an object converts to; [None] is NaN *)
  toNumber_object : JsValue -> option Q;
  (* ['' + v] *)
  toString_any : JsValue -> string;
  JSON_stringify : JsValue -> option string;
  (* the message of the TypeError for reading [name] off [v] *)
  typeErrorMessage : JsValue -> string -> string;
  (* the message of the TypeError for a value that converts to no string *)
  conversionErrorMessage : string
}.

(** [Error.prototype.toString]. *)
Definition errorToString (name message : string) : string :=
  if message =? "" then name else name ++ ": " ++ message.

(** ** Reading a value of type [any] *)

Fixpoint ownProperty (name : string) (fields : list (string * JsValue)) : JsValue :=
  match fields with
  | [] => JsUndefined
  | (k, v) :: rest => if k =? name then v else ownProperty name rest
  end.

(** [v.name], for the names this module reads ([choices], [length],
    [message], [content], [data], [embedding]): none is an index, and none
    is inherited from a prototype. *)
Definition getProp (h : Platform) (v : JsValue) (name : string) : Attempt JsValue :=
  match v with
  | JsUndefined | JsNull => Raised (TypeError (typeErrorMessage h v name))
  | JsObjectValue fields => Returned (ownProperty name fields)
  | JsArray items =>
      Returned (if name =? "length"
                then JsNumber (inject_Z (Z.of_nat (List.length items)))
                else JsUndefined)
  | JsString s =>
      Returned (if name =? "length"
                then JsNumber (inject_Z (Z.of_nat (String.length s)))
                else JsUndefined)
  | JsBoolean _ | JsNumber _ => Returned JsUndefined
  end.

(** [v[0]] *)
Definition getFirst (h : Platform) (v : JsValue) : Attempt JsValue :=
  match v with
  | JsUndefined | JsNull => Raised (TypeError (typeErrorMessage h v "0"))
  | JsObjectValue fields => Returned (ownProperty "0" fields)
  | JsArray items => Returned (nth 0 items JsUndefined)
  | JsString s =>
      Returned (match s with
                | String c _ => JsString (String c EmptyString)
                | EmptyString => JsUndefined
                end)
  | JsBoolean _ | JsNumber _ => Returned JsUndefined
  end.

Definition toNumber (h : Platform) (v : JsValue) : option Q :=
  match v with
  | JsUndefined => None
  | JsNull => Some 0%Q
  | JsBoolean b => Some (if b then 1%Q else 0%Q)
  | JsNumber q => Some q
  | JsString _ | JsArray _ | JsObjectValue _ => toNumber_object h v
  end.

(** [v > 0] *)
Definition greaterThanZero (h : Platform) (v : JsValue) : bool :=
  match toNumber h v with
  | Some q => negb (Qle_bool q 0)
  | None => false
  end.

(** ** Effects *)

Definition T (A : Type) : Type := list Event * Attempt A.

Definition ret {A : Type} (a : A) : T A := ([], Returned a).

Definition raise {A : Type} (e : Thrown) : T A := ([], Raised e).

Definition log (message : string) : T unit := ([Log message], Returned tt).

Definition attempt {A : Type} (a : Attempt A) : T A := ([], a).

Definition bind {A B : Type} (m : T A) (k : A -> T B) : T B :=
  match m with
  | (events, Returned a) => let (events', r) := k a in ((events ++ events')%list, r)
  | (events, Raised e) => (events, Raised e)
  end.

(** [try { body } catch (error) { handler }] *)
Definition tryCatch {A : Type} (body : T A) (handler : Thrown -> T A) : T A :=
  match body with
  | (events, Returned a) => (events, Returned a)
  | (events, Raised e) => let (events', r) := handler e in ((events ++ events')%list, r)
  end.

(** The string a value contributes to a concatenation. *)
Definition convert (h : Platform) (v : Conversion) : T string :=
  match v with
  | Converts text => ret text
  | CannotConvert => raise (TypeError (conversionErrorMessage h))
  end.

(** [await axios.post(url, body, { headers })] *)
Definition post (h : Platform) (url : string) (body : RequestBody) (headers : Headers)
  : T AxiosResponse :=
  ([Post url body headers], axios_post h url body headers).

Declare Scope openai_scope.
Delimit Scope openai_scope with openai.
Notation "x <- m ;; k" := (bind m (fun x => k))
  (at level 61, m at next level, right associativity) : openai_scope.
Notation "m ;; k" := (bind m (fun _ => k))
  (at level 61, right associativity) : openai_scope.

(** ** Requests *)

(** [additionalParams?.f] *)
Definition additionalParam (config : ModelConfig) (f : AdditionalParams -> option Q)
  : option Q :=
  match additionalParams config with
  | Some params => f params
  | None => None
  end.

(** Each optional field of the request is set when the parameter it comes
    from is not [undefined]. *)
Definition createGenerateContentRequest (promptArray : list Message)
  (config : ModelConfig) : GenerateContentRequest :=
  {| model := llmModel config;
     messages := promptArray;
     request_temperature := additionalParam config temperature;
     max_tokens := additionalParam config maxTokens;
     top_p := additionalParam config topP;
     frequency_penalty := additionalParam config frequencyPenalty;
     presence_penalty := additionalParam config presencePenalty |}.

Definition createGenerateEmbeddingsRequest (text model : string)
  : GenerateEmbeddingsRequest :=
  {| input := [text]; embeddings_model := model |}.

(** The [headers] of both requests. *)
Definition requestHeaders (accessToken : option string) : Headers :=
  [("Content-Type", "application/json");
   ("Authorization", "Bearer " ++ templateString accessToken)].

(** ** [generateContent] *)

(** [response.status === 200 && response.data.choices
     && response.data.choices.length > 0], as a condition. *)
Definition hasChoices (h : Platform) (response : AxiosResponse) : T bool :=
  (if (status response =? 200)%N then
     choices <- attempt (getProp h (data response) "choices") ;;
     if truthy choices then
       choices <- attempt (getProp h (data response) "choices") ;;
       length <- attempt (getProp h choices "length") ;;
       ret (greaterThanZero h length)
     else ret false
   else ret false)%openai.

(** [generatedContent?.choices[0]?.message?.content] *)
Definition firstChoiceContent (h : Platform) (generatedContent : JsValue) : T JsValue :=
  (if nullish generatedContent then ret JsUndefined
   else
     choices <- attempt (getProp h generatedContent "choices") ;;
     choice <- attempt (getFirst h choices) ;;
     if nullish choice then ret JsUndefined
     else
       message <- attempt (getProp h choice "message") ;;
       if nullish message then ret JsUndefined
       else attempt (getProp h message "content"))%openai.

Definition generateContent (h : Platform) (config : ModelConfig)
  (promptArray : list Message) : T JsValue :=
  let apiUrl := orDefault (apiUrl config) (LLM_ENDPOINTS_OPENAI h) in
  let request := createGenerateContentRequest promptArray config in
  tryCatch
    (response <- post h apiUrl (ContentBody request)
                   (requestHeaders (accessToken config)) ;;
     ok <- hasChoices h response ;;
     if ok then
       let generatedContent := data response in
       text <- firstChoiceContent h generatedContent ;;
       ret text
     else
       log ("Error: Invalid status code or no choices returned"
              ++ decimal (status response) ++ toString_any h (data response)) ;;
       raise (NewError "Failed to generate content. Invalid response from server."))%openai
    (fun error =>
       match error with
       | AxiosRejection e =>
           match error_response e with
           | Some r =>
               log ("Error generating content: " ++ decimal (status r) ++ " "
                      ++ statusText r) ;;
               log ("Response data:" ++ templateString (JSON_stringify h (data r))) ;;
               raise (NewError ("Failed to generate content due to an error ("
                                  ++ decimal (status r) ++ " " ++ statusText r ++ ")."))
           | None =>
               if error_request e then
                 config <- convert h (error_config e) ;;
                 log ("Error generating content: Request failed" ++ ", Request data: "
                        ++ config) ;;
                 raise (NewError "Failed to send request to the server.")
               else
                 log ("Error generating content: " ++ error_message e) ;;
                 raise (NewError "An error occurred while processing the request.")
           end
       | NewError message =>
           log ("Error generating content: " ++ errorToString "Error" message) ;;
           raise (NewError "An unexpected error occurred while generating content.")
       | TypeError message =>
           log ("Error generating content: " ++ errorToString "TypeError" message) ;;
           raise (NewError "An unexpected error occurred while generating content.")
       | OtherRejection shown =>
           text <- convert h shown ;;
           log ("Error generating content: " ++ text) ;;
           raise (NewError "An unexpected error occurred while generating content.")
       end)%openai.

(** ** [generateEmbeddings] *)

(** [response.status === 200 && response.data.data], as a condition. *)
Definition hasData (h : Platform) (response : AxiosResponse) : T bool :=
  (if (status response =? 200)%N then
     data <- attempt (getProp h (data response) "data") ;;
     ret (truthy data)
   else ret false)%openai.

Definition generateEmbeddings (h : Platform) (config : ModelConfig) (text : string)
  : T JsValue :=
  let apiUrl := orDefault (apiUrl config) (LLM_EMDEDDINGS_ENDPOINTS_OPENAI h) in
  let updatedApiUrl :=
    if includes apiUrl "openai" then apiUrl else apiUrl ++ "/embeddings" in
  let embeddingModel := orDefault (embeddingModel config) "text-embedding-ada-002" in
  let request := createGenerateEmbeddingsRequest text embeddingModel in
  tryCatch
    (response <- post h updatedApiUrl (EmbeddingsBody request)
                   (requestHeaders (accessToken config)) ;;
     ok <- hasData h response ;;
     if ok then
       data <- attempt (getProp h (data response) "data") ;;
       first <- attempt (getFirst h data) ;;
       embeddings <- attempt (getProp h first "embedding") ;;
       ret embeddings
     else
       log "Error: Invalid status code or no embedding returned" ;;
       log ("Response Status: " ++ decimal (status response) ++ ", Response Data: "
              ++ toString_any h (data response)) ;;
       raise (NewError "Failed to generate embeddings"))%openai
    (fun error =>
       match error with
       | AxiosRejection e =>
           match error_response e with
           | Some r =>
               log ("Error generating embeddings: " ++ decimal (status r) ++ " "
                      ++ statusText r) ;;
               log ("Response data: " ++ templateString (JSON_stringify h (data r))) ;;
               raise (NewError ("Failed to generate embeddings due to an error ("
                                  ++ decimal (status r) ++ " " ++ statusText r ++ ")."))
           | None =>
               if error_request e then
                 config <- convert h (error_config e) ;;
                 log ("Error generating embeddings: Request failed" ++ ", Request data: "
                        ++ config) ;;
                 raise (NewError "Failed to send request to the server.")
               else
                 log ("Error generating embeddings: " ++ error_message e) ;;
                 raise (NewError "An error occurred while processing the request.")
           end
       | NewError message =>
           log ("Error generating embeddings: " ++ errorToString "Error" message) ;;
           raise (NewError "An unexpected error occurred while generating embeddings.")
       | TypeError message =>
           log ("Error generating embeddings: " ++ errorToString "TypeError" message) ;;
           raise (NewError "An unexpected error occurred while generating embeddings.")
       | OtherRejection shown =>
           text <- convert h shown ;;
           log ("Error generating embeddings: " ++ text) ;;
           raise (NewError "An unexpected error occurred while generating embeddings.")
       end)%openai.

End OpenAI.

(** * Vocabulary of the properties

    Predicates and spec-side definitions the theorems below are stated
    with; none of them is part of the program. *)

(** ** Strings and characters *)

Fixpoint allChars (p : ascii -> bool) (s : string) : bool :=
  match s with
  | EmptyString => true
  | String c s' => p c && allChars p s'
  end.

(** The character in front of what follows [s], [prev] being the character
    in front of [s]. *)
Fixpoint lastChar (s : string) (prev : option ascii) : option ascii :=
  match s with
  | EmptyString => prev
  | String c s' => lastChar s' (Some c)
  end.

Definition startsOutside (cls : ascii -> bool) (s : string) : bool :=
  match s with
  | String c _ => negb (cls c)
  | EmptyString => true
  end.

(** Whether [pattern] occurs in [s]. *)
Fixpoint containsb (pattern s : string) : bool :=
  startsWith pattern s
  || match s with
     | EmptyString => false
     | String _ s' => containsb pattern s'
     end.

Definition occursIn (pattern s : string) : Prop :=
  exists pre post, s = pre ++ pattern ++ post.

(** ** Declarations in a model text *)

Definition keywords : list string := ["asset"; "participant"; "enum"; "abstract asset"].

(** A declaration as it stands in a model file: a keyword, white space, the
    declared identifier (a run of word characters), and what follows up to
    the next declaration. *)
Record Declaration : Type := {
  keyword : string;
  spacing : string;
  name : string;
  trailer : string
}.

Definition declarationText (d : Declaration) : string :=
  keyword d ++ spacing d ++ name d ++ trailer d.

Definition nonEmpty (s : string) : bool := negb (s =? "").

Definition notWordChar (c : ascii) : bool := negb (isWordChar c).

(** What may stand between the identifier of a declaration and the next
    declaration: a text that starts and ends with a character that is no
    word character and holds none of the keywords (the body of the
    declaration, comments, white space). *)
Definition isTrailer (t : string) : bool :=
  nonEmpty t
  && startsOutside isWordChar t
  && negb (isWordAt (lastChar t None))
  && negb (containsb "asset" t)
  && negb (containsb "participant" t)
  && negb (containsb "enum" t)
  && negb (containsb "abstract " t).

Definition isDeclaration (d : Declaration) : bool :=
  existsb (String.eqb (keyword d)) keywords
  && (nonEmpty (spacing d) && allChars isSpaceChar (spacing d))
  && (nonEmpty (name d) && allChars isWordChar (name d))
  && isTrailer (trailer d).

(** A declaration stands at the front of [s], [prev] being the character in
    front of [s]: one of the keywords, starting a word; white space; the
    identifier, which is the longest run of word characters there; and
    [rest] behind it. *)
Definition DeclaresAt (prev : option ascii) (s kw spacing name rest : string) : Prop :=
  In kw keywords
  /\ isWordAt prev = false
  /\ s = kw ++ spacing ++ name ++ rest
  /\ spacing <> EmptyString /\ allChars isSpaceChar spacing = true
  /\ name <> EmptyString /\ allChars isWordChar name = true
  /\ startsOutside isWordChar rest = true.

(** [Extracts prev s names]: reading [s] from left to right, [names] are
    the identifiers of the declarations met, in order and with repetitions.
    The reading goes on behind the identifier of a declaration, and one
    character further where no declaration stands. *)
Inductive Extracts : option ascii -> string -> list string -> Prop :=
| Extracts_end (prev : option ascii) : Extracts prev EmptyString []
| Extracts_declaration (prev : option ascii) (s kw spacing name rest : string)
    (names : list string) :
    DeclaresAt prev s kw spacing name rest ->
    Extracts (lastChar (kw ++ spacing ++ name) prev) rest names ->
    Extracts prev s (name :: names)
| Extracts_skip (prev : option ascii) (c : ascii) (s : string) (names : list string) :
    (forall kw spacing name rest, ~ DeclaresAt prev (String c s) kw spacing name rest) ->
    Extracts (Some c) s names ->
    Extracts prev (String c s) names.

(** ** Import lines of a file *)

(** The import line of one file, as the mapper's contract words it, with
    the base name computed by [stem]. *)
Definition importLineWith (stem : string -> string) (key : string)
  (values : list string) : string :=
  match values with
  | [] => EmptyString
  | [name] =>
      "import org.accordproject." ++ stem key ++ "." ++ name
        ++ " from https://models.accordproject.org/accordproject/" ++ key ++ LF
  | _ =>
      "import org.accordproject." ++ stem key ++ ".{ " ++ String.concat ", " values
        ++ " } from https://models.accordproject.org/accordproject/" ++ key ++ LF
  end.

(** The base name the code computes: the first ".cto" of the name removed. *)
Definition importLine : string -> list string -> string :=
  importLineWith (replaceFirst ".cto" "").

(** A file name without its extension: the name up to its last dot, the
    whole name when it has no dot. *)
Fixpoint stripExtension (name : string) : string :=
  match name with
  | EmptyString => EmptyString
  | String c rest =>
      if existsb (Ascii.eqb ".") (list_ascii_of_string rest)
      then String c (stripExtension rest)
      else if Ascii.eqb c "." then EmptyString
      else String c (stripExtension rest)
  end.

(** A file name that is neither "__proto__" nor an array index: as a
    property name it is created where it is first assigned, behind the
    names created before it. *)
Definition plainName (key : string) : bool :=
  negb (key =? "__proto__")
  && match arrayIndex key with
     | Some _ => false
     | None => true
     end.

(** ** Lines of a grammar text *)

(** Lines, each closed by a line feed. *)
Definition unlines (ls : list string) : string :=
  String.concat "" (map (fun l => l ++ LF) ls).

Definition isImportLine (l : string) : bool := startsWith "import " l.

(** A line of a grammar text: an import statement that runs to the end of
    its line, or a line in which "import " does not occur. *)
Definition importOrPlain (l : string) : bool :=
  if isImportLine l then allChars isDotChar l else negb (containsb "import " l).

(** ** Rankings *)

(** The comparator of the three rankings: [(a, b) => b[0] - a[0]], [key]
    reading the score of an entry. *)
Definition descending {T : Type} (key : T -> number) (a b : T) : number :=
  PrimFloat.sub (key b) (key a).

(** [a] may stand in front of [b]: the score of [a] is greater than or
    equal to the score of [b], as doubles compare. *)
Definition notBelow {T : Type} (key : T -> number) (a b : T) : bool :=
  PrimFloat.leb (key b) (key a).

(** The order the ranking contract asks for: the returned entries [top] in
    non-increasing order of score, none of them scoring less than an entry
    of [rest], the scored entries left out. *)
Definition RankedByScore {T : Type} (key : T -> number) (top rest : list T) : Prop :=
  (forall front a middle b back,
      top = (front ++ a :: middle ++ b :: back)%list -> notBelow key a b = true)
  /\ (forall t r, In t top -> In r rest -> notBelow key t r = true).

(** What a ranking takes from the scored entries: at most [topN] of them. *)
Definition TopOf {T : Type} (topN : nat) (scored top : list T) : Prop :=
  (List.length top <= topN)%nat
  /\ exists rest, Permutation scored (top ++ rest)%list.

(** One turn of a scoring loop: an entry with a vector is scored and pushed,
    any other entry is passed over. *)
Definition scoreStep {E T : Type} (select : E -> option (list number))
  (score : list number -> Result number) (entryOf : number -> E -> T)
  (scored : list T) (entry : E) : Result (list T) :=
  match select entry with
  | Some embeddings =>
      bindR (score embeddings) (fun similarity =>
      Ok (scored ++ [entryOf similarity entry])%list)
  | None => Ok scored
  end.

Definition selected {E : Type} (select : E -> option (list number)) (entry : E) : bool :=
  match select entry with
  | Some _ => true
  | None => false
  end.

(** [t] is what the loop pushes for [entry]. *)
Definition ScoredEntry {E T : Type} (select : E -> option (list number))
  (score : list number -> Result number) (entryOf : number -> E -> T) (entry : E) (t : T) : Prop :=
  exists embeddings similarity,
    select entry = Some embeddings
    /\ score embeddings = Ok similarity
    /\ t = entryOf similarity entry.

(** The vector the store holds for [provider], if any. *)
Definition storedEmbedding (provider : string) (geminiPath openaiPath : option (list number))
  : option (list number) :=
  if provider =? "gemini" then geminiPath
  else if provider =? "openai" then openaiPath
  else None.

Definition selectNamespace (provider : string) (entry : string * ModelEmbeddings)
  : option (list number) :=
  selectEmbeddings provider (modelGeminiEmbedding (snd entry))
    (modelOpenAiEmbedding (snd entry)).

Definition selectTemplate (provider : string) (entry : string * TemplateEntry)
  : option (list number) :=
  selectEmbeddings provider (grammarGeminiEmbedding (snd entry))
    (grammarOpenAiEmbedding (snd entry)).

Definition namespaceEntry (similarity : number) (entry : string * ModelEmbeddings)
  : NamespaceScore :=
  (similarity, fst entry, fileContent (snd entry)).

Definition templateEntry (similarity : number) (entry : string * TemplateEntry)
  : TemplateScore :=
  let grammarContent := option_map grammar_content (grammar (snd entry)) in
  (similarity, fst entry, grammarContent, option_map removeImports grammarContent).

Definition grammarEntry (similarity : number) (entry : string * TemplateEntry)
  : TemplateScore :=
  (similarity, fst entry, option_map sample_content (sample (snd entry)),
   option_map grammar_content (grammar (snd entry))).

(** What a ranking function returns, given what its scoring loop did: the
    loop's error if it threw, and otherwise the rendering of the top
    entries. *)
Definition RankingOf {T : Type} (render : T -> string) (topN : nat)
  (scored : Result (list T)) (result : Result (list string)) : Prop :=
  match scored with
  | Throw e => result = Throw e
  | Ok entries => exists top, result = Ok (map render top) /\ TopOf topN entries top
  end.

(** The scored entries are the corpus entries that hold a vector for the
    provider, in corpus order, each with its cosine similarity to the
    query. *)
Definition ScoresOf {E T : Type} (select : E -> option (list number))
  (score : list number -> Result number) (entryOf : number -> E -> T) (corpus : list E)
  (scored : Result (list T)) : Prop :=
  forall entries, scored = Ok entries ->
    Forall2 (ScoredEntry select score entryOf) (filter (selected select) corpus) entries.

(** The vector stored for the provider in a model entry and in a template
    entry. *)
Definition modelStored (provider : string) (obj : ModelEmbeddings) : option (list number) :=
  storedEmbedding provider (modelGeminiEmbedding obj) (modelOpenAiEmbedding obj).

Definition templateStored (provider : string) (template : TemplateEntry)
  : option (list number) :=
  storedEmbedding provider (grammarGeminiEmbedding template)
    (grammarOpenAiEmbedding template).

(** Whether a non-empty array is stored for the provider. *)
Definition hasNonEmptyVector (provider : string) (obj : ModelEmbeddings) : bool :=
  match modelStored provider obj with
  | Some (_ :: _) => true
  | _ => false
  end.

(** ** Example data *)

(** Values of the enumerations for the examples below. *)
Definition exampleEnums : Enums :=
  {| RequestType_Inline := "inline";
     RequestType_Fix := "fix";
     RequestType_General := "general";
     RequestType_Model := "model";
     RequestType_Grammar := "grammar";
     Language_Concerto := "concerto" |}.

(** Collaborators for the examples: every renderer returns one system
    message, the gateway a vector of one component. *)
Definition exampleCollaborators : Collaborators :=
  let prompt := [{| msg_content := "rendered"; msg_role := "system" |}] in
  {| getConcertoInlineTemplate := fun _ _ _ => Ok prompt;
     getInlineTemplate := fun _ _ _ => Ok prompt;
     getFixTemplate := fun _ _ => Ok prompt;
     getGeneralTemplate := fun _ => Ok prompt;
     getGrammarTemplate := fun _ => Ok prompt;
     generateEmbeddingsByProvider := fun _ _ _ => Ok [1%float];
     getConcertoModelTemplate := fun _ _ _ => Ok prompt |}.

Definition exampleParams (requestType : string) (docs : list ContextDocument)
  : AgentPlannerParams :=
  {| documents := {| main := {| main_content := "abcdef";
                               main_cursorPosition := Some 3%Z |};
                     contextDocuments := Some docs |};
     promptConfig := {| requestType := requestType; language := "concerto";
                        instruction := None |};
     config := {| provider := "openai"; llmModel := ""; apiUrl := "";
                  accessToken := "token" |} |}.

(** A model entry whose OpenAI array is stored and empty. *)
Definition emptyVectorEntry : ModelEmbeddings :=
  {| fileContent := "asset Vehicle {}";
     fileName := "auto.cto";
     gemini := None;
     openai := Some {| openai_embeddings := Some [] |} |}.

(** A template whose grammar text is one import statement with no line feed
    after it, stored with an OpenAI vector. *)
Definition unterminatedImportTemplate : TemplateEntry :=
  {| grammar := Some {| grammar_content := "import org.example.base.Party";
                        grammar_embeddings :=
                          Some {| grammar_gemini := None;
                                  grammar_openai := Some [1%float] |} |};
     sample := None |}.

(** [math.dot] and [math.norm] on vectors of one component: the product of
    the components, and the square root of the component's square. mathjs
    throws for vectors of different lengths and for empty vectors. *)
Definition componentDot (vec1 vec2 : list number) : Result number :=
  match vec1, vec2 with
  | [x], [y] => Ok (PrimFloat.mul x y)
  | [], _ | _, [] => Throw (Error "Cannot calculate the dot product of empty vectors")
  | _, _ => Throw (Error "Vectors must have equal length")
  end.

Definition componentNorm (vec : list number) : Result number :=
  match vec with
  | [] => Ok PrimFloat.zero
  | [x] => Ok (PrimFloat.sqrt (PrimFloat.mul x x))
  | _ => Throw (Error "not a vector of one component")
  end.

Definition storedModel (text : string) (vector : list number) : ModelEmbeddings :=
  {| fileContent := text;
     fileName := "model.cto";
     gemini := None;
     openai := Some {| openai_embeddings := Some vector |} |}.

Definition storedTemplate (text sampleText : string) (vector : list number)
  : TemplateEntry :=
  {| grammar := Some {| grammar_content := text;
                        grammar_embeddings :=
                          Some {| grammar_gemini := None;
                                  grammar_openai := Some vector |} |};
     sample := Some {| sample_content := sampleText |} |}.

(** A corpus whose second entry holds the zero vector. *)
Definition zeroVectorModels : JsObject ModelEmbeddings :=
  [("neg.cto", storedModel "asset Neg {}" [(-1)%float]);
   ("zero.cto", storedModel "asset Zero {}" [0%float]);
   ("pos.cto", storedModel "asset Pos {}" [1%float])].

Definition zeroVectorTemplates : TemplateEmbeddings :=
  [("neg", storedTemplate "Neg" "neg sample" [(-1)%float]);
   ("zero", storedTemplate "Zero" "zero sample" [0%float]);
   ("pos", storedTemplate "Pos" "pos sample" [1%float])].

(** ** Further vocabulary *)

(** Whether a call is one to a template renderer. *)
Definition isRenderer (c : Call) : bool :=
  match c with
  | call_generateEmbeddingsByProvider _ _ => false
  | _ => true
  end.

(** Whether a call is one to the embedding gateway. *)
Definition isEmbeddingCall (c : Call) : bool :=
  match c with
  | call_generateEmbeddingsByProvider _ _ => true
  | _ => false
  end.

(** Context documents of a model request; "package.json" stands twice. *)
Definition exampleModelDocuments : Documents :=
  {| main := {| main_content := ""; main_cursorPosition := None |};
     contextDocuments :=
       Some [ {| doc_fileName := "package.json"; doc_content := Some "{}" |};
              {| doc_fileName := "grammar.tem.md"; doc_content := Some "Hello" |};
              {| doc_fileName := "package.json"; doc_content := Some "other" |} ] |}.

(** A model entry with a vector of one component for each provider. *)
Definition bothVectorsEntry : ModelEmbeddings :=
  {| fileContent := "asset Vehicle {}";
     fileName := "auto.cto";
     gemini := Some {| gemini_embeddings := Some {| embedding := Some [1%float] |} |};
     openai := Some {| openai_embeddings := Some [1%float] |} |}.


(** Two properties with the same name, and the same value unless the name
    is [key]. *)
Definition sameExceptAt {V : Type} (key : string) (p q : string * V) : Prop :=
  fst p = fst q /\ (fst p <> key -> snd p = snd q).



(** Every line feed of [s] follows a carriage return, [afterCR] telling
    whether the character in front of [s] is one. *)
Fixpoint noBareLineFeed (afterCR : bool) (s : string) : bool :=
  match s with
  | EmptyString => true
  | String c s' =>
      (if inRange 10 10 c then afterCR else true)
      && noBareLineFeed (inRange 13 13 c) s'
  end.

Definition windowsImports : string :=
  "import org.a.B" ++ CR ++ LF ++ "import org.c.D" ++ CR ++ LF ++ "asset E" ++ CR ++ LF.

(** [e] is the error of the first entry of [corpus] whose similarity cannot
    be computed: the entry holds a vector, scoring it throws [e], and every
    entry in front of it that holds a vector has been scored. *)
Definition FirstFailure {E : Type} (select : E -> option (list number))
  (score : list number -> Result number) (corpus : list E) (e : JsError) : Prop :=
  exists before entry after embeddings,
    corpus = (before ++ entry :: after)%list
    /\ select entry = Some embeddings
    /\ score embeddings = Throw e
    /\ forall x v, In x before -> select x = Some v -> exists q, score v = Ok q.

(** ** Vocabulary for the OpenAI client *)

Definition isLog (e : OpenAI.Event) : bool :=
  match e with
  | OpenAI.Log _ => true
  | OpenAI.Post _ _ _ => false
  end.

(** The request [generateContent] posts. *)
Definition contentPost (h : OpenAI.Platform) (config : OpenAI.ModelConfig)
  (promptArray : list Message) : OpenAI.Event :=
  OpenAI.Post
    (OpenAI.orDefault (OpenAI.apiUrl config) (OpenAI.LLM_ENDPOINTS_OPENAI h))
    (OpenAI.ContentBody (OpenAI.createGenerateContentRequest promptArray config))
    [("Content-Type", "application/json");
     ("Authorization", "Bearer " ++ templateString (OpenAI.accessToken config))].

(** What [axios.post] answers to it. *)
Definition contentAnswer (h : OpenAI.Platform) (config : OpenAI.ModelConfig)
  (promptArray : list Message) : OpenAI.Attempt OpenAI.AxiosResponse :=
  OpenAI.axios_post h
    (OpenAI.orDefault (OpenAI.apiUrl config) (OpenAI.LLM_ENDPOINTS_OPENAI h))
    (OpenAI.ContentBody (OpenAI.createGenerateContentRequest promptArray config))
    [("Content-Type", "application/json");
     ("Authorization", "Bearer " ++ templateString (OpenAI.accessToken config))].

(** The address [generateEmbeddings] posts to. *)
Definition embeddingsUrl (h : OpenAI.Platform) (config : OpenAI.ModelConfig) : string :=
  let base :=
    OpenAI.orDefault (OpenAI.apiUrl config) (OpenAI.LLM_EMDEDDINGS_ENDPOINTS_OPENAI h) in
  if OpenAI.includes base "openai" then base else base ++ "/embeddings".

Definition embeddingsBody (config : OpenAI.ModelConfig) (text : string)
  : OpenAI.RequestBody :=
  OpenAI.EmbeddingsBody
    {| OpenAI.input := [text];
       OpenAI.embeddings_model :=
         OpenAI.orDefault (OpenAI.embeddingModel config) "text-embedding-ada-002" |}.

Definition embeddingsPost (h : OpenAI.Platform) (config : OpenAI.ModelConfig)
  (text : string) : OpenAI.Event :=
  OpenAI.Post (embeddingsUrl h config) (embeddingsBody config text)
    [("Content-Type", "application/json");
     ("Authorization", "Bearer " ++ templateString (OpenAI.accessToken config))].

Definition embeddingsAnswer (h : OpenAI.Platform) (config : OpenAI.ModelConfig)
  (text : string) : OpenAI.Attempt OpenAI.AxiosResponse :=
  OpenAI.axios_post h (embeddingsUrl h config) (embeddingsBody config text)
    [("Content-Type", "application/json");
     ("Authorization", "Bearer " ++ templateString (OpenAI.accessToken config))].

(** A platform whose [axios.post] always answers [answer]. *)
Definition examplePlatform (answer : OpenAI.Attempt OpenAI.AxiosResponse)
  : OpenAI.Platform :=
  {| OpenAI.LLM_ENDPOINTS_OPENAI := "https://api.openai.com/v1/chat/completions";
     OpenAI.LLM_EMDEDDINGS_ENDPOINTS_OPENAI := "https://api.openai.com/v1/embeddings";
     OpenAI.axios_post := fun _ _ _ => answer;
     OpenAI.toNumber_object := fun _ => None;
     OpenAI.toString_any := fun _ => "[object Object]";
     OpenAI.JSON_stringify := fun _ => Some "{}";
     OpenAI.typeErrorMessage := fun _ name => "Cannot read properties of undefined (reading '" ++ name ++ "')";
     OpenAI.conversionErrorMessage := "Cannot convert object to primitive value" |}.

Definition exampleConfig : OpenAI.ModelConfig :=
  {| OpenAI.llmModel := "gpt-4o";
     OpenAI.additionalParams := None;
     OpenAI.apiUrl := None;
     OpenAI.accessToken := Some "key";
     OpenAI.embeddingModel := None |}.

Definition exampleAnswer (status : N) (data : OpenAI.JsValue)
  : OpenAI.Attempt OpenAI.AxiosResponse :=
  OpenAI.Returned {| OpenAI.status := status; OpenAI.statusText := "OK";
                     OpenAI.data := data |}.

Definition exampleCompletion : OpenAI.JsValue :=
  OpenAI.JsObjectValue
    [("choices",
      OpenAI.JsArray
        [OpenAI.JsObjectValue
           [("message",
             OpenAI.JsObjectValue
               [("role", OpenAI.JsString "assistant");
                ("content", OpenAI.JsString "asset Car {}")])]])].

Definition exampleEmbeddingList : OpenAI.JsValue :=
  OpenAI.JsObjectValue
    [("data",
      OpenAI.JsArray
        [OpenAI.JsObjectValue
           [("embedding", OpenAI.JsArray [OpenAI.JsNumber 1%Q; OpenAI.JsNumber 0%Q])]])].

Definition proxyConfig : OpenAI.ModelConfig :=
  {| OpenAI.llmModel := "gpt-4o";
     OpenAI.additionalParams := None;
     OpenAI.apiUrl := Some "https://llm.example.org/v1";
     OpenAI.accessToken := Some "key";
     OpenAI.embeddingModel := Some "" |}.

(** A computation that only reads properties: it records no event, and
    what it throws is a TypeError. *)
Definition reads {A : Type} (m : OpenAI.T A) : Prop :=
  fst m = [] /\ forall e, snd m = OpenAI.Raised e -> exists message, e = OpenAI.TypeError message.

(** * Properties *)

(** ** Strings *)

Lemma substring_prefix (b a : string) :
  substring 0 (String.length b) (b ++ a) = b.
Proof.
  induction b as [| c b IH]; simpl.
  - destruct a; reflexivity.
  - now rewrite IH.
Qed.

Lemma substring_suffix (b a : string) :
  substring (String.length b) (String.length a) (b ++ a) = a.
Proof.
  induction b as [| c b IH]; simpl.
  - induction a as [| c a IHa]; simpl; [reflexivity | now rewrite IHa].
  - exact IH.
Qed.

Lemma substring_all (s : string) : substring 0 (String.length s) s = s.
Proof.
  induction s as [| c s IH]; simpl; [reflexivity | now rewrite IH].
Qed.

Lemma substring_none (s : string) : substring (String.length s) 0 s = EmptyString.
Proof.
  induction s as [| c s IH]; simpl; [reflexivity | exact IH].
Qed.

Lemma append_empty_r (s : string) : s ++ EmptyString = s.
Proof.
  induction s as [| c s IH]; simpl; [reflexivity | now rewrite IH].
Qed.

Lemma length_append (b a : string) :
  String.length (b ++ a) = (String.length b + String.length a)%nat.
Proof.
  induction b as [| c b IH]; simpl; [reflexivity | now rewrite IH].
Qed.

Lemma append_assoc (a b c : string) : (a ++ b) ++ c = a ++ (b ++ c).
Proof.
  induction a as [| x a IH]; simpl; [reflexivity | now rewrite IH].
Qed.

(** ** Inline requests: the split at the cursor *)

Lemma relativeIndex_inside (len k : Z) :
  (0 <= k <= len)%Z -> relativeIndex len k = k.
Proof.
  intros H. unfold relativeIndex.
  destruct (Z.ltb_spec k 0); lia.
Qed.

Lemma slice_unset_before (content : string) :
  beforeCursor content None = content.
Proof.
  unfold beforeCursor, effectiveCursor, stringSlice; simpl.
  rewrite !relativeIndex_inside by lia.
  replace (Z.to_nat 0) with 0%nat by reflexivity.
  replace (Z.to_nat _) with (String.length content) by lia.
  apply substring_all.
Qed.

Lemma slice_unset_after (content : string) :
  afterCursor content None = EmptyString.
Proof.
  unfold afterCursor, effectiveCursor, stringSlice; simpl.
  rewrite !relativeIndex_inside by lia.
  replace (Z.to_nat (Z.max _ 0)) with 0%nat by lia.
  rewrite Nat2Z.id. apply substring_none.
Qed.

Lemma effectiveCursor_positive (content : string) (n : Z) :
  n <> 0%Z -> effectiveCursor content (Some n) = n.
Proof.
  intros H. unfold effectiveCursor; simpl.
  destruct (Z.eqb_spec n 0); [contradiction | reflexivity].
Qed.

Lemma effectiveCursor_zero (content : string) :
  effectiveCursor content (Some 0%Z) = effectiveCursor content None.
Proof. reflexivity. Qed.

(** C5 (as the code has it). An inline request whose cursor position is a
    position of the content other than 0 splits the main document there:
    with the cursor after a non-empty prefix [b] of the content [b ++ a],
    the text before the cursor is [b] and the text after it is [a] (content
    "abcdef" and cursor 3 give "abc" and "def"); with no cursor position
    the text before is the whole content and the text after is empty.
    These two strings are what [inlineRequestPrompt] hands to the inline
    template. *)
Theorem inline_split_at_cursor (b a : string) :
  b <> EmptyString ->
  let content := b ++ a in
  let cursor := Some (Z.of_nat (String.length b)) in
  (beforeCursor content cursor = b /\ afterCursor content cursor = a)
  /\ (beforeCursor content None = content /\ afterCursor content None = EmptyString)
  /\ forall enums ext contextDocs promptConfig cursorPosition log,
       let docs := {| main := {| main_content := content;
                                 main_cursorPosition := cursorPosition |};
                      contextDocuments := contextDocs |} in
       let before := beforeCursor content cursorPosition in
       let after := afterCursor content cursorPosition in
       fst (inlineRequestPrompt enums ext docs promptConfig log)
       = (log ++ [if language promptConfig =? Language_Concerto enums
                  then call_getConcertoInlineTemplate before after
                  else call_getInlineTemplate before after])%list.
Proof.
  intros Hb content cursor.
  assert (Hlen : (0 < String.length b)%nat).
  { destruct b; [contradiction | simpl; lia]. }
  split; [| split].
  - unfold beforeCursor, afterCursor, cursor.
    rewrite effectiveCursor_positive by lia.
    unfold stringSlice, content. rewrite length_append.
    rewrite !relativeIndex_inside by lia.
    split.
    + replace (Z.to_nat 0) with 0%nat by reflexivity.
      replace (Z.to_nat _) with (String.length b) by lia.
      apply substring_prefix.
    + replace (Z.to_nat (Z.max _ 0)) with (String.length a) by lia.
      rewrite Nat2Z.id. apply substring_suffix.
  - split; [apply slice_unset_before | apply slice_unset_after].
  - intros enums ext contextDocs promptConfig cursorPosition log docs before after.
    unfold inlineRequestPrompt; simpl.
    destruct (language promptConfig =? Language_Concerto enums); reflexivity.
Qed.

(** C10. A cursor position of 0 is treated as no cursor position: the text
    before the cursor is the whole content and the text after it is empty,
    and the planner does for such a request exactly what it does for the
    same request without a cursor position. *)
Theorem cursor_zero_is_unset (content : string) :
  beforeCursor content (Some 0%Z) = content
  /\ afterCursor content (Some 0%Z) = EmptyString
  /\ forall enums ext contextDocs promptConfig,
       inlineRequestPrompt enums ext
         {| main := {| main_content := content; main_cursorPosition := Some 0%Z |};
            contextDocuments := contextDocs |} promptConfig
       = inlineRequestPrompt enums ext
           {| main := {| main_content := content; main_cursorPosition := None |};
              contextDocuments := contextDocs |} promptConfig.
Proof.
  split; [| split].
  - exact (slice_unset_before content).
  - exact (slice_unset_after content).
  - reflexivity.
Qed.

(** ** Context extractor *)

Lemma findContent_absent (l : list ContextDocument) (name : string) :
  (forall doc, In doc l -> doc_fileName doc = name -> doc_content doc = None) ->
  findContent (Some l) name = None.
Proof.
  intros H. unfold findContent.
  destruct (find _ l) as [doc |] eqn:E; [| reflexivity].
  apply find_some in E. destruct E as [Hin Hname].
  apply String.eqb_eq in Hname. now apply H.
Qed.

Lemma findContent_first (l1 l2 : list ContextDocument) (doc : ContextDocument) :
  (forall d, In d l1 -> doc_fileName d <> doc_fileName doc) ->
  findContent (Some (l1 ++ doc :: l2)%list) (doc_fileName doc) = doc_content doc.
Proof.
  intros H. unfold findContent.
  induction l1 as [| d l1 IH]; simpl.
  - now rewrite String.eqb_refl.
  - destruct (String.eqb_spec (doc_fileName d) (doc_fileName doc)) as [E | _].
    + exfalso. apply (H d); [now left | exact E].
    + apply IH. intros d' Hd'. apply H. now right.
Qed.

(** The guard of the [model] branch: with the request type passed, a missing
    or empty "grammar.tem.md" or "package.json" is refused. *)
Lemma generateEmbeddingPrompt_model_guard (docs : Documents) :
  falsyString (findContent (contextDocuments docs) "grammar.tem.md") = true
  \/ falsyString (findContent (contextDocuments docs) "package.json") = true ->
  generateEmbeddingPrompt docs (Some "model") = Throw MissingDocument.
Proof.
  intros H. unfold generateEmbeddingPrompt.
  cbn [strictEq String.eqb Ascii.eqb Bool.eqb].
  destruct H as [H | H]; rewrite H; [reflexivity | now rewrite orb_true_r].
Qed.

Lemma generateEmbeddingPrompt_model_query (docs : Documents) (g p : string) :
  findContent (contextDocuments docs) "grammar.tem.md" = Some g ->
  findContent (contextDocuments docs) "package.json" = Some p ->
  g <> EmptyString -> p <> EmptyString ->
  generateEmbeddingPrompt docs (Some "model") = Ok (g ++ " " ++ p).
Proof.
  intros Hg Hp Hg' Hp'. unfold generateEmbeddingPrompt.
  cbn [strictEq String.eqb Ascii.eqb Bool.eqb].
  rewrite Hg, Hp; simpl.
  destruct (String.eqb_spec g ""); [contradiction |].
  destruct (String.eqb_spec p ""); [contradiction | reflexivity].
Qed.

(** Without a request type neither branch is taken. *)
Lemma generateEmbeddingPrompt_no_type (docs : Documents) :
  generateEmbeddingPrompt docs None = Ok EmptyString.
Proof. reflexivity. Qed.

Lemma generateEmbeddingPrompt_grammar (docs : Documents) :
  generateEmbeddingPrompt docs (Some "grammar")
  = Ok (templateString (findContent (contextDocuments docs) "sample.md")).
Proof. reflexivity. Qed.

(** C4 (the code at the inputs the claim is about). For a grammar request
    the query is the content of the first context document named
    "sample.md"; when there is no such document, or its content is
    undefined, the query is the nine characters "undefined", not the empty
    string. No error is raised. *)
Theorem grammar_query_is_sample_content (mainDoc : DocumentDetails)
  (l : list ContextDocument) :
  (forall l1 doc l2 text,
      l = (l1 ++ doc :: l2)%list ->
      (forall d, In d l1 -> doc_fileName d <> "sample.md") ->
      doc_fileName doc = "sample.md" -> doc_content doc = Some text ->
      generateEmbeddingPrompt {| main := mainDoc; contextDocuments := Some l |}
        (Some "grammar") = Ok text)
  /\ ((forall doc, In doc l -> doc_fileName doc = "sample.md" -> doc_content doc = None) ->
      generateEmbeddingPrompt {| main := mainDoc; contextDocuments := Some l |}
        (Some "grammar") = Ok "undefined")
  /\ generateEmbeddingPrompt {| main := mainDoc; contextDocuments := None |}
       (Some "grammar") = Ok "undefined".
Proof.
  split; [| split].
  - intros l1 doc l2 text -> Hl1 Hname Hcontent.
    rewrite generateEmbeddingPrompt_grammar. cbn [contextDocuments].
    rewrite <- Hname in Hl1 |- *. rewrite (findContent_first l1 l2 doc Hl1).
    now rewrite Hcontent.
  - intros H. rewrite generateEmbeddingPrompt_grammar. cbn [contextDocuments].
    now rewrite (findContent_absent l "sample.md" H).
  - reflexivity.
Qed.

(** ** Planner *)

Lemma agentPlanner_model (enums : Enums) (ext : Collaborators)
  (params : AgentPlannerParams) :
  let rt := requestType (promptConfig params) in
  rt = RequestType_Model enums ->
  rt <> RequestType_Inline enums ->
  rt <> RequestType_Fix enums ->
  rt <> RequestType_General enums ->
  agentPlanner enums ext params
  = modelRequestPrompt ext (documents params) (config params).
Proof.
  intros rt Hm Hi Hf Hg. unfold agentPlanner. fold rt.
  destruct (String.eqb_spec rt (RequestType_Inline enums)); [contradiction |].
  destruct (String.eqb_spec rt (RequestType_Fix enums)); [contradiction |].
  destruct (String.eqb_spec rt (RequestType_General enums)); [contradiction |].
  destruct (String.eqb_spec rt (RequestType_Model enums)); [reflexivity | contradiction].
Qed.

(** What [modelRequestPrompt] does, whatever the context documents are: the
    embedding gateway is called first, with the empty query. *)
Lemma modelRequestPrompt_run (ext : Collaborators) (docs : Documents)
  (config : ModelConfig) (log : list Call) :
  modelRequestPrompt ext docs config log
  = match generateEmbeddingsByProvider ext (provider config) config "" with
    | Ok promptEmbedding =>
        ((log ++ [call_generateEmbeddingsByProvider (provider config) ""]
              ++ [call_getConcertoModelTemplate promptEmbedding (provider config)])%list,
         getConcertoModelTemplate ext docs promptEmbedding (provider config))
    | Throw e =>
        ((log ++ [call_generateEmbeddingsByProvider (provider config) ""])%list, Throw e)
    end.
Proof.
  unfold modelRequestPrompt, bind, lift, external.
  rewrite generateEmbeddingPrompt_no_type.
  destruct (generateEmbeddingsByProvider ext (provider config) config "");
    [now rewrite <- app_assoc | reflexivity].
Qed.

(** C1 (the code at the inputs the claim is about). A model request reaches
    [modelRequestPrompt], which builds its query without passing the
    request type: no document is looked up, nothing is thrown, and the first
    thing that happens is the call of the embedding gateway with the empty
    query. What the planner returns or throws is what the gateway and the
    model template return or throw. *)
Theorem model_request_calls_gateway_first (enums : Enums) (ext : Collaborators)
  (params : AgentPlannerParams) (log : list Call) :
  let rt := requestType (promptConfig params) in
  let p := provider (config params) in
  rt = RequestType_Model enums ->
  rt <> RequestType_Inline enums ->
  rt <> RequestType_Fix enums ->
  rt <> RequestType_General enums ->
  agentPlanner enums ext params log
  = match generateEmbeddingsByProvider ext p (config params) "" with
    | Ok promptEmbedding =>
        ((log ++ [call_generateEmbeddingsByProvider p ""]
              ++ [call_getConcertoModelTemplate promptEmbedding p])%list,
         getConcertoModelTemplate ext (documents params) promptEmbedding p)
    | Throw e => ((log ++ [call_generateEmbeddingsByProvider p ""])%list, Throw e)
    end.
Proof.
  intros rt p Hm Hi Hf Hg.
  rewrite (agentPlanner_model enums ext params Hm Hi Hf Hg).
  apply modelRequestPrompt_run.
Qed.

(** C8. A request whose type is none of the five members of [RequestType]
    makes the planner throw "Unsupported request type"; nothing is called
    on the way, no template renderer in particular. *)
Theorem unknown_request_type_is_unsupported (enums : Enums) (ext : Collaborators)
  (params : AgentPlannerParams) (log : list Call) :
  ~ In (requestType (promptConfig params))
      [RequestType_Inline enums; RequestType_Fix enums; RequestType_General enums;
       RequestType_Model enums; RequestType_Grammar enums] ->
  agentPlanner enums ext params log = (log, Throw UnsupportedRequestType).
Proof.
  intros H. unfold agentPlanner.
  repeat match goal with
         | |- context [String.eqb ?a ?b] =>
             destruct (String.eqb_spec a b) as [E | _];
             [exfalso; apply H; rewrite E; simpl; tauto |]
         end.
  reflexivity.
Qed.

(** ** Concrete requests *)

Lemma inline_split_at_cursor_witness :
  "abc" <> EmptyString
  /\ (beforeCursor "abcdef" (Some 3%Z) = "abc" /\ afterCursor "abcdef" (Some 3%Z) = "def").
Proof.
  split; [discriminate |].
  exact (proj1 (inline_split_at_cursor "abc" "def" (fun E => eq_ind "abc"
    (fun s => match s with EmptyString => False | String _ _ => True end) I _ E))).
Defined.

(** C5 as stated fails for the cursor position 0: the content "abcdef" is
    not split in front of its first character, into "" and "abcdef", but
    behind its last one. *)
Lemma inline_split_not_at_cursor_zero :
  (beforeCursor "abcdef" (Some 0%Z) = "abcdef"
   /\ afterCursor "abcdef" (Some 0%Z) = EmptyString)
  /\ ~ (beforeCursor "abcdef" (Some 0%Z) = EmptyString
        /\ afterCursor "abcdef" (Some 0%Z) = "abcdef").
Proof.
  split; [split; reflexivity |].
  intros [H _]. vm_compute in H. discriminate H.
Qed.

Lemma unknown_request_type_witness :
  agentPlanner exampleEnums exampleCollaborators (exampleParams "frobnicate" []) []
  = ([], Throw UnsupportedRequestType).
Proof.
  apply (unknown_request_type_is_unsupported exampleEnums exampleCollaborators
           (exampleParams "frobnicate" []) []).
  simpl. intros H. repeat (destruct H as [H | H]; [discriminate H |]). exact H.
Defined.

(** A model request with no context document at all: the gateway is called
    with the empty query and the model template is rendered. *)
Lemma model_request_without_documents :
  agentPlanner exampleEnums exampleCollaborators (exampleParams "model" []) []
  = ([call_generateEmbeddingsByProvider "openai" "";
      call_getConcertoModelTemplate [1%float] "openai"],
     Ok [{| msg_content := "rendered"; msg_role := "system" |}]).
Proof.
  apply (model_request_calls_gateway_first exampleEnums exampleCollaborators
           (exampleParams "model" []) []); simpl; congruence.
Defined.

Lemma grammar_query_without_sample :
  generateEmbeddingPrompt
    {| main := {| main_content := ""; main_cursorPosition := None |};
       contextDocuments := Some [] |} (Some "grammar") = Ok "undefined".
Proof.
  apply (proj1 (proj2 (grammar_query_is_sample_content
                         {| main_content := ""; main_cursorPosition := None |} []))).
  intros doc [].
Defined.

(** ** Import synthesis *)

Lemma startsWith_cto (r : string) :
  startsWith ".cto" (r ++ ".cto") = true ->
  r = EmptyString \/ exists r', r = ".cto" ++ r'.
Proof.
  intros H.
  destruct r as [| c1 r]; [now left |].
  right. cbn [startsWith append] in H.
  destruct (Ascii.eqb_spec "." c1) as [<- |]; [| discriminate].
  destruct r as [| c2 r]; cbn [startsWith append andb] in H; [discriminate |].
  destruct (Ascii.eqb_spec "c" c2) as [<- |]; [| discriminate].
  destruct r as [| c3 r]; cbn [startsWith append andb] in H; [discriminate |].
  destruct (Ascii.eqb_spec "t" c3) as [<- |]; [| discriminate].
  destruct r as [| c4 r]; cbn [startsWith append andb] in H; [discriminate |].
  destruct (Ascii.eqb_spec "o" c4) as [<- |]; [| discriminate].
  now exists r.
Qed.

(** For a file named [stem ++ ".cto"] whose stem holds no ".cto", the code's
    base name is the stem. *)
Lemma replaceFirst_cto_extension (stem : string) :
  ~ occursIn ".cto" stem ->
  replaceFirst ".cto" "" (stem ++ ".cto") = stem.
Proof.
  induction stem as [| c stem IH]; intros Hno.
  - reflexivity.
  - change (String c stem ++ ".cto") with (String c (stem ++ ".cto")).
    cbn [replaceFirst].
    destruct (startsWith ".cto" (String c (stem ++ ".cto"))) eqn:E.
    + exfalso.
      destruct (startsWith_cto (String c stem) E) as [E' | [r' E']]; [discriminate |].
      apply Hno. exists EmptyString, r'. exact E'.
    + f_equal. apply IH. intros [pre [post E']]. apply Hno.
      exists (String c pre), post. simpl. now rewrite E'.
Qed.

Lemma generateCTOImports_fold (namespaceMappings : JsObject (list string))
  (result : string) :
  fold_left
    (fun result entry =>
       let '(key, values) := entry in
       if (List.length values =? 1)%nat then
         result ++ "import org.accordproject." ++ replaceFirst ".cto" "" key ++ "."
           ++ templateString (nth_error values 0)
           ++ " from https://models.accordproject.org/accordproject/" ++ key ++ LF
       else if (1 <? List.length values)%nat then
         result ++ "import org.accordproject." ++ replaceFirst ".cto" "" key ++ ".{ "
           ++ String.concat ", " values
           ++ " } from https://models.accordproject.org/accordproject/" ++ key ++ LF
       else result)
    namespaceMappings result
  = result
      ++ String.concat "" (map (fun entry => importLine (fst entry) (snd entry))
                             namespaceMappings).
Proof.
  revert result.
  induction namespaceMappings as [| [key values] rest IH]; intros result.
  - simpl. now rewrite append_empty_r.
  - cbn [fold_left map fst snd]. rewrite IH.
    assert (Hconcat : forall x l, String.concat "" (x :: l) = x ++ String.concat "" l).
    { intros x [| y l]; simpl; [now rewrite append_empty_r | reflexivity]. }
    rewrite Hconcat.
    destruct values as [| n1 [| n2 values]];
      cbn [List.length Nat.eqb Nat.ltb Nat.leb fst snd];
      [reflexivity | apply append_assoc | apply append_assoc].
Qed.

Lemma hasOwnProperty_in {V : Type} (key : string) (o : JsObject V) :
  hasOwnProperty key o = true <-> In key (map fst o).
Proof.
  induction o as [| [k w] o IH]; cbn [hasOwnProperty map fst In].
  - split; [discriminate | contradiction].
  - rewrite orb_true_iff, IH, String.eqb_eq. tauto.
Qed.

Lemma hasOwnProperty_fresh {V : Type} (key : string) (o : JsObject V) :
  ~ In key (map fst o) -> hasOwnProperty key o = false.
Proof.
  intros H. destruct (hasOwnProperty key o) eqn:E; [| reflexivity].
  apply hasOwnProperty_in in E. contradiction.
Qed.

(** A new name that is no array index goes last. *)
Lemma objectSet_fresh {V : Type} (key : string) (v : V) (o : JsObject V) :
  key <> "__proto__" -> arrayIndex key = None -> ~ In key (map fst o) ->
  objectSet key v o = (o ++ [(key, v)])%list.
Proof.
  intros Hp Hi Hk. unfold objectSet.
  destruct (String.eqb_spec key "__proto__") as [E | _]; [contradiction |].
  now rewrite (hasOwnProperty_fresh _ _ Hk), Hi.
Qed.

(** Entries with distinct file names, none of them "__proto__" or an array
    index, are mapped in corpus order. *)
Lemma namespaceMappings_distinct (modelEmbeddings : JsObject ModelEmbeddings)
  (mappings : JsObject (list string)) :
  NoDup (map fst mappings ++ map (fun entry => fileName (snd entry)) modelEmbeddings)%list ->
  (forall entry, In entry modelEmbeddings -> plainName (fileName (snd entry)) = true) ->
  fold_left
    (fun mappings entry =>
       let fileContent := fileContent (snd entry) in
       let fileName := fileName (snd entry) in
       let namespaces := extractNamespaces fileContent in
       objectSet fileName namespaces mappings)
    modelEmbeddings mappings
  = (mappings
       ++ map (fun entry => (fileName (snd entry),
                             extractNamespaces (fileContent (snd entry))))
            modelEmbeddings)%list.
Proof.
  revert mappings. induction modelEmbeddings as [| entry rest IH]; intros mappings H Hplain.
  - simpl. now rewrite app_nil_r.
  - cbn [fold_left map]. cbn [map] in H.
    pose proof (Hplain entry (or_introl eq_refl)) as Hentry.
    unfold plainName in Hentry. apply andb_true_iff in Hentry.
    destruct Hentry as [Hproto Hindex].
    rewrite objectSet_fresh.
    + rewrite IH.
      * now rewrite <- app_assoc.
      * rewrite map_app. cbn [map fst]. rewrite <- app_assoc. exact H.
      * intros e He. apply Hplain. now right.
    + apply negb_true_iff in Hproto. now apply String.eqb_neq.
    + destruct (arrayIndex (fileName (snd entry))); [discriminate Hindex | reflexivity].
    + apply NoDup_remove_2 in H. intros Hin. apply H. apply in_or_app. now left.
Qed.

(** The import block of a corpus whose entries carry distinct file names,
    none of them "__proto__" or an array index: one import line per entry,
    in corpus order, for the names extracted from its text. *)
Lemma getNamespaceMappings_distinct (modelEmbeddings : JsObject ModelEmbeddings) :
  NoDup (map (fun entry => fileName (snd entry)) modelEmbeddings) ->
  (forall entry, In entry modelEmbeddings -> plainName (fileName (snd entry)) = true) ->
  getNamespaceMappings modelEmbeddings
  = String.concat ""
      (map (fun entry => importLine (fileName (snd entry))
                           (extractNamespaces (fileContent (snd entry))))
         modelEmbeddings).
Proof.
  intros H Hplain.
  pose proof (namespaceMappings_distinct modelEmbeddings [] H Hplain) as E.
  unfold getNamespaceMappings. cbv zeta in E |- *. rewrite E.
  unfold generateCTOImports. rewrite generateCTOImports_fold.
  cbn [app append]. now rewrite map_map.
Qed.

(** A name in which ".cto" does not occur is left as it is. *)
Lemma replaceFirst_absent (pattern replacement s : string) :
  containsb pattern s = false -> replaceFirst pattern replacement s = s.
Proof.
  induction s as [| c s IH]; intros H.
  - cbn [replaceFirst]. cbn [containsb] in H. apply orb_false_iff in H.
    destruct H as [H _]. now rewrite H.
  - cbn [replaceFirst]. pose proof H as H'. cbn [containsb] in H'.
    apply orb_false_iff in H'. destruct H' as [Hs Hrest].
    rewrite Hs. f_equal. now apply IH.
Qed.

(** C6 (as the code has it by design). The import block is the
    concatenation, in the mapping's order, of one line per file: nothing
    for a file with no name; [import org.accordproject.<base>.<Name> from
    https://models.accordproject.org/accordproject/<file>] and a line feed
    for a file with one name; the same with [{ <Name1>, <Name2>, ... }]
    (names joined by ", " in their order) for a file with several. [<base>]
    is the file name with its ".cto" extension stripped: the stem of a file
    named [<stem>.cto] whose stem holds no ".cto", and the whole name of a
    file in whose name ".cto" does not occur. For a corpus of entries with
    distinct file names, none of them "__proto__" or an array index,
    [getNamespaceMappings] is this block, in corpus order, for the names
    extracted from each entry's text. *)
Theorem import_synthesis :
  exists base : string -> string,
    (forall namespaceMappings,
        generateCTOImports namespaceMappings
        = String.concat ""
            (map (fun entry => importLineWith base (fst entry) (snd entry))
               namespaceMappings))
    /\ (forall stem, ~ occursIn ".cto" stem -> base (stem ++ ".cto") = stem)
    /\ (forall key, containsb ".cto" key = false -> base key = key)
    /\ (forall key, importLineWith base key [] = EmptyString)
    /\ (forall key name,
          importLineWith base key [name]
          = "import org.accordproject." ++ base key ++ "." ++ name
              ++ " from https://models.accordproject.org/accordproject/" ++ key ++ LF)
    /\ (forall key name1 name2 names,
          importLineWith base key (name1 :: name2 :: names)
          = "import org.accordproject." ++ base key ++ ".{ "
              ++ String.concat ", " (name1 :: name2 :: names)
              ++ " } from https://models.accordproject.org/accordproject/" ++ key ++ LF)
    /\ (forall modelEmbeddings,
          NoDup (map (fun entry => fileName (snd entry)) modelEmbeddings) ->
          (forall entry, In entry modelEmbeddings ->
                         plainName (fileName (snd entry)) = true) ->
          getNamespaceMappings modelEmbeddings
          = String.concat ""
              (map (fun entry => importLineWith base (fileName (snd entry))
                                   (extractNamespaces (fileContent (snd entry))))
                 modelEmbeddings))
    /\ generateCTOImports [("auto.cto", ["Vehicle"])]
       = "import org.accordproject.auto.Vehicle from https://models.accordproject.org/accordproject/auto.cto"
           ++ LF
    /\ generateCTOImports [("auto.cto", ["Vehicle"; "Engine"])]
       = "import org.accordproject.auto.{ Vehicle, Engine } from https://models.accordproject.org/accordproject/auto.cto"
           ++ LF.
Proof.
  exists (replaceFirst ".cto" "").
  split; [| split; [| split; [| repeat split]]].
  - intros namespaceMappings. unfold generateCTOImports.
    now rewrite generateCTOImports_fold.
  - intros stem H. now apply replaceFirst_cto_extension.
  - intros key H. now apply replaceFirst_absent.
  - intros modelEmbeddings H Hplain. now apply getNamespaceMappings_distinct.
Qed.

(** C6 as stated fails for a file whose extension is not ".cto": only
    ".cto" is stripped. For the file "auto.txt" with the one name "Vehicle"
    the package of the import is [org.accordproject.auto.txt], not
    [org.accordproject.auto]. *)
Lemma import_synthesis_keeps_other_extensions :
  generateCTOImports [("auto.txt", ["Vehicle"])]
  = "import org.accordproject.auto.txt.Vehicle from https://models.accordproject.org/accordproject/auto.txt"
      ++ LF
  /\ stripExtension "auto.txt" = "auto"
  /\ generateCTOImports [("auto.txt", ["Vehicle"])]
     <> importLineWith stripExtension "auto.txt" ["Vehicle"].
Proof.
  repeat split; try reflexivity. intros E. vm_compute in E. discriminate E.
Qed.

(** ** The matcher on runs of a character class *)

Lemma lastChar_append (a b : string) (prev : option ascii) :
  lastChar (a ++ b) prev = lastChar b (lastChar a prev).
Proof.
  revert prev. induction a as [| c a IH]; intros prev; simpl; [reflexivity | apply IH].
Qed.

Lemma allChars_append (p : ascii -> bool) (a b : string) :
  allChars p (a ++ b) = allChars p a && allChars p b.
Proof.
  induction a as [| c a IH]; simpl; [reflexivity | now rewrite IH, andb_assoc].
Qed.

(** A greedy repetition takes the whole run when the rest of the pattern
    accepts what follows it. *)
Lemma many_run {R : Type} (cls : ascii -> bool) (run rest : string)
  (prev : option ascii) (k : option ascii -> string -> option R) (r : R) :
  allChars cls run = true ->
  startsOutside cls rest = true ->
  k (lastChar run prev) rest = Some r ->
  many cls prev (run ++ rest) k = Some r.
Proof.
  revert prev. induction run as [| c run IH]; intros prev Hrun Hrest Hk.
  - simpl in *. destruct rest as [| c rest]; simpl in *; [exact Hk |].
    apply negb_true_iff in Hrest. now rewrite Hrest.
  - simpl in *. apply andb_true_iff in Hrun. destruct Hrun as [Hc Hrun].
    rewrite Hc. now rewrite (IH (Some c) Hrun Hrest Hk).
Qed.

Lemma consumed_prefix (a b : string) : consumed (a ++ b) b = a.
Proof.
  unfold consumed. rewrite length_append.
  replace (String.length a + String.length b - String.length b)%nat
    with (String.length a) by lia.
  apply substring_prefix.
Qed.

Lemma word_not_space (c : ascii) : isWordChar c = true -> isSpaceChar c = false.
Proof.
  unfold isWordChar, isSpaceChar, inRange.
  intros H.
  repeat match type of H with
         | (_ || _) = true => apply orb_true_iff in H; destruct H as [H | H]
         end;
    apply andb_true_iff in H; destruct H as [H1 H2];
    apply N.leb_le in H1; apply N.leb_le in H2;
    repeat (apply orb_false_iff; split);
    apply andb_false_iff;
    destruct (N.leb_spec 9 (N_of_ascii c)), (N.leb_spec (N_of_ascii c) 13),
      (N.leb_spec 32 (N_of_ascii c)), (N.leb_spec (N_of_ascii c) 32),
      (N.leb_spec 160 (N_of_ascii c)), (N.leb_spec (N_of_ascii c) 160);
    try lia; auto.
Qed.

(** [\s+(\w+)] on spacing, a name, and something that does not go on the
    name. *)
Lemma match_spacing_name (spacing name rest : string) (prev : option ascii)
  (cap : option string) :
  spacing <> EmptyString -> allChars isSpaceChar spacing = true ->
  name <> EmptyString -> allChars isWordChar name = true ->
  startsOutside isWordChar rest = true ->
  matchRe (Cat (Many1 isSpaceChar) (Capture (Many1 isWordChar))) prev
    (spacing ++ name ++ rest) cap (fun _ rest' cap' => Some (rest', cap'))
  = Some (rest, Some name).
Proof.
  intros Hs Hsp Hn Hw Hrest.
  destruct spacing as [| s0 spacing]; [contradiction |].
  destruct name as [| n0 name]; [contradiction |].
  simpl in Hsp, Hw.
  apply andb_true_iff in Hsp. destruct Hsp as [Hs0 Hsp].
  apply andb_true_iff in Hw. destruct Hw as [Hn0 Hw].
  cbn [matchRe append]. rewrite Hs0.
  apply many_run; [exact Hsp | simpl; now rewrite (word_not_space n0 Hn0) |].
  cbn [matchRe append]. rewrite Hn0.
  apply many_run; [exact Hw | exact Hrest |].
  change (String n0 (name ++ rest)) with (String n0 name ++ rest).
  now rewrite consumed_prefix.
Qed.

Lemma chars_prefix (lit s : string) (prev : option ascii) :
  chars lit prev (lit ++ s) = Some (lastChar lit prev, s).
Proof.
  revert prev. induction lit as [| a lit IH]; intros prev; simpl.
  - reflexivity.
  - rewrite Ascii.eqb_refl. apply IH.
Qed.

Lemma chars_none (lit s : string) (prev : option ascii) :
  startsWith lit s = false -> chars lit prev s = None.
Proof.
  revert s prev. induction lit as [| a lit IH]; intros s prev H; simpl in *.
  - discriminate H.
  - destruct s as [| c s]; [reflexivity |].
    destruct (Ascii.eqb a c); [now apply IH | reflexivity].
Qed.

(** A literal found at the front of [s ++ rest] lies within [s] or runs on
    into [rest]. *)
Lemma startsWith_append_cases (lit s rest : string) :
  startsWith lit (s ++ rest) = true ->
  startsWith lit s = true
  \/ exists lit2, lit = s ++ lit2 /\ lit2 <> EmptyString /\ startsWith lit2 rest = true.
Proof.
  revert s. induction lit as [| a lit IH]; intros s H.
  - now left.
  - destruct s as [| c s].
    + right. exists (String a lit). repeat split; [discriminate | exact H].
    + cbn [append startsWith] in H |- *.
      destruct (Ascii.eqb_spec a c) as [<- |]; [| discriminate H].
      cbn [andb] in H |- *.
      destruct (IH s H) as [Hin | [lit2 [E [Hne Hp]]]]; [now left |].
      right. exists lit2. repeat split; [now rewrite E | exact Hne | exact Hp].
Qed.

Lemma allChars_first (p : ascii -> bool) (a b : string) :
  allChars p (a ++ b) = true -> b <> EmptyString -> startsOutside p b = false.
Proof.
  intros H Hb. rewrite allChars_append in H.
  apply andb_true_iff in H. destruct H as [_ H].
  destruct b as [| c b]; [contradiction |].
  simpl in *. apply andb_true_iff in H. destruct H as [H _]. now rewrite H.
Qed.

Lemma containsb_suffix (pattern : string) (c : ascii) (s : string) :
  containsb pattern (String c s) = false -> containsb pattern s = false.
Proof.
  cbn [containsb]. intros H. apply orb_false_iff in H. tauto.
Qed.

Lemma containsb_start (pattern s : string) :
  containsb pattern s = false -> startsWith pattern s = false.
Proof.
  destruct s; cbn [containsb]; intros H; apply orb_false_iff in H; tauto.
Qed.

(** ** Namespace extraction *)

Lemma nonEmpty_true (s : string) : nonEmpty s = true -> s <> EmptyString.
Proof.
  unfold nonEmpty. intros H ->. discriminate H.
Qed.

Lemma concat_cons (x : string) (l : list string) :
  String.concat "" (x :: l) = x ++ String.concat "" l.
Proof.
  destruct l; simpl; [now rewrite append_empty_r | reflexivity].
Qed.

Lemma matchAt_declaration (kw spacing name rest : string) (prev : option ascii) :
  In kw keywords ->
  isWordAt prev = false ->
  spacing <> EmptyString -> allChars isSpaceChar spacing = true ->
  name <> EmptyString -> allChars isWordChar name = true ->
  startsOutside isWordChar rest = true ->
  matchAt namespaceRegex prev (kw ++ spacing ++ name ++ rest) = Some (rest, Some name).
Proof.
  intros Hkw Hprev Hs Hsp Hn Hw Hrest.
  pose proof (fun p c => match_spacing_name spacing name rest p c Hs Hsp Hn Hw Hrest) as Hm.
  unfold matchAt, namespaceRegex.
  cbn [matchRe] in Hm |- *. rewrite Hprev.
  simpl in Hkw.
  destruct Hkw as [<- | [<- | [<- | [<- | []]]]];
    cbn [append firstChar isWordAt];
    match goal with
    | |- context [isWordChar ?c] =>
        replace (isWordChar c) with true by reflexivity
    end;
    cbn [xorb chars Ascii.eqb Bool.eqb];
    rewrite (Hm None None); reflexivity.
Qed.

Lemma lastChar_indep (s : string) (p q : option ascii) :
  s <> EmptyString -> lastChar s p = lastChar s q.
Proof.
  intros H. destruct s as [| c s]; [contradiction | reflexivity].
Qed.

Lemma allChars_last (p : ascii -> bool) (s : string) (q : option ascii) :
  allChars p s = true -> s <> EmptyString ->
  exists c, lastChar s q = Some c /\ p c = true.
Proof.
  revert q. induction s as [| c s IH]; intros q H Hne; [contradiction |].
  simpl in H. apply andb_true_iff in H. destruct H as [Hc Hs].
  destruct s as [| c' s].
  - exists c. now split.
  - apply (IH (Some c) Hs). discriminate.
Qed.

Lemma startsWith_app (a b x : string) :
  startsWith (a ++ b) x = true -> startsWith a x = true.
Proof.
  revert x. induction a as [| c a IH]; intros x H; [reflexivity |].
  destruct x as [| d x]; [discriminate H |].
  cbn [append startsWith] in H |- *.
  apply andb_true_iff in H. destruct H as [Hc H].
  rewrite Hc. now apply IH.
Qed.

(** A proper prefix of [w ++ [x]] is a prefix of [w]. *)
Lemma append_snoc_split (w : string) (x : ascii) (s lit2 : string) :
  w ++ String x EmptyString = s ++ lit2 -> lit2 <> EmptyString ->
  exists w2, w = s ++ w2.
Proof.
  revert s. induction w as [| c w IH]; intros s H Hne.
  - destruct s as [| d s]; [now exists EmptyString |].
    simpl in H. injection H as _ H.
    destruct s; [| discriminate H]. simpl in H. now subst lit2.
  - destruct s as [| d s]; [now exists (String c w) |].
    simpl in H. injection H as <- H.
    destruct (IH s H Hne) as [w2 ->]. now exists w2.
Qed.

(** A keyword cannot start in a text that ends with a character that is no
    word character and run on behind it. *)
Lemma no_straddle (lit s rest : string) :
  allChars isWordChar lit = true ->
  s <> EmptyString -> isWordAt (lastChar s None) = false ->
  startsWith lit s = false ->
  startsWith lit (s ++ rest) = false.
Proof.
  intros Hlit Hne Hlast Hs.
  destruct (startsWith lit (s ++ rest)) eqn:E; [| reflexivity].
  exfalso.
  destruct (startsWith_append_cases _ _ _ E) as [Hin | [lit2 [E2 _]]].
  - rewrite Hin in Hs. discriminate Hs.
  - rewrite E2, allChars_append in Hlit.
    apply andb_true_iff in Hlit. destruct Hlit as [Hw _].
    destruct (allChars_last _ _ None Hw Hne) as [c [Hc Hword]].
    rewrite Hc in Hlast. simpl in Hlast. rewrite Hword in Hlast. discriminate Hlast.
Qed.

Lemma no_straddle_snoc (w : string) (x : ascii) (s rest : string) :
  allChars isWordChar w = true ->
  s <> EmptyString -> isWordAt (lastChar s None) = false ->
  startsWith (w ++ String x EmptyString) s = false ->
  startsWith (w ++ String x EmptyString) (s ++ rest) = false.
Proof.
  intros Hw Hne Hlast Hs.
  destruct (startsWith (w ++ String x EmptyString) (s ++ rest)) eqn:E; [| reflexivity].
  exfalso.
  destruct (startsWith_append_cases _ _ _ E) as [Hin | [lit2 [E2 [Hne2 _]]]].
  - rewrite Hin in Hs. discriminate Hs.
  - destruct (append_snoc_split w x s lit2 E2 Hne2) as [w2 ->].
    rewrite allChars_append in Hw.
    apply andb_true_iff in Hw. destruct Hw as [Hw _].
    destruct (allChars_last _ _ None Hw Hne) as [c [Hc Hword]].
    rewrite Hc in Hlast. simpl in Hlast. rewrite Hword in Hlast. discriminate Hlast.
Qed.

(** No match starts in a text that holds no keyword and ends with a
    character that is no word character, whatever follows the text. *)
Lemma matchAt_quiet (s rest : string) (prev : option ascii) :
  s <> EmptyString -> isWordAt (lastChar s None) = false ->
  startsWith "asset" s = false ->
  startsWith "participant" s = false ->
  startsWith "enum" s = false ->
  startsWith "abstract " s = false ->
  matchAt namespaceRegex prev (s ++ rest) = None.
Proof.
  intros Hne Hlast Ha Hp He Hb.
  unfold matchAt, namespaceRegex. cbn [matchRe].
  destruct (xorb _ _); [| reflexivity].
  rewrite (chars_none "asset") by (now apply no_straddle).
  rewrite (chars_none "participant") by (now apply no_straddle).
  rewrite (chars_none "enum") by (now apply no_straddle).
  rewrite (chars_none "abstract asset"); [reflexivity |].
  destruct (startsWith "abstract asset" (s ++ rest)) eqn:E; [| reflexivity].
  apply (startsWith_app "abstract " "asset") in E.
  pose proof (no_straddle_snoc "abstract" " " s rest eq_refl Hne Hlast Hb) as H.
  change (startsWith "abstract " (s ++ rest) = false) in H.
  rewrite H in E. discriminate E.
Qed.

Lemma execAll_skip (r : regex) (m rest : string) (prev : option ascii) :
  execAll r prev (String.length m) (m ++ rest) = execAll r (lastChar m prev) 0 rest.
Proof.
  revert prev. induction m as [| c m IH]; intros prev.
  - simpl. destruct rest; reflexivity.
  - simpl. apply IH.
Qed.

(** A match found at the current position is reported, and the search goes
    on behind it. *)
Lemma execAll_match (r : regex) (m rest : string) (prev : option ascii)
  (cap : option string) :
  m <> EmptyString ->
  matchAt r prev (m ++ rest) = Some (rest, cap) ->
  execAll r prev 0 (m ++ rest) = cap :: execAll r (lastChar m prev) 0 rest.
Proof.
  intros Hm H. destruct m as [| c m]; [contradiction |].
  change (String c m ++ rest) with (String c (m ++ rest)) in *.
  cbn [execAll]. rewrite H. f_equal.
  cbn [String.length]. rewrite length_append.
  replace (S (String.length m + String.length rest) - String.length rest - 1)%nat
    with (String.length m) by lia.
  exact (execAll_skip r m rest (Some c)).
Qed.

Lemma execAll_quiet (t rest : string) (prev : option ascii) :
  t = EmptyString \/ isWordAt (lastChar t None) = false ->
  containsb "asset" t = false ->
  containsb "participant" t = false ->
  containsb "enum" t = false ->
  containsb "abstract " t = false ->
  execAll namespaceRegex prev 0 (t ++ rest)
  = execAll namespaceRegex (lastChar t prev) 0 rest.
Proof.
  revert prev. induction t as [| c t IH]; intros prev Hlast Ha Hp He Hb.
  - reflexivity.
  - destruct Hlast as [Hlast | Hlast]; [discriminate Hlast |].
    change (String c t ++ rest) with (String c (t ++ rest)).
    cbn [execAll].
    change (String c (t ++ rest)) with (String c t ++ rest).
    rewrite (matchAt_quiet (String c t) rest prev);
      [| discriminate | exact Hlast | now apply containsb_start ..].
    apply (IH (Some c)); [| now apply (containsb_suffix _ c) ..].
    destruct t as [| c' t]; [now left | right; exact Hlast].
Qed.

Lemma startsOutside_append (p : ascii -> bool) (t rest : string) :
  t <> EmptyString -> startsOutside p t = true -> startsOutside p (t ++ rest) = true.
Proof.
  intros Hne H. destruct t as [| c t]; [contradiction | exact H].
Qed.

Lemma execAll_declarations (ds : list Declaration) (prev : option ascii) :
  forallb isDeclaration ds = true ->
  isWordAt prev = false ->
  execAll namespaceRegex prev 0 (String.concat "" (map declarationText ds))
  = map (fun d => Some (name d)) ds.
Proof.
  revert prev. induction ds as [| d ds IH]; intros prev Hds Hprev.
  - reflexivity.
  - cbn [forallb] in Hds. apply andb_true_iff in Hds. destruct Hds as [Hd Hds].
    unfold isDeclaration, isTrailer in Hd.
    repeat match goal with
           | H : _ && _ = true |- _ => apply andb_true_iff in H; destruct H
           | H : nonEmpty _ = true |- _ => apply nonEmpty_true in H
           | H : negb _ = true |- _ => apply negb_true_iff in H
           end.
    assert (Hkw : In (keyword d) keywords).
    { match goal with
      | H : existsb _ keywords = true |- _ =>
          apply existsb_exists in H; destruct H as [k [Hin Hk]]
      end.
      apply String.eqb_eq in Hk. now subst k. }
    cbn [map]. rewrite concat_cons. unfold declarationText at 1.
    set (tail := String.concat "" (map declarationText ds)).
    set (m := keyword d ++ spacing d ++ name d).
    replace ((keyword d ++ spacing d ++ name d ++ trailer d) ++ tail)
      with (m ++ (trailer d ++ tail))
      by (unfold m; now rewrite !append_assoc).
    assert (Hm : m <> EmptyString).
    { unfold m. simpl in Hkw.
      destruct Hkw as [<- | [<- | [<- | [<- | []]]]]; discriminate. }
    rewrite (execAll_match namespaceRegex m (trailer d ++ tail) prev (Some (name d)) Hm).
    + f_equal. rewrite execAll_quiet by (try assumption; now right).
      apply IH; [exact Hds |].
      now rewrite (lastChar_indep (trailer d) _ None).
    + unfold m. rewrite !append_assoc.
      apply matchAt_declaration; try assumption.
      now apply startsOutside_append.
Qed.

(** A text made of declarations (keyword, white space, identifier, then any
    text without keywords up to the next declaration) yields the list of
    their identifiers, in the order of the text and with repetitions. *)
Lemma extractNamespaces_of_declarations (ds : list Declaration) :
  forallb isDeclaration ds = true ->
  extractNamespaces (String.concat "" (map declarationText ds)) = map name ds.
Proof.
  intros H. unfold extractNamespaces.
  rewrite (execAll_declarations ds None H eq_refl).
  rewrite map_map. reflexivity.
Qed.

(** A model text with declaration bodies; a repeated identifier is kept. *)
Lemma extractNamespaces_model_text :
  extractNamespaces
    ("namespace org.example" ++ LF
       ++ "abstract asset Vehicle identified by vin {" ++ LF
       ++ "  o String vin" ++ LF
       ++ "}" ++ LF
       ++ "enum Color {" ++ LF ++ "  o RED" ++ LF ++ "}" ++ LF
       ++ "participant Vehicle {}" ++ LF)
  = ["Vehicle"; "Color"; "Vehicle"].
Proof. reflexivity. Qed.

(** ** Removal of import lines *)

(** The pattern matches a whole import line. *)
Lemma matchAt_import_line (body rest : string) (prev : option ascii) :
  allChars isDotChar body = true ->
  matchAt importRegex prev ("import " ++ body ++ LF ++ rest) = Some (rest, None).
Proof.
  intros Hbody. unfold matchAt, importRegex. cbn [matchRe].
  rewrite chars_prefix.
  apply many_run; [exact Hbody | reflexivity |].
  now rewrite chars_prefix.
Qed.

(** No match starts inside a line in which "import " does not occur. *)
Lemma matchAt_import_none (s rest : string) (prev : option ascii) :
  containsb "import " s = false ->
  matchAt importRegex prev (s ++ LF ++ rest) = None.
Proof.
  intros Hs. unfold matchAt, importRegex. cbn [matchRe].
  rewrite chars_none; [reflexivity |].
  destruct (startsWith "import " (s ++ LF ++ rest)) eqn:E; [| reflexivity].
  exfalso.
  destruct (startsWith_append_cases _ _ _ E) as [Hin | [lit2 [E2 [Hne Hp]]]].
  - rewrite (containsb_start _ _ Hs) in Hin. discriminate Hin.
  - assert (Hdot : allChars isDotChar (s ++ lit2) = true) by now rewrite <- E2.
    pose proof (allChars_first isDotChar s lit2 Hdot Hne) as Hfirst.
    destruct lit2 as [| c lit2]; [contradiction |].
    cbn [startsWith append LF] in Hp.
    destruct (Ascii.eqb_spec c (ascii_of_nat 10)) as [-> |]; [| discriminate Hp].
    discriminate Hfirst.
Qed.

Lemma replaceAll_skip (r : regex) (replacement m rest : string) (prev : option ascii) :
  replaceAll r replacement prev (String.length m) (m ++ rest)
  = replaceAll r replacement (lastChar m prev) 0 rest.
Proof.
  revert prev. induction m as [| c m IH]; intros prev.
  - simpl. destruct rest; reflexivity.
  - simpl. apply IH.
Qed.

Lemma replaceAll_match (r : regex) (replacement m rest : string)
  (prev : option ascii) (cap : option string) :
  m <> EmptyString ->
  matchAt r prev (m ++ rest) = Some (rest, cap) ->
  replaceAll r replacement prev 0 (m ++ rest)
  = replacement ++ replaceAll r replacement (lastChar m prev) 0 rest.
Proof.
  intros Hm H. destruct m as [| c m]; [contradiction |].
  change (String c m ++ rest) with (String c (m ++ rest)) in *.
  cbn [replaceAll]. rewrite H.
  cbn [String.length]. rewrite length_append.
  replace (S (String.length m + String.length rest) - String.length rest)%nat
    with (S (String.length m)) by lia.
  f_equal. exact (replaceAll_skip r replacement m rest (Some c)).
Qed.

(** A line in which "import " does not occur is copied, with its line
    feed. *)
Lemma removeImports_keeps (l rest : string) (prev : option ascii) :
  containsb "import " l = false ->
  replaceAll importRegex "" prev 0 (l ++ LF ++ rest)
  = l ++ LF ++ replaceAll importRegex "" (Some (ascii_of_nat 10)) 0 rest.
Proof.
  revert prev. induction l as [| c l IH]; intros prev H.
  - change (EmptyString ++ LF ++ rest) with (String (ascii_of_nat 10) rest).
    cbn [replaceAll].
    change (String (ascii_of_nat 10) rest) with (EmptyString ++ LF ++ rest).
    now rewrite (matchAt_import_none EmptyString rest prev H).
  - change (String c l ++ LF ++ rest) with (String c (l ++ LF ++ rest)).
    cbn [replaceAll].
    change (String c (l ++ LF ++ rest)) with (String c l ++ LF ++ rest).
    rewrite (matchAt_import_none (String c l) rest prev H).
    cbn [append]. f_equal. apply IH. exact (containsb_suffix _ c l H).
Qed.

(** A line that starts with "import " and holds no carriage return is
    dropped, with its line feed. *)
Lemma removeImports_drops (body rest : string) (prev : option ascii) :
  allChars isDotChar body = true ->
  replaceAll importRegex "" prev 0 (("import " ++ body) ++ LF ++ rest)
  = replaceAll importRegex "" (Some (ascii_of_nat 10)) 0 rest.
Proof.
  intros Hbody.
  replace (("import " ++ body) ++ LF ++ rest) with (("import " ++ body ++ LF) ++ rest)
    by now rewrite !append_assoc.
  rewrite (replaceAll_match importRegex "" ("import " ++ body ++ LF) rest prev None).
  - now rewrite !lastChar_append.
  - discriminate.
  - rewrite !append_assoc. now apply matchAt_import_line.
Qed.

(** ** Sorting and slicing *)

Section SortByScore.

Context {T : Type}.
Variable compare : T -> T -> number.

Lemma insertSorted_perm (x : T) (l : list T) :
  Permutation (x :: l) (insertSorted compare x l).
Proof.
  induction l as [| y l IH]; simpl.
  - apply Permutation_refl.
  - destruct (PrimFloat.ltb PrimFloat.zero (compare x y)).
    + apply perm_trans with (y :: x :: l); [apply perm_swap |].
      now apply perm_skip.
    + apply Permutation_refl.
Qed.

Lemma arraySort_perm (l : list T) : Permutation l (arraySort compare l).
Proof.
  induction l as [| x l IH]; simpl.
  - apply Permutation_refl.
  - apply perm_trans with (x :: arraySort compare l).
    + now apply perm_skip.
    + apply insertSorted_perm.
Qed.

End SortByScore.

Lemma arraySlice_firstn {A : Type} (a : list A) (n : nat) :
  arraySlice a 0 (Z.of_nat n) = firstn n a.
Proof.
  unfold arraySlice.
  set (len := Z.of_nat (List.length a)).
  assert (H0 : relativeIndex len 0 = 0%Z) by (apply relativeIndex_inside; lia).
  assert (Hn : relativeIndex len (Z.of_nat n) = Z.min (Z.of_nat n) len).
  { unfold relativeIndex. destruct (Z.ltb_spec (Z.of_nat n) 0); [lia | reflexivity]. }
  rewrite H0, Hn. change (skipn (Z.to_nat 0) a) with a.
  destruct (Nat.le_gt_cases n (List.length a)) as [Hle | Hgt].
  - f_equal. lia.
  - rewrite !firstn_all2; [reflexivity | lia | lia].
Qed.

Lemma sort_slice_top {T : Type} (compare : T -> T -> number) (topN : nat)
  (scored : list T) :
  TopOf topN scored (arraySlice (arraySort compare scored) 0 (Z.of_nat topN)).
Proof.
  rewrite arraySlice_firstn.
  pose proof (arraySort_perm compare scored) as Hperm.
  set (sorted := arraySort compare scored) in *.
  split.
  - apply firstn_le_length.
  - exists (skipn topN sorted). now rewrite firstn_skipn.
Qed.

(** ** The scoring loops *)

Lemma forOf_ext {A B : Type} (f g : B -> A -> Result B) (l : list A) (state : B) :
  (forall s x, f s x = g s x) -> forOf f l state = forOf g l state.
Proof.
  intros H. revert state. induction l as [| x l IH]; intros state; simpl.
  - reflexivity.
  - rewrite H. destruct (g state x); simpl; [apply IH | reflexivity].
Qed.

Section ScoringLoop.

Context {E T : Type}.
Variable select : E -> option (list number).
Variable score : list number -> Result number.
Variable entryOf : number -> E -> T.

Lemma loop_ok (l : list E) (acc out : list T) :
  forOf (scoreStep select score entryOf) l acc = Ok out ->
  exists scored, out = (acc ++ scored)%list
                 /\ Forall2 (ScoredEntry select score entryOf) (filter (selected select) l) scored.
Proof.
  revert acc. induction l as [| x l IH]; intros acc H; simpl in H.
  - injection H as <-. exists []. split; [now rewrite app_nil_r | constructor].
  - unfold scoreStep at 1 in H. cbn [filter]. unfold selected at 1.
    destruct (select x) as [embeddings |] eqn:Ex.
    + destruct (score embeddings) as [similarity | e] eqn:Es; simpl in H;
        [| discriminate H].
      destruct (IH _ H) as [scored [-> Hscored]].
      exists (entryOf similarity x :: scored). split.
      * now rewrite <- app_assoc.
      * constructor; [| exact Hscored]. now exists embeddings, similarity.
    + simpl in H. now apply IH.
Qed.

Lemma loop_skip (l1 l2 : list E) (x : E) (acc : list T) :
  select x = None ->
  forOf (scoreStep select score entryOf) (l1 ++ x :: l2) acc = forOf (scoreStep select score entryOf) (l1 ++ l2) acc.
Proof.
  intros Hx. revert acc. induction l1 as [| y l1 IH]; intros acc; simpl.
  - unfold scoreStep at 1. now rewrite Hx.
  - destruct ((scoreStep select score entryOf) acc y); simpl; [apply IH | reflexivity].
Qed.

Lemma loop_none (l : list E) (acc : list T) :
  (forall x, In x l -> select x = None) -> forOf (scoreStep select score entryOf) l acc = Ok acc.
Proof.
  intros H. induction l as [| x l IH]; simpl; [reflexivity |].
  unfold scoreStep at 1. rewrite (H x (or_introl eq_refl)). simpl.
  apply IH. intros y Hy. apply H. now right.
Qed.

End ScoringLoop.

Lemma Forall2_in_r {A B : Type} (R : A -> B -> Prop) (l : list A) (l' : list B) (b : B) :
  Forall2 R l l' -> In b l' -> exists a, In a l /\ R a b.
Proof.
  induction 1 as [| x y l l' Hxy _ IH]; intros Hb; [contradiction |].
  destruct Hb as [<- | Hb].
  - exists x. split; [now left | exact Hxy].
  - destruct (IH Hb) as [a [Ha HR]]. exists a. split; [now right | exact HR].
Qed.

Lemma selectEmbeddings_stored (provider : string) (g o : option (list number)) :
  selectEmbeddings provider g o = storedEmbedding provider g o.
Proof.
  unfold selectEmbeddings, storedEmbedding.
  destruct (String.eqb_spec provider "gemini") as [-> | _]; simpl.
  - destruct g; reflexivity.
  - destruct (provider =? "openai"); simpl; [destruct o; reflexivity | reflexivity].
Qed.

Section Loops.

Variable math_dot : list number -> list number -> Result number.
Variable math_norm : list number -> Result number.
Variable promptEmbedding : list number.
Variable provider : string.

Lemma scoreNamespaces_loop (corpus : JsObject ModelEmbeddings) :
  scoreNamespaces math_dot math_norm corpus promptEmbedding provider
  = forOf (scoreStep (selectNamespace provider)
            (cosineSimilarity math_dot math_norm promptEmbedding) namespaceEntry) corpus [].
Proof.
  unfold scoreNamespaces. apply forOf_ext. intros s [file obj]. reflexivity.
Qed.

Lemma scoreTemplates_loop (corpus : TemplateEmbeddings) :
  scoreTemplates math_dot math_norm corpus promptEmbedding provider
  = forOf (scoreStep (selectTemplate provider)
            (cosineSimilarity math_dot math_norm promptEmbedding) templateEntry) corpus [].
Proof.
  unfold scoreTemplates. apply forOf_ext. intros s [name template]. reflexivity.
Qed.

Lemma scoreGrammar_loop (corpus : TemplateEmbeddings) :
  scoreGrammar math_dot math_norm corpus promptEmbedding provider
  = forOf (scoreStep (selectTemplate provider)
            (cosineSimilarity math_dot math_norm promptEmbedding) grammarEntry) corpus [].
Proof.
  unfold scoreGrammar. apply forOf_ext. intros s [name template]. reflexivity.
Qed.

End Loops.

(** ** Ranking *)

Lemma scoreStep_scores {E T : Type} (select : E -> option (list number))
  (score : list number -> Result number) (entryOf : number -> E -> T) (corpus : list E) :
  ScoresOf select score entryOf corpus (forOf (scoreStep select score entryOf) corpus []).
Proof.
  intros entries H. destruct (loop_ok _ _ _ _ _ _ H) as [scored [-> Hs]]. exact Hs.
Qed.

Section Rankings.

Variable math_dot : list number -> list number -> Result number.
Variable math_norm : list number -> Result number.
Variable promptEmbedding : list number.
Variable provider : string.
Variable topN : nat.

Lemma fetchRelevantNamespaces_ranking (modelNamespaces : JsObject ModelEmbeddings) :
  let scored := scoreNamespaces math_dot math_norm modelNamespaces
                  promptEmbedding provider in
  RankingOf renderNamespace topN scored
    (fetchRelevantNamespaces math_dot math_norm modelNamespaces
       promptEmbedding provider topN)
  /\ ScoresOf (selectNamespace provider)
       (cosineSimilarity math_dot math_norm promptEmbedding)
       namespaceEntry modelNamespaces scored.
Proof.
  intros scored. split.
  - unfold fetchRelevantNamespaces. fold scored. unfold RankingOf.
    destruct scored as [entries | e]; [| reflexivity].
    eexists. split; [reflexivity | apply sort_slice_top].
  - unfold scored. rewrite scoreNamespaces_loop. apply scoreStep_scores.
Qed.

Lemma fetchRelevantTemplates_ranking (templateEmbeddings : TemplateEmbeddings) :
  let scored := scoreTemplates math_dot math_norm templateEmbeddings
                  promptEmbedding provider in
  RankingOf renderTemplate topN scored
    (fetchRelevantTemplates math_dot math_norm templateEmbeddings
       promptEmbedding provider topN)
  /\ ScoresOf (selectTemplate provider)
       (cosineSimilarity math_dot math_norm promptEmbedding)
       templateEntry templateEmbeddings scored.
Proof.
  intros scored. split.
  - unfold fetchRelevantTemplates. fold scored. unfold RankingOf.
    destruct scored as [entries | e]; [| reflexivity].
    eexists. split; [reflexivity | apply sort_slice_top].
  - unfold scored. rewrite scoreTemplates_loop. apply scoreStep_scores.
Qed.

Lemma fetchRelevantGrammar_ranking (templateEmbeddings : TemplateEmbeddings) :
  let scored := scoreGrammar math_dot math_norm templateEmbeddings
                  promptEmbedding provider in
  RankingOf renderGrammar topN scored
    (fetchRelevantGrammar math_dot math_norm templateEmbeddings
       promptEmbedding provider topN)
  /\ ScoresOf (selectTemplate provider)
       (cosineSimilarity math_dot math_norm promptEmbedding)
       grammarEntry templateEmbeddings scored.
Proof.
  intros scored. split.
  - unfold fetchRelevantGrammar. fold scored. unfold RankingOf.
    destruct scored as [entries | e]; [| reflexivity].
    eexists. split; [reflexivity | apply sort_slice_top].
  - unfold scored. rewrite scoreGrammar_loop. apply scoreStep_scores.
Qed.

(** When mathjs returns a number for every pair of vectors, so does every
    scoring loop. *)
Lemma loop_returns {E T : Type} (select : E -> option (list number))
  (entryOf : number -> E -> T) (l : list E) (acc : list T) :
  (forall v w, exists d, math_dot v w = Ok d) ->
  (forall v, exists n, math_norm v = Ok n) ->
  exists out,
    forOf (scoreStep select (cosineSimilarity math_dot math_norm promptEmbedding)
             entryOf) l acc = Ok out.
Proof.
  intros Hdot Hnorm. revert acc. induction l as [| x l IH]; intros acc; simpl.
  - now exists acc.
  - unfold scoreStep at 1. destruct (select x) as [embeddings |]; simpl; [| apply IH].
    destruct (Hdot promptEmbedding embeddings) as [d Hd].
    destruct (Hnorm promptEmbedding) as [n1 Hn1].
    destruct (Hnorm embeddings) as [n2 Hn2].
    assert (Hc : cosineSimilarity math_dot math_norm promptEmbedding embeddings
                 = Ok (PrimFloat.div d (PrimFloat.mul n1 n2))).
    { unfold cosineSimilarity. rewrite Hd. simpl. rewrite Hn1. simpl.
      now rewrite Hn2. }
    rewrite Hc. simpl. apply IH.
Qed.

End Rankings.

Lemma in_split_pair {T : Type} (a b : T) (l : list T) :
  In a l -> In b l -> a <> b ->
  exists front x middle y back,
    l = (front ++ x :: middle ++ y :: back)%list
    /\ ((x = a /\ y = b) \/ (x = b /\ y = a)).
Proof.
  induction l as [| c l IH]; intros Ha Hb Hab; [contradiction |].
  destruct Ha as [-> | Ha]; destruct Hb as [-> | Hb].
  - now contradiction Hab.
  - destruct (in_split _ _ Hb) as [middle [back ->]].
    exists [], a, middle, b, back. split; [reflexivity | now left].
  - destruct (in_split _ _ Ha) as [middle [back ->]].
    exists [], b, middle, a, back. split; [reflexivity | now right].
  - destruct (IH Ha Hb Hab) as [front [x [middle [y [back [-> H]]]]]].
    exists (c :: front), x, middle, y, back. split; [reflexivity | exact H].
Qed.

(** C2. A stored vector of norm zero gets the score NaN, which has no place
    in an order by score. With the query [1] and the entries "neg.cto"
    (vector [-1], score -1), "zero.cto" (vector [0], score NaN) and
    "pos.cto" (vector [1], score 1), in this order, the sort leaves the
    scored entries as they stand: for [topN = 1] each ranking returns the
    entry that scores -1 and leaves out the one that scores 1, and for
    [topN = 3] the scores of the returned entries are -1, NaN, 1. Whatever
    order a sort gave these scored entries, the entries returned would not
    be in non-increasing order of score with none below an entry left
    out. *)
Theorem zero_vector_breaks_ranking :
  let scored := [((-1)%float, "neg.cto", "asset Neg {}");
                 (PrimFloat.nan, "zero.cto", "asset Zero {}");
                 (1%float, "pos.cto", "asset Pos {}")] in
  cosineSimilarity componentDot componentNorm [1%float] [0%float] = Ok PrimFloat.nan
  /\ scoreNamespaces componentDot componentNorm zeroVectorModels [1%float] "openai"
     = Ok scored
  /\ fetchRelevantNamespaces componentDot componentNorm zeroVectorModels [1%float]
       "openai" 1
     = Ok ["neg.cto" ++ LF]
  /\ fetchRelevantNamespaces componentDot componentNorm zeroVectorModels [1%float]
       "openai" 3
     = Ok ["neg.cto" ++ LF; "zero.cto" ++ LF; "pos.cto" ++ LF]
  /\ fetchRelevantTemplates componentDot componentNorm zeroVectorTemplates [1%float]
       "openai" 1
     = Ok ["Template: neg" ++ LF ++ "Template grammar: Neg" ++ LF
             ++ "Corresponding model: Neg" ++ LF]
  /\ fetchRelevantGrammar componentDot componentNorm zeroVectorTemplates [1%float]
       "openai" 1
     = Ok ["Template sample: neg sample" ++ LF
             ++ " and corresponding grammar: Neg" ++ LF]
  /\ ~ RankedByScore namespaceSimilarity
        [((-1)%float, "neg.cto", "asset Neg {}")]
        [(PrimFloat.nan, "zero.cto", "asset Zero {}"); (1%float, "pos.cto", "asset Pos {}")]
  /\ (forall top rest,
        top <> [] -> Permutation scored (top ++ rest)%list ->
        ~ RankedByScore namespaceSimilarity top rest).
Proof.
  intros scored.
  split; [reflexivity |]. split; [reflexivity |]. split; [reflexivity |].
  split; [reflexivity |]. split; [reflexivity |]. split; [reflexivity |].
  split.
  - intros [_ H].
    specialize (H ((-1)%float, "neg.cto", "asset Neg {}")
                  (1%float, "pos.cto", "asset Pos {}")
                  (or_introl eq_refl) (or_intror (or_introl eq_refl))).
    discriminate H.
  - intros top rest Htop Hperm [Hsorted Hrest].
    set (z := (PrimFloat.nan, "zero.cto", "asset Zero {}") : NamespaceScore).
    set (n := ((-1)%float, "neg.cto", "asset Neg {}") : NamespaceScore).
    assert (Hz : In z (top ++ rest)%list)
      by (apply (Permutation_in _ Hperm); right; now left).
    assert (Hn : In n (top ++ rest)%list)
      by (apply (Permutation_in _ Hperm); now left).
    assert (Hall : forall t, In t (top ++ rest)%list ->
                             notBelow namespaceSimilarity t z = false
                             /\ notBelow namespaceSimilarity z t = false).
    { intros t Ht. apply (Permutation_in _ (Permutation_sym Hperm)) in Ht.
      destruct Ht as [<- | [<- | [<- | []]]]; split; reflexivity. }
    apply in_app_or in Hz. destruct Hz as [Hz | Hz].
    + apply in_app_or in Hn. destruct Hn as [Hn | Hn].
      * destruct (in_split_pair z n top Hz Hn ltac:(discriminate))
          as [front [x [middle [y [back [E [[-> ->] | [-> ->]]]]]]]];
          specialize (Hsorted _ _ _ _ _ E); discriminate Hsorted.
      * specialize (Hrest z n Hz Hn). discriminate Hrest.
    + destruct top as [| t top]; [now contradiction Htop |].
      specialize (Hrest t z (or_introl eq_refl) Hz).
      destruct (Hall t (or_introl eq_refl)) as [H _].
      rewrite H in Hrest. discriminate Hrest.
Qed.

(** ** Entries without a vector for the provider *)

Section Skipping.

Variable math_dot : list number -> list number -> Result number.
Variable math_norm : list number -> Result number.
Variable promptEmbedding : list number.
Variable provider : string.
Variable topN : nat.

Lemma fetchRelevantNamespaces_skip (c1 c2 : JsObject ModelEmbeddings)
  (entry : string * ModelEmbeddings) :
  selectNamespace provider entry = None ->
  fetchRelevantNamespaces math_dot math_norm (c1 ++ entry :: c2)%list promptEmbedding
    provider topN
  = fetchRelevantNamespaces math_dot math_norm (c1 ++ c2)%list promptEmbedding
      provider topN.
Proof.
  intros H. unfold fetchRelevantNamespaces.
  rewrite !scoreNamespaces_loop. now rewrite loop_skip.
Qed.

Lemma fetchRelevantTemplates_skip (c1 c2 : TemplateEmbeddings)
  (entry : string * TemplateEntry) :
  selectTemplate provider entry = None ->
  fetchRelevantTemplates math_dot math_norm (c1 ++ entry :: c2)%list promptEmbedding
    provider topN
  = fetchRelevantTemplates math_dot math_norm (c1 ++ c2)%list promptEmbedding
      provider topN.
Proof.
  intros H. unfold fetchRelevantTemplates.
  rewrite !scoreTemplates_loop. now rewrite loop_skip.
Qed.

Lemma fetchRelevantGrammar_skip (c1 c2 : TemplateEmbeddings)
  (entry : string * TemplateEntry) :
  selectTemplate provider entry = None ->
  fetchRelevantGrammar math_dot math_norm (c1 ++ entry :: c2)%list promptEmbedding
    provider topN
  = fetchRelevantGrammar math_dot math_norm (c1 ++ c2)%list promptEmbedding
      provider topN.
Proof.
  intros H. unfold fetchRelevantGrammar.
  rewrite !scoreGrammar_loop. now rewrite loop_skip.
Qed.

Lemma fetchRelevantNamespaces_none (corpus : JsObject ModelEmbeddings) :
  (forall entry, In entry corpus -> selectNamespace provider entry = None) ->
  fetchRelevantNamespaces math_dot math_norm corpus promptEmbedding provider topN
  = Ok [].
Proof.
  intros H. unfold fetchRelevantNamespaces.
  rewrite scoreNamespaces_loop, (loop_none _ _ _ _ _ H). simpl.
  now rewrite arraySlice_firstn, firstn_nil.
Qed.

Lemma fetchRelevantTemplates_none (corpus : TemplateEmbeddings) :
  (forall entry, In entry corpus -> selectTemplate provider entry = None) ->
  fetchRelevantTemplates math_dot math_norm corpus promptEmbedding provider topN
  = Ok [].
Proof.
  intros H. unfold fetchRelevantTemplates.
  rewrite scoreTemplates_loop, (loop_none _ _ _ _ _ H). simpl.
  now rewrite arraySlice_firstn, firstn_nil.
Qed.

Lemma fetchRelevantGrammar_none (corpus : TemplateEmbeddings) :
  (forall entry, In entry corpus -> selectTemplate provider entry = None) ->
  fetchRelevantGrammar math_dot math_norm corpus promptEmbedding provider topN
  = Ok [].
Proof.
  intros H. unfold fetchRelevantGrammar.
  rewrite scoreGrammar_loop, (loop_none _ _ _ _ _ H). simpl.
  now rewrite arraySlice_firstn, firstn_nil.
Qed.

End Skipping.

(** C3 (as the code has it). An entry for which no array is stored for the
    requested provider is passed over without being scored: the ranking of a
    corpus that holds such an entry is the ranking of the corpus without
    it. A corpus in which no entry has an array for the provider, the empty
    corpus in particular, is ranked to the empty list, and nothing is
    thrown. Whether a stored array is empty plays no part. *)
Theorem entries_without_vector_are_skipped
  (math_dot : list number -> list number -> Result number) (math_norm : list number -> Result number)
  (promptEmbedding : list number) (provider : string) (topN : nat) :
  (forall c1 c2 file obj,
      modelStored provider obj = None ->
      fetchRelevantNamespaces math_dot math_norm (c1 ++ (file, obj) :: c2)%list
        promptEmbedding provider topN
      = fetchRelevantNamespaces math_dot math_norm (c1 ++ c2)%list
          promptEmbedding provider topN)
  /\ (forall c1 c2 name template,
        templateStored provider template = None ->
        fetchRelevantTemplates math_dot math_norm (c1 ++ (name, template) :: c2)%list
          promptEmbedding provider topN
        = fetchRelevantTemplates math_dot math_norm (c1 ++ c2)%list
            promptEmbedding provider topN
        /\ fetchRelevantGrammar math_dot math_norm (c1 ++ (name, template) :: c2)%list
             promptEmbedding provider topN
           = fetchRelevantGrammar math_dot math_norm (c1 ++ c2)%list
               promptEmbedding provider topN)
  /\ (forall corpus,
        (forall file obj, In (file, obj) corpus -> modelStored provider obj = None) ->
        fetchRelevantNamespaces math_dot math_norm corpus promptEmbedding provider topN
        = Ok [])
  /\ (forall corpus,
        (forall name template, In (name, template) corpus ->
                               templateStored provider template = None) ->
        fetchRelevantTemplates math_dot math_norm corpus promptEmbedding provider topN
        = Ok []
        /\ fetchRelevantGrammar math_dot math_norm corpus promptEmbedding provider topN
           = Ok []).
Proof.
  split; [| split; [| split]].
  - intros c1 c2 file obj H. apply fetchRelevantNamespaces_skip.
    unfold selectNamespace. now rewrite selectEmbeddings_stored.
  - intros c1 c2 name template H.
    assert (Hs : selectTemplate provider (name, template) = None)
      by (unfold selectTemplate; now rewrite selectEmbeddings_stored).
    split; [now apply fetchRelevantTemplates_skip | now apply fetchRelevantGrammar_skip].
  - intros corpus H. apply fetchRelevantNamespaces_none.
    intros [file obj] Hin. unfold selectNamespace.
    rewrite selectEmbeddings_stored. exact (H file obj Hin).
  - intros corpus H.
    assert (Hs : forall entry, In entry corpus -> selectTemplate provider entry = None).
    { intros [name template] Hin. unfold selectTemplate.
      rewrite selectEmbeddings_stored. exact (H name template Hin). }
    split; [now apply fetchRelevantTemplates_none | now apply fetchRelevantGrammar_none].
Qed.

(** C3 as stated fails for an array that is stored and empty: the entry is
    not passed over but handed to [cosineSimilarity]. Whatever mathjs does
    with the empty vector, the ranking is not the empty list: the entry is
    returned when the score is a number, and the error is thrown when it is
    not. *)
Lemma empty_vector_is_scored :
  hasNonEmptyVector "openai" emptyVectorEntry = false
  /\ (~ exists math_dot math_norm,
         fetchRelevantNamespaces math_dot math_norm [("auto.cto", emptyVectorEntry)]
           [1%float] "openai" 4 = Ok [])
  /\ fetchRelevantNamespaces (fun _ _ => Ok 0%float) (fun _ => Ok 1%float)
       [("auto.cto", emptyVectorEntry)] [1%float] "openai" 4
     = Ok ["auto.cto" ++ LF]
  /\ fetchRelevantNamespaces
       (fun _ _ => Throw (Error "Cannot calculate the dot product of empty vectors"))
       (fun _ => Ok 1%float)
       [("auto.cto", emptyVectorEntry)] [1%float] "openai" 4
     = Throw (Error "Cannot calculate the dot product of empty vectors").
Proof.
  split; [reflexivity | split; [| split; reflexivity]].
  intros [math_dot [math_norm H]].
  unfold fetchRelevantNamespaces, scoreNamespaces, cosineSimilarity in H.
  cbn [forOf selectEmbeddings modelGeminiEmbedding modelOpenAiEmbedding emptyVectorEntry
         gemini openai openai_embeddings truthyArray String.eqb Ascii.eqb Bool.eqb
         andb] in H.
  destruct (math_dot [1%float] []) as [d |]; [| discriminate H].
  destruct (math_norm [1%float]) as [n1 |]; [| discriminate H].
  destruct (math_norm []) as [n2 |]; [| discriminate H].
  discriminate H.
Qed.

(** ** Template context of model requests *)

Lemma startsWith_split (pattern s : string) :
  startsWith pattern s = true -> s = pattern ++ dropString (String.length pattern) s.
Proof.
  revert s. induction pattern as [| a pattern IH]; intros s H.
  - reflexivity.
  - destruct s as [| c s]; [discriminate H |].
    cbn [startsWith] in H. apply andb_true_iff in H. destruct H as [Hc H].
    apply Ascii.eqb_eq in Hc. subst c. cbn [String.length dropString append].
    f_equal. now apply IH.
Qed.

Lemma unlines_cons (l : string) (ls : list string) :
  unlines (l :: ls) = l ++ LF ++ unlines ls.
Proof.
  unfold unlines. cbn [map]. now rewrite concat_cons, append_assoc.
Qed.

Lemma replaceAll_import_lines (ls : list string) (prev : option ascii) :
  forallb importOrPlain ls = true ->
  replaceAll importRegex "" prev 0 (unlines ls)
  = unlines (filter (fun l => negb (isImportLine l)) ls).
Proof.
  revert prev. induction ls as [| l ls IH]; intros prev H.
  - reflexivity.
  - cbn [forallb] in H. apply andb_true_iff in H. destruct H as [Hl Hls].
    rewrite unlines_cons. cbn [filter]. unfold importOrPlain in Hl.
    destruct (isImportLine l) eqn:E; cbn [negb].
    + unfold isImportLine in E. rewrite (startsWith_split _ _ E) in Hl |- *.
      rewrite allChars_append in Hl. apply andb_true_iff in Hl.
      destruct Hl as [_ Hbody].
      rewrite (removeImports_drops _ _ prev Hbody). now apply IH.
    + apply negb_true_iff in Hl.
      rewrite (removeImports_keeps l _ prev Hl), unlines_cons.
      now rewrite (IH _ Hls).
Qed.

Lemma renderTemplate_entry (similarity : number) (name : string) (template : TemplateEntry)
  (g : GrammarEntry) :
  grammar template = Some g ->
  renderTemplate (templateEntry similarity (name, template))
  = "Template: " ++ name ++ LF
      ++ "Template grammar: " ++ grammar_content g ++ LF
      ++ "Corresponding model: " ++ removeImports (grammar_content g) ++ LF.
Proof.
  intros H. unfold renderTemplate, templateEntry. cbn [fst snd]. now rewrite H.
Qed.

Lemma selectTemplate_grammar (provider : string) (entry : string * TemplateEntry)
  (embeddings : list number) :
  selectTemplate provider entry = Some embeddings ->
  exists g, grammar (snd entry) = Some g.
Proof.
  unfold selectTemplate. rewrite selectEmbeddings_stored.
  unfold storedEmbedding, grammarGeminiEmbedding, grammarOpenAiEmbedding.
  destruct (grammar (snd entry)) as [g |]; [now exists g |].
  destruct (provider =? "gemini"); [discriminate |].
  destruct (provider =? "openai"); discriminate.
Qed.

Lemma TopOf_in {T : Type} (topN : nat) (scored top : list T) (t : T) :
  TopOf topN scored top -> In t top -> In t scored.
Proof.
  intros [_ [rest Hperm]] Ht.
  apply (Permutation_in t (Permutation_sym Hperm)).
  apply in_or_app. now left.
Qed.

(** Every string [fetchRelevantTemplates] returns shows one template of the
    corpus: its name, its grammar text as stored, and under "Corresponding
    model" that same text after [removeImports]. *)
Lemma fetchRelevantTemplates_lines
  (math_dot : list number -> list number -> Result number) (math_norm : list number -> Result number)
  (corpus : TemplateEmbeddings) (promptEmbedding : list number) (provider : string)
  (topN : nat) (out : list string) (line : string) :
  fetchRelevantTemplates math_dot math_norm corpus promptEmbedding provider topN = Ok out ->
  In line out ->
  exists name template g,
    In (name, template) corpus /\ grammar template = Some g
    /\ line = "Template: " ++ name ++ LF
                ++ "Template grammar: " ++ grammar_content g ++ LF
                ++ "Corresponding model: " ++ removeImports (grammar_content g) ++ LF.
Proof.
  intros Hout Hline.
  destruct (fetchRelevantTemplates_ranking math_dot math_norm promptEmbedding provider
              topN corpus) as [Hrank Hscores].
  unfold RankingOf in Hrank.
  destruct (scoreTemplates math_dot math_norm corpus promptEmbedding provider)
    as [entries | e] eqn:Es.
  - destruct Hrank as [top [Hres Hranked]].
    rewrite Hout in Hres. injection Hres as ->.
    apply in_map_iff in Hline. destruct Hline as [t [<- Ht]].
    pose proof (TopOf_in _ _ _ _ Hranked Ht) as Hin.
    destruct (Forall2_in_r _ _ _ _ (Hscores entries eq_refl) Hin)
      as [[name template] [Hc [embeddings [similarity [Hsel [_ ->]]]]]].
    apply filter_In in Hc. destruct Hc as [Hc _].
    destruct (selectTemplate_grammar _ _ _ Hsel) as [g Hg]. cbn [snd] in Hg.
    exists name, template, g. repeat split; [exact Hc | exact Hg |].
    now apply renderTemplate_entry.
  - rewrite Hout in Hrank. discriminate Hrank.
Qed.

(** In the context assembled for a model request, each template is shown
    with its name, its grammar text exactly as stored, and under
    "Corresponding model" the same text after the removal of import lines:
    for a text made of lines closed by a line feed, where a line either is
    an import statement (it starts with "import " and holds no carriage
    return) or does not contain "import ", what is shown is the text
    without its import lines. *)
Lemma import_lines_are_removed (ls : list string) :
  forallb importOrPlain ls = true ->
  removeImports (unlines ls) = unlines (filter (fun l => negb (isImportLine l)) ls)
  /\ forall math_dot math_norm corpus promptEmbedding provider topN out line,
       fetchRelevantTemplates math_dot math_norm corpus promptEmbedding provider topN
       = Ok out ->
       In line out ->
       exists name template g,
         In (name, template) corpus /\ grammar template = Some g
         /\ line = "Template: " ++ name ++ LF
                     ++ "Template grammar: " ++ grammar_content g ++ LF
                     ++ "Corresponding model: " ++ removeImports (grammar_content g) ++ LF.
Proof.
  intros H. split.
  - now apply replaceAll_import_lines.
  - intros math_dot math_norm corpus promptEmbedding provider topN out line.
    apply fetchRelevantTemplates_lines.
Qed.

Lemma import_lines_are_removed_witness :
  forallb importOrPlain ["namespace org.example"; "import org.example.base.Party";
                         "asset Vehicle {}"] = true
  /\ removeImports
       ("namespace org.example" ++ LF ++ "import org.example.base.Party" ++ LF
          ++ "asset Vehicle {}" ++ LF)
     = "namespace org.example" ++ LF ++ "asset Vehicle {}" ++ LF.
Proof.
  split; [reflexivity |].
  exact (proj1 (import_lines_are_removed
                  ["namespace org.example"; "import org.example.base.Party";
                   "asset Vehicle {}"] eq_refl)).
Defined.

(** C9. An import statement is removed only together with the line feed
    that ends its line. One that ends the text without a line feed stays,
    and is shown under "Corresponding model"; so does every import
    statement of a text whose lines end in carriage return and line feed. *)
Theorem unterminated_import_is_kept :
  removeImports "import org.example.base.Party" = "import org.example.base.Party"
  /\ fetchRelevantTemplates (fun _ _ => Ok 1%float) (fun _ => Ok 1%float)
       [("party", unterminatedImportTemplate)] [1%float] "openai" 4
     = Ok ["Template: party" ++ LF
             ++ "Template grammar: import org.example.base.Party" ++ LF
             ++ "Corresponding model: import org.example.base.Party" ++ LF]
  /\ removeImports
       ("import org.example.base.Party" ++ CR ++ LF ++ "asset Vehicle {}" ++ CR ++ LF)
     = "import org.example.base.Party" ++ CR ++ LF ++ "asset Vehicle {}" ++ CR ++ LF.
Proof.
  repeat split; reflexivity.
Qed.


(** * Further properties *)

(** ** The split at the cursor, for every cursor *)

Lemma relativeIndex_range (len k : Z) :
  (0 <= len)%Z -> (0 <= relativeIndex len k <= len)%Z.
Proof.
  intros H. unfold relativeIndex. destruct (Z.ltb_spec k 0); lia.
Qed.

Lemma substring_split (n : nat) (s : string) :
  (n <= String.length s)%nat ->
  substring 0 n s ++ substring n (String.length s - n) s = s.
Proof.
  revert n. induction s as [| c s IH]; intros n Hn.
  - destruct n; [reflexivity | simpl in Hn; lia].
  - destruct n as [| n].
    + cbn [substring append String.length Nat.sub]. now rewrite substring_all.
    + cbn [substring append String.length Nat.sub]. f_equal. apply IH.
      simpl in Hn. lia.
Qed.

Lemma beforeCursor_substring (content : string) (cursorPosition : option Z) :
  let n := Z.to_nat (relativeIndex (Z.of_nat (String.length content))
                       (effectiveCursor content cursorPosition)) in
  beforeCursor content cursorPosition = substring 0 n content
  /\ afterCursor content cursorPosition = substring n (String.length content - n) content
  /\ (n <= String.length content)%nat.
Proof.
  intros n. unfold beforeCursor, afterCursor, stringSlice.
  pose proof (relativeIndex_range (Z.of_nat (String.length content))
                (effectiveCursor content cursorPosition) ltac:(lia)) as He.
  rewrite (relativeIndex_inside (Z.of_nat (String.length content)) 0) by lia.
  fold n. subst n.
  set (r := relativeIndex (Z.of_nat (String.length content))
              (effectiveCursor content cursorPosition)) in *.
  split; [| split].
  - f_equal. lia.
  - f_equal. lia.
  - lia.
Qed.

(** X1. Whatever the cursor position is (unset, zero, negative, past the
    end), the text before the cursor followed by the text after it is the
    content: the split loses and repeats nothing. *)
Theorem split_parts_make_content (content : string) (cursorPosition : option Z) :
  beforeCursor content cursorPosition ++ afterCursor content cursorPosition = content.
Proof.
  destruct (beforeCursor_substring content cursorPosition) as [Hb [Ha Hn]].
  rewrite Hb, Ha. now apply substring_split.
Qed.

(** X2. Cursor positions outside the content. A negative cursor counts from
    the end: with the cursor at minus the length of a non-empty suffix [a]
    of the content [b ++ a], the text before is [b] and the text after is
    [a]. A cursor past the end is the end: the text before is the whole
    content and the text after is empty. *)
Theorem cursor_outside_content (b a : string) (k : nat) :
  a <> EmptyString ->
  let content := b ++ a in
  (beforeCursor content (Some (- Z.of_nat (String.length a))%Z) = b
   /\ afterCursor content (Some (- Z.of_nat (String.length a))%Z) = a)
  /\ (beforeCursor content (Some (Z.of_nat (String.length content + S k))) = content
      /\ afterCursor content (Some (Z.of_nat (String.length content + S k)))
         = EmptyString).
Proof.
  intros Ha content.
  assert (Hlen : (0 < String.length a)%nat).
  { destruct a; [contradiction | simpl; lia]. }
  split.
  - destruct (beforeCursor_substring content (Some (- Z.of_nat (String.length a))%Z))
      as [Hb [Haf _]].
    rewrite Hb, Haf. clear Hb Haf.
    rewrite effectiveCursor_positive by lia.
    unfold content. rewrite length_append. unfold relativeIndex.
    destruct (Z.ltb_spec (- Z.of_nat (String.length a)) 0) as [_ | H]; [| lia].
    replace (Z.to_nat _) with (String.length b) by lia.
    replace (String.length b + String.length a - String.length b)%nat
      with (String.length a) by lia.
    split; [apply substring_prefix | apply substring_suffix].
  - destruct (beforeCursor_substring content
                (Some (Z.of_nat (String.length content + S k)))) as [Hb [Haf _]].
    rewrite Hb, Haf. clear Hb Haf.
    rewrite effectiveCursor_positive by lia.
    unfold relativeIndex.
    destruct (Z.ltb_spec (Z.of_nat (String.length content + S k)) 0) as [H | _]; [lia |].
    replace (Z.to_nat _) with (String.length content) by lia.
    rewrite Nat.sub_diag.
    split; [apply substring_all | apply substring_none].
Qed.

Lemma cursor_outside_content_witness :
  "ef" <> EmptyString
  /\ (beforeCursor "abcdef" (Some (-2)%Z) = "abcd" /\ afterCursor "abcdef" (Some (-2)%Z) = "ef")
  /\ (beforeCursor "abcdef" (Some 7%Z) = "abcdef" /\ afterCursor "abcdef" (Some 7%Z) = EmptyString).
Proof.
  split; [discriminate |].
  apply (cursor_outside_content "abcd" "ef" 0). discriminate.
Defined.

(** ** What the planner calls *)

Lemma NoDup_five {A : Type} (a b c d e : A) :
  NoDup [a; b; c; d; e] ->
  a <> b /\ a <> c /\ a <> d /\ a <> e /\ b <> c /\ b <> d /\ b <> e
  /\ c <> d /\ c <> e /\ d <> e.
Proof.
  intros H.
  repeat match goal with
         | H : NoDup (_ :: _) |- _ =>
             apply NoDup_cons_iff in H; destruct H as [? H]
         end.
  simpl in *. repeat split; intros E; subst; tauto.
Qed.

(** X3. With the five members of [RequestType] distinct, a request of type
    Inline, Fix, General or Grammar makes exactly one call, to its own
    template renderer (for Inline: the Concerto template when the language
    is Concerto, the generic one otherwise), never calls the embedding
    gateway, and returns or throws what that renderer returns or throws. *)
Theorem planner_dispatch (enums : Enums) (ext : Collaborators)
  (params : AgentPlannerParams) (log : list Call) :
  NoDup [RequestType_Inline enums; RequestType_Fix enums; RequestType_General enums;
         RequestType_Model enums; RequestType_Grammar enums] ->
  let docs := documents params in
  let pc := promptConfig params in
  let content := main_content (main docs) in
  let before := beforeCursor content (main_cursorPosition (main docs)) in
  let after := afterCursor content (main_cursorPosition (main docs)) in
  (requestType pc = RequestType_Inline enums ->
   agentPlanner enums ext params log
   = if language pc =? Language_Concerto enums
     then ((log ++ [call_getConcertoInlineTemplate before after])%list,
           getConcertoInlineTemplate ext before after pc)
     else ((log ++ [call_getInlineTemplate before after])%list,
           getInlineTemplate ext before after pc))
  /\ (requestType pc = RequestType_Fix enums ->
      agentPlanner enums ext params log
      = ((log ++ [call_getFixTemplate content])%list, getFixTemplate ext content pc))
  /\ (requestType pc = RequestType_General enums ->
      agentPlanner enums ext params log
      = ((log ++ [call_getGeneralTemplate])%list, getGeneralTemplate ext pc))
  /\ (requestType pc = RequestType_Grammar enums ->
      agentPlanner enums ext params log
      = ((log ++ [call_getGrammarTemplate])%list, getGrammarTemplate ext docs)).
Proof.
  intros Hnd docs pc content before after.
  apply NoDup_five in Hnd.
  destruct Hnd as [Hif [Hig [Him [Hir [Hfg [Hfm [Hfr [Hgm [Hgr Hmr]]]]]]]]].
  assert (Hneq : forall a b : string, a <> b -> (a =? b) = false).
  { intros a b H. now apply String.eqb_neq. }
  unfold agentPlanner. fold docs pc content.
  repeat split; intros E; rewrite E.
  - rewrite String.eqb_refl. unfold inlineRequestPrompt. fold docs content before after.
    destruct (language pc =? Language_Concerto enums); reflexivity.
  - rewrite (Hneq _ _ (not_eq_sym Hif)), String.eqb_refl. reflexivity.
  - rewrite (Hneq _ _ (not_eq_sym Hig)), (Hneq _ _ (not_eq_sym Hfg)), String.eqb_refl.
    reflexivity.
  - rewrite (Hneq _ _ (not_eq_sym Hir)), (Hneq _ _ (not_eq_sym Hfr)),
      (Hneq _ _ (not_eq_sym Hgr)), (Hneq _ _ (not_eq_sym Hmr)), String.eqb_refl.
    reflexivity.
Qed.

Lemma planner_dispatch_witness :
  NoDup ["inline"; "fix"; "general"; "model"; "grammar"]
  /\ agentPlanner exampleEnums exampleCollaborators (exampleParams "fix" []) []
     = ([call_getFixTemplate "abcdef"],
        Ok [{| msg_content := "rendered"; msg_role := "system" |}]).
Proof.
  assert (H : NoDup ["inline"; "fix"; "general"; "model"; "grammar"]).
  { repeat constructor; simpl; intros H;
      repeat (destruct H as [H | H]; [discriminate H |]); exact H. }
  split; [exact H |].
  exact (proj1 (proj2 (planner_dispatch exampleEnums exampleCollaborators
                         (exampleParams "fix" []) [] H)) eq_refl).
Defined.

(** X4. For every request the planner keeps the log it was given and adds
    at most two calls: at most one to the embedding gateway and at most one
    to a template renderer, the renderer's being the last call made. *)
Theorem planner_calls_are_bounded (enums : Enums) (ext : Collaborators)
  (params : AgentPlannerParams) (log : list Call) :
  exists calls,
    fst (agentPlanner enums ext params log) = (log ++ calls)%list
    /\ (List.length calls <= 2)%nat
    /\ (List.length (filter isEmbeddingCall calls) <= 1)%nat
    /\ (List.length (filter isRenderer calls) <= 1)%nat
    /\ forall before c after,
         calls = (before ++ c :: after)%list -> isRenderer c = true -> after = [].
Proof.
  assert (Hone : forall c : Call,
             (List.length [c] <= 2)%nat
             /\ (List.length (filter isEmbeddingCall [c]) <= 1)%nat
             /\ (List.length (filter isRenderer [c]) <= 1)%nat
             /\ forall before c' after,
                  [c] = (before ++ c' :: after)%list -> isRenderer c' = true -> after = []).
  { intros c. repeat split; simpl; try lia.
    - destruct (isEmbeddingCall c); simpl; lia.
    - destruct (isRenderer c); simpl; lia.
    - intros before c' after E _.
      destruct before as [| x before]; simpl in E.
      + now injection E.
      + injection E as _ E. destruct before; discriminate E. }
  unfold agentPlanner.
  destruct (_ =? RequestType_Inline enums).
  { unfold inlineRequestPrompt.
    destruct (language _ =? _); eexists; (split; [reflexivity | apply Hone]). }
  destruct (_ =? RequestType_Fix enums).
  { eexists. split; [reflexivity | apply Hone]. }
  destruct (_ =? RequestType_General enums).
  { eexists. split; [reflexivity | apply Hone]. }
  destruct (_ =? RequestType_Model enums).
  { rewrite modelRequestPrompt_run.
    destruct (generateEmbeddingsByProvider ext _ _ _) as [promptEmbedding | e].
    - eexists. split; [reflexivity |]. repeat split; simpl; try lia.
      intros before c after E Hc.
      destruct before as [| x before]; simpl in E.
      + injection E as <- _. discriminate Hc.
      + injection E as _ E. destruct before as [| y before]; simpl in E.
        * now injection E.
        * injection E as _ E. destruct before; discriminate E.
    - eexists. split; [reflexivity | apply Hone]. }
  destruct (_ =? RequestType_Grammar enums).
  { eexists. split; [reflexivity | apply Hone]. }
  exists []. simpl. rewrite app_nil_r. repeat split; try lia.
  intros before c after E. destruct before; discriminate E.
Qed.

(** ** The context extractor, case by case *)

(** X5. For a model request whose "grammar.tem.md" and "package.json" both
    have non-empty content, the query is the grammar text, one space, and
    the package text, in that order. Of several context documents with the
    same name the first is read. *)
Theorem model_query_joins_documents (docs : Documents) (g p : string) :
  findContent (contextDocuments docs) "grammar.tem.md" = Some g ->
  findContent (contextDocuments docs) "package.json" = Some p ->
  g <> EmptyString -> p <> EmptyString ->
  generateEmbeddingPrompt docs (Some "model") = Ok (g ++ " " ++ p)
  /\ forall l1 l2 doc,
       (forall d, In d l1 -> doc_fileName d <> doc_fileName doc) ->
       findContent (Some (l1 ++ doc :: l2)%list) (doc_fileName doc) = doc_content doc.
Proof.
  intros Hg Hp Hg' Hp'. split.
  - unfold generateEmbeddingPrompt.
    cbn [strictEq String.eqb Ascii.eqb Bool.eqb].
    rewrite Hg, Hp; simpl.
    destruct (String.eqb_spec g ""); [contradiction |].
    destruct (String.eqb_spec p ""); [contradiction | reflexivity].
  - intros l1 l2 doc H. now apply findContent_first.
Qed.

Lemma model_query_joins_documents_witness :
  generateEmbeddingPrompt exampleModelDocuments (Some "model") = Ok "Hello {}".
Proof.
  refine (proj1 (model_query_joins_documents exampleModelDocuments "Hello" "{}"
                   eq_refl eq_refl _ _)); discriminate.
Defined.

(** X6. The only error of [generateEmbeddingPrompt] is "Required documents
    are missing", and it is thrown exactly for a model request one of whose
    two documents is absent, has no content, or has the empty string as
    content. Every other call returns a query. *)
Theorem embedding_prompt_errors (docs : Documents) (requestType : option string)
  (e : JsError) :
  generateEmbeddingPrompt docs requestType = Throw e
  <-> requestType = Some "model"
      /\ e = MissingDocument
      /\ (falsyString (findContent (contextDocuments docs) "grammar.tem.md") = true
          \/ falsyString (findContent (contextDocuments docs) "package.json") = true).
Proof.
  split.
  - unfold generateEmbeddingPrompt.
    destruct requestType as [rt |]; cbn [strictEq]; [| discriminate].
    destruct (String.eqb_spec rt "grammar") as [-> | _]; [discriminate |].
    destruct (String.eqb_spec rt "model") as [-> | _]; [| discriminate].
    destruct (falsyString (findContent (contextDocuments docs) "grammar.tem.md")) eqn:Eg;
      cbn [orb].
    + intros H. injection H as <-. repeat split. now left.
    + destruct (falsyString (findContent (contextDocuments docs) "package.json")) eqn:Ep.
      * intros H. injection H as <-. repeat split. now right.
      * discriminate.
  - intros [-> [-> H]]. now apply generateEmbeddingPrompt_model_guard.
Qed.

(** ** More on the rankings *)

Lemma ranked_length {T : Type} (key : T -> number) (topN : nat) (scored : list T) :
  List.length (arraySlice (arraySort (descending key) scored) 0 (Z.of_nat topN))
  = Nat.min topN (List.length scored).
Proof.
  rewrite arraySlice_firstn, length_firstn.
  now rewrite <- (Permutation_length (arraySort_perm (descending key) scored)).
Qed.

Lemma loop_length {E T : Type} (select : E -> option (list number))
  (score : list number -> Result number) (entryOf : number -> E -> T) (corpus : list E)
  (scored : list T) :
  forOf (scoreStep select score entryOf) corpus [] = Ok scored ->
  List.length scored = List.length (filter (selected select) corpus).
Proof.
  intros H. destruct (loop_ok _ _ _ _ _ _ H) as [sc [-> Hs]].
  simpl. symmetry. exact (Forall2_length Hs).
Qed.

(** X8. A ranking that returns, returns exactly [min topN n] strings, [n]
    being the number of corpus entries that hold a vector for the
    provider: nothing for [topN = 0], every scored entry when [topN] is at
    least [n]. *)
Theorem ranking_size
  (math_dot : list number -> list number -> Result number) (math_norm : list number -> Result number)
  (promptEmbedding : list number) (provider : string) (topN : nat) :
  (forall corpus,
      match fetchRelevantNamespaces math_dot math_norm corpus promptEmbedding
              provider topN with
      | Ok out =>
          List.length out
          = Nat.min topN (List.length (filter (selected (selectNamespace provider)) corpus))
      | Throw _ => True
      end)
  /\ (forall corpus,
        match fetchRelevantTemplates math_dot math_norm corpus promptEmbedding
                provider topN with
        | Ok out =>
            List.length out
            = Nat.min topN (List.length (filter (selected (selectTemplate provider)) corpus))
        | Throw _ => True
        end)
  /\ (forall corpus,
        match fetchRelevantGrammar math_dot math_norm corpus promptEmbedding
                provider topN with
        | Ok out =>
            List.length out
            = Nat.min topN (List.length (filter (selected (selectTemplate provider)) corpus))
        | Throw _ => True
        end).
Proof.
  split; [| split]; intros corpus.
  - unfold fetchRelevantNamespaces. rewrite scoreNamespaces_loop.
    destruct (forOf _ corpus []) as [scored | e] eqn:E; cbn [bindR]; [| exact I].
    rewrite length_map, <- (loop_length _ _ _ _ _ E).
    exact (ranked_length namespaceSimilarity topN scored).
  - unfold fetchRelevantTemplates. rewrite scoreTemplates_loop.
    destruct (forOf _ corpus []) as [scored | e] eqn:E; cbn [bindR]; [| exact I].
    rewrite length_map, <- (loop_length _ _ _ _ _ E).
    exact (ranked_length templateSimilarity topN scored).
  - unfold fetchRelevantGrammar. rewrite scoreGrammar_loop.
    destruct (forOf _ corpus []) as [scored | e] eqn:E; cbn [bindR]; [| exact I].
    rewrite length_map, <- (loop_length _ _ _ _ _ E).
    exact (ranked_length templateSimilarity topN scored).
Qed.

(** X9. A provider that is neither "gemini" nor "openai" (the comparison is
    exact, so "OpenAI" is such a provider) makes every ranking return the
    empty list, whatever the corpus holds; mathjs is not consulted, so
    nothing can be thrown. *)
Theorem unknown_provider_ranks_nothing
  (math_dot : list number -> list number -> Result number) (math_norm : list number -> Result number)
  (promptEmbedding : list number) (provider : string) (topN : nat) :
  provider <> "gemini" -> provider <> "openai" ->
  (forall corpus,
      fetchRelevantNamespaces math_dot math_norm corpus promptEmbedding provider topN
      = Ok [])
  /\ (forall corpus,
        fetchRelevantTemplates math_dot math_norm corpus promptEmbedding provider topN
        = Ok []
        /\ fetchRelevantGrammar math_dot math_norm corpus promptEmbedding provider topN
           = Ok []).
Proof.
  intros Hg Ho.
  assert (Hsel : forall g o, selectEmbeddings provider g o = None).
  { intros g o. rewrite selectEmbeddings_stored. unfold storedEmbedding.
    destruct (String.eqb_spec provider "gemini"); [contradiction |].
    destruct (String.eqb_spec provider "openai"); [contradiction | reflexivity]. }
  split; [| split].
  - intros corpus. apply fetchRelevantNamespaces_none. intros entry _. apply Hsel.
  - apply fetchRelevantTemplates_none. intros entry _. apply Hsel.
  - apply fetchRelevantGrammar_none. intros entry _. apply Hsel.
Qed.

Lemma unknown_provider_ranks_nothing_witness :
  fetchRelevantNamespaces
    (fun _ _ => Throw (Error "Vectors must have equal length"))
    (fun _ => Ok 1%float) [("auto.cto", bothVectorsEntry)] [1%float; 2%float] "OpenAI" 4
  = Ok [].
Proof.
  apply (unknown_provider_ranks_nothing
           (fun _ _ => Throw (Error "Vectors must have equal length"))
           (fun _ => Ok 1%float) [1%float; 2%float] "OpenAI" 4); discriminate.
Defined.

(** X10. Every string [fetchRelevantNamespaces] returns is a key of the
    corpus followed by a line feed, for an entry that holds a vector for
    the provider. The entry's [fileName] and [fileContent] do not show in
    the output. *)
Theorem namespace_ranking_lists_keys
  (math_dot : list number -> list number -> Result number) (math_norm : list number -> Result number)
  (corpus : JsObject ModelEmbeddings) (promptEmbedding : list number) (provider : string)
  (topN : nat) (out : list string) (line : string) :
  fetchRelevantNamespaces math_dot math_norm corpus promptEmbedding provider topN = Ok out ->
  In line out ->
  exists file obj,
    In (file, obj) corpus /\ modelStored provider obj <> None /\ line = file ++ LF.
Proof.
  intros Hout Hline.
  destruct (fetchRelevantNamespaces_ranking math_dot math_norm promptEmbedding provider
              topN corpus) as [Hrank Hscores].
  unfold RankingOf in Hrank.
  destruct (scoreNamespaces math_dot math_norm corpus promptEmbedding provider)
    as [entries | e] eqn:Es.
  - destruct Hrank as [top [Hres Hranked]].
    rewrite Hout in Hres. injection Hres as ->.
    apply in_map_iff in Hline. destruct Hline as [t [<- Ht]].
    pose proof (TopOf_in _ _ _ _ Hranked Ht) as Hin.
    destruct (Forall2_in_r _ _ _ _ (Hscores entries eq_refl) Hin)
      as [[file obj] [Hc [embeddings [similarity [Hsel [_ ->]]]]]].
    apply filter_In in Hc. destruct Hc as [Hc _].
    exists file, obj. split; [exact Hc | split; [| reflexivity]].
    unfold selectNamespace in Hsel. rewrite selectEmbeddings_stored in Hsel.
    unfold modelStored. cbn [snd] in Hsel. now rewrite Hsel.
  - rewrite Hout in Hrank. discriminate Hrank.
Qed.

Lemma namespace_ranking_lists_keys_witness :
  exists file obj,
    In (file, obj) [("models/auto", bothVectorsEntry)]
    /\ modelStored "gemini" obj <> None
    /\ "models/auto" ++ LF = file ++ LF.
Proof.
  apply (namespace_ranking_lists_keys (fun _ _ => Ok 1%float) (fun _ => Ok 1%float)
           [("models/auto", bothVectorsEntry)] [1%float] "gemini" 4
           ["models/auto" ++ LF] ("models/auto" ++ LF) eq_refl).
  now left.
Defined.

Lemma renderGrammar_entry (similarity : number) (name : string) (template : TemplateEntry)
  (g : GrammarEntry) :
  grammar template = Some g ->
  renderGrammar (grammarEntry similarity (name, template))
  = "Template sample: " ++ templateString (option_map sample_content (sample template))
      ++ LF ++ " and corresponding grammar: " ++ grammar_content g ++ LF.
Proof.
  intros H. unfold renderGrammar, grammarEntry. cbn [fst snd]. now rewrite H.
Qed.

(** X11. Every string [fetchRelevantGrammar] returns shows one template of
    the corpus that holds a vector for the provider: "Template sample: ",
    its sample text, a line feed, " and corresponding grammar: ", its
    grammar text as stored, a line feed. The template's name is not shown,
    and a template without a sample is shown with the sample text
    "undefined". *)
Theorem grammar_ranking_lines
  (math_dot : list number -> list number -> Result number) (math_norm : list number -> Result number)
  (corpus : TemplateEmbeddings) (promptEmbedding : list number) (provider : string)
  (topN : nat) (out : list string) (line : string) :
  fetchRelevantGrammar math_dot math_norm corpus promptEmbedding provider topN = Ok out ->
  In line out ->
  exists name template g,
    In (name, template) corpus /\ grammar template = Some g
    /\ line = "Template sample: "
                ++ match sample template with
                   | Some s => sample_content s
                   | None => "undefined"
                   end
                ++ LF ++ " and corresponding grammar: " ++ grammar_content g ++ LF.
Proof.
  intros Hout Hline.
  destruct (fetchRelevantGrammar_ranking math_dot math_norm promptEmbedding provider
              topN corpus) as [Hrank Hscores].
  unfold RankingOf in Hrank.
  destruct (scoreGrammar math_dot math_norm corpus promptEmbedding provider)
    as [entries | e] eqn:Es.
  - destruct Hrank as [top [Hres Hranked]].
    rewrite Hout in Hres. injection Hres as ->.
    apply in_map_iff in Hline. destruct Hline as [t [<- Ht]].
    pose proof (TopOf_in _ _ _ _ Hranked Ht) as Hin.
    destruct (Forall2_in_r _ _ _ _ (Hscores entries eq_refl) Hin)
      as [[name template] [Hc [embeddings [similarity [Hsel [_ ->]]]]]].
    apply filter_In in Hc. destruct Hc as [Hc _].
    destruct (selectTemplate_grammar _ _ _ Hsel) as [g Hg]. cbn [snd] in Hg.
    exists name, template, g. repeat split; [exact Hc | exact Hg |].
    rewrite (renderGrammar_entry similarity name template g Hg).
    destruct (sample template); reflexivity.
  - rewrite Hout in Hrank. discriminate Hrank.
Qed.

Lemma grammar_ranking_lines_witness :
  exists name template g,
    In (name, template) [("party", unterminatedImportTemplate)]
    /\ grammar template = Some g
    /\ "Template sample: undefined" ++ LF
         ++ " and corresponding grammar: import org.example.base.Party" ++ LF
       = "Template sample: "
           ++ match sample template with
              | Some s => sample_content s
              | None => "undefined"
              end
           ++ LF ++ " and corresponding grammar: " ++ grammar_content g ++ LF.
Proof.
  apply (grammar_ranking_lines (fun _ _ => Ok 1%float) (fun _ => Ok 1%float)
           [("party", unterminatedImportTemplate)] [1%float] "openai" 3
           ["Template sample: undefined" ++ LF
              ++ " and corresponding grammar: import org.example.base.Party" ++ LF]
           _ eq_refl).
  now left.
Defined.

(** ** More on namespace extraction *)

Lemma startsWith_containsb (a b s : string) :
  startsWith (a ++ b) s = true -> containsb b s = true.
Proof.
  revert s. induction a as [| c a IH]; intros s H.
  - cbn [append] in H. destruct s; cbn [containsb]; now rewrite H.
  - destruct s as [| d s]; [discriminate H |].
    cbn [append startsWith] in H. apply andb_true_iff in H. destruct H as [_ H].
    cbn [containsb]. rewrite (IH s H). apply orb_true_r.
Qed.

Lemma matchAt_no_keyword (s : string) (prev : option ascii) :
  startsWith "asset" s = false ->
  startsWith "participant" s = false ->
  startsWith "enum" s = false ->
  containsb "asset" s = false ->
  matchAt namespaceRegex prev s = None.
Proof.
  intros Ha Hp He Hc.
  unfold matchAt, namespaceRegex. cbn [matchRe].
  destruct (xorb _ _); [| reflexivity].
  rewrite (chars_none "asset"), (chars_none "participant"), (chars_none "enum")
    by assumption.
  rewrite (chars_none "abstract asset"); [reflexivity |].
  destruct (startsWith "abstract asset" s) eqn:E; [| reflexivity].
  apply (startsWith_containsb "abstract " "asset") in E.
  rewrite E in Hc. discriminate Hc.
Qed.

Lemma execAll_no_keyword (s : string) (prev : option ascii) (skip : nat) :
  containsb "asset" s = false ->
  containsb "participant" s = false ->
  containsb "enum" s = false ->
  execAll namespaceRegex prev skip s = [].
Proof.
  revert prev skip. induction s as [| c s IH]; intros prev skip Ha Hp He.
  - reflexivity.
  - cbn [execAll].
    pose proof (IH (Some c)) as IH'.
    destruct skip as [| n].
    + rewrite matchAt_no_keyword by (try apply containsb_start; assumption).
      apply IH'; now apply (containsb_suffix _ c).
    + apply IH'; now apply (containsb_suffix _ c).
Qed.

(** X12. A text in which none of "asset", "participant" and "enum" occurs
    yields no name: declarations introduced by other keywords ([concept],
    [transaction], [event], [map]) are not extracted. *)
Theorem no_keyword_no_namespace (fileContent : string) :
  containsb "asset" fileContent = false ->
  containsb "participant" fileContent = false ->
  containsb "enum" fileContent = false ->
  extractNamespaces fileContent = [].
Proof.
  intros Ha Hp He. unfold extractNamespaces.
  now rewrite execAll_no_keyword.
Qed.

Lemma no_keyword_no_namespace_witness :
  extractNamespaces
    ("concept Address {}" ++ LF ++ "transaction Pay {}" ++ LF ++ "event Paid {}" ++ LF
       ++ "map Phonebook {}" ++ LF)
  = [].
Proof.
  apply no_keyword_no_namespace; reflexivity.
Defined.

(** The runs a greedy repetition may settle on. *)
Lemma many_some {R : Type} (cls : ascii -> bool) (prev : option ascii) (s : string)
  (k : option ascii -> string -> option R) (r : R) :
  many cls prev s k = Some r ->
  exists run rest,
    s = run ++ rest /\ allChars cls run = true /\ k (lastChar run prev) rest = Some r.
Proof.
  revert prev. induction s as [| c s IH]; intros prev H.
  - exists EmptyString, EmptyString. now repeat split.
  - cbn [many] in H.
    assert (Hstop : k prev (String c s) = Some r ->
                    exists run rest,
                      String c s = run ++ rest /\ allChars cls run = true
                      /\ k (lastChar run prev) rest = Some r).
    { intros Hk. exists EmptyString, (String c s). now repeat split. }
    destruct (cls c) eqn:Ec; [| now apply Hstop].
    destruct (many cls (Some c) s k) as [r' |] eqn:Em; [| now apply Hstop].
    injection H as ->.
    destruct (IH (Some c) Em) as [run [rest [-> [Hrun Hk]]]].
    exists (String c run), rest. repeat split; [| exact Hk].
    simpl. now rewrite Ec.
Qed.

(** What [\s+(\w+)] captures. *)
Lemma match_spacing_name_inv (p : option ascii) (s : string) (cap : option string)
  (rest : string) (c : option string) :
  matchRe (Cat (Many1 isSpaceChar) (Capture (Many1 isWordChar))) p s cap
    (fun _ rest' cap' => Some (rest', cap')) = Some (rest, c) ->
  exists name, c = Some name /\ name <> EmptyString /\ allChars isWordChar name = true.
Proof.
  cbn [matchRe]. intros H.
  destruct s as [| c0 s]; [discriminate H |].
  destruct (isSpaceChar c0); [| discriminate H].
  apply many_some in H. destruct H as [_ [s1 [_ [_ H]]]].
  destruct s1 as [| c1 s1]; [discriminate H |].
  destruct (isWordChar c1) eqn:E1; [| discriminate H].
  apply many_some in H. destruct H as [run [rest' [-> [Hrun H]]]].
  injection H as -> <-.
  exists (String c1 run). repeat split.
  - change (String c1 (run ++ rest)) with (String c1 run ++ rest).
    now rewrite consumed_prefix.
  - discriminate.
  - simpl. now rewrite E1.
Qed.

Lemma alt_step {X : Type} (o1 o2 : option X) (x : X) :
  match o1 with Some y => Some y | None => o2 end = Some x ->
  o1 = Some x \/ o2 = Some x.
Proof.
  destruct o1; intros H; [left | right]; exact H.
Qed.

Lemma chars_then {X : Type} (lit : string) (prev : option ascii) (s : string)
  (f : option ascii -> string -> option X) (x : X) :
  match chars lit prev s with
  | Some (p', s') => f p' s'
  | None => None
  end = Some x ->
  exists p' s', f p' s' = Some x.
Proof.
  destruct (chars lit prev s) as [[p' s'] |]; [| discriminate].
  intros H. now exists p', s'.
Qed.

(** A match of a pattern [\b(?:a|b|c|d)r] ends with a match of [r]. *)
Lemma keyword_then_inv {X : Type} (a b c d : string) (r : regex)
  (prev : option ascii) (s : string)
  (k : option ascii -> string -> option string -> option X) (x : X) :
  matchRe (Cat Boundary (Cat (Alt (Chars a) (Alt (Chars b) (Alt (Chars c) (Chars d)))) r))
    prev s None k = Some x ->
  exists p' s', matchRe r p' s' None k = Some x.
Proof.
  cbn [matchRe]. destruct (xorb _ _); [| discriminate].
  intros H.
  apply alt_step in H. destruct H as [H | H]; [exact (chars_then _ _ _ _ _ H) |].
  apply alt_step in H. destruct H as [H | H]; [exact (chars_then _ _ _ _ _ H) |].
  apply alt_step in H. destruct H as [H | H]; exact (chars_then _ _ _ _ _ H).
Qed.

Lemma matchAt_namespace_inv (prev : option ascii) (s rest : string) (c : option string) :
  matchAt namespaceRegex prev s = Some (rest, c) ->
  exists name, c = Some name /\ name <> EmptyString /\ allChars isWordChar name = true.
Proof.
  unfold matchAt, namespaceRegex. intros H.
  apply keyword_then_inv in H. destruct H as [p' [s' H]].
  exact (match_spacing_name_inv p' s' None rest c H).
Qed.

Lemma execAll_Forall (r : regex) (P : option string -> Prop) :
  (forall prev s rest c, matchAt r prev s = Some (rest, c) -> P c) ->
  forall s prev skip, Forall P (execAll r prev skip s).
Proof.
  intros H. induction s as [| ch s IH]; intros prev skip; cbn [execAll].
  - constructor.
  - destruct skip as [| n]; [| apply IH].
    destruct (matchAt r prev (String ch s)) as [[rest c] |] eqn:E; [| apply IH].
    constructor; [exact (H _ _ _ _ E) | apply IH].
Qed.

(** X13. Every name [extractNamespaces] returns is a non-empty run of word
    characters (letters, digits, underscore), whatever the text is: group 1
    of the pattern takes part in every match. *)
Theorem extracted_names_are_words (fileContent : string) :
  Forall (fun name => name <> EmptyString /\ allChars isWordChar name = true)
    (extractNamespaces fileContent).
Proof.
  unfold extractNamespaces. apply Forall_map.
  apply (Forall_impl _ (P := fun c => exists name,
                            c = Some name /\ name <> EmptyString
                            /\ allChars isWordChar name = true)).
  - intros c [name [-> H]]. exact H.
  - apply execAll_Forall. intros prev s rest c. apply matchAt_namespace_inv.
Qed.

(** ** Namespace extraction on every text *)

Lemma chars_some (lit : string) (prev : option ascii) (s : string)
  (p : option ascii) (rest : string) :
  chars lit prev s = Some (p, rest) -> s = lit ++ rest /\ p = lastChar lit prev.
Proof.
  revert prev s. induction lit as [| a lit IH]; intros prev s H.
  - cbn [chars] in H. injection H as -> ->. now split.
  - destruct s as [| c s]; [discriminate H |]. cbn [chars] in H.
    destruct (Ascii.eqb_spec a c) as [<- |]; [| discriminate H].
    destruct (IH _ _ H) as [-> ->]. now split.
Qed.

Lemma many_total {R : Type} (cls : ascii -> bool) (prev : option ascii) (s : string)
  (k : option ascii -> string -> option R) :
  (forall p s', k p s' <> None) -> many cls prev s k <> None.
Proof.
  intros Hk. revert prev. induction s as [| c s IH]; intros prev; cbn [many].
  - apply Hk.
  - destruct (cls c); [| apply Hk].
    destruct (many cls (Some c) s k) eqn:E; [discriminate | apply Hk].
Qed.

(** Before a pattern that cannot fail, a greedy repetition takes the
    longest run. *)
Lemma many_longest {R : Type} (cls : ascii -> bool) (prev : option ascii) (s : string)
  (k : option ascii -> string -> option R) (r : R) :
  (forall p s', k p s' <> None) ->
  many cls prev s k = Some r ->
  exists run rest,
    s = run ++ rest /\ allChars cls run = true /\ startsOutside cls rest = true
    /\ k (lastChar run prev) rest = Some r.
Proof.
  intros Hk. revert prev. induction s as [| c s IH]; intros prev H.
  - exists EmptyString, EmptyString. now repeat split.
  - cbn [many] in H. destruct (cls c) eqn:Ec.
    + destruct (many cls (Some c) s k) as [r' |] eqn:Em.
      * injection H as ->.
        destruct (IH (Some c) Em) as [run [rest [-> [Hrun [Hout Hr]]]]].
        exists (String c run), rest. repeat split; try assumption.
        cbn [allChars]. now rewrite Ec.
      * exfalso. exact (many_total cls (Some c) s k Hk Em).
    + exists EmptyString, (String c s). repeat split; [| exact H].
      cbn [startsOutside]. now rewrite Ec.
Qed.

(** What [\s+(\w+)] takes: white space, then the longest run of word
    characters. *)
Lemma match_spacing_name_shape (p : option ascii) (s : string) (cap : option string)
  (rest : string) (c : option string) :
  matchRe (Cat (Many1 isSpaceChar) (Capture (Many1 isWordChar))) p s cap
    (fun _ rest' cap' => Some (rest', cap')) = Some (rest, c) ->
  exists spacing name,
    s = spacing ++ name ++ rest
    /\ spacing <> EmptyString /\ allChars isSpaceChar spacing = true
    /\ name <> EmptyString /\ allChars isWordChar name = true
    /\ startsOutside isWordChar rest = true
    /\ c = Some name.
Proof.
  cbn [matchRe]. intros H.
  destruct s as [| c0 s]; [discriminate H |].
  destruct (isSpaceChar c0) eqn:E0; [| discriminate H].
  apply many_some in H. destruct H as [sp [s1 [-> [Hsp H]]]].
  destruct s1 as [| c1 s1]; [discriminate H |].
  destruct (isWordChar c1) eqn:E1; [| discriminate H].
  apply many_longest in H; [| intros ? ?; discriminate].
  destruct H as [run [rest' [-> [Hrun [Hout H]]]]].
  injection H as -> <-.
  exists (String c0 sp), (String c1 run).
  split; [reflexivity |].
  split; [discriminate |].
  split; [cbn [allChars]; now rewrite E0 |].
  split; [discriminate |].
  split; [cbn [allChars]; now rewrite E1 |].
  split; [exact Hout |].
  change (String c1 (run ++ rest)) with (String c1 run ++ rest).
  now rewrite consumed_prefix.
Qed.

(** A keyword read by [chars], where a word may start. *)
Lemma keyword_start (kw : string) (prev p : option ascii) (s rest : string) :
  In kw keywords ->
  xorb (isWordAt prev) (isWordAt (firstChar s)) = true ->
  chars kw prev s = Some (p, rest) ->
  isWordAt prev = false /\ s = kw ++ rest.
Proof.
  intros Hkw Hb Hc. apply chars_some in Hc. destruct Hc as [-> _].
  split; [| reflexivity].
  assert (Hfirst : isWordAt (firstChar (kw ++ rest)) = true).
  { simpl in Hkw. destruct Hkw as [<- | [<- | [<- | [<- | []]]]]; reflexivity. }
  rewrite Hfirst in Hb. now destruct (isWordAt prev).
Qed.

(** Where the pattern matches, a declaration stands. *)
Lemma matchAt_namespace_shape (prev : option ascii) (s rest : string)
  (c : option string) :
  matchAt namespaceRegex prev s = Some (rest, c) ->
  exists kw spacing name, DeclaresAt prev s kw spacing name rest /\ c = Some name.
Proof.
  unfold matchAt, namespaceRegex.
  set (tail := Cat (Many1 isSpaceChar) (Capture (Many1 isWordChar))).
  cbn [matchRe]. destruct (xorb _ _) eqn:Hb; [| discriminate].
  intros H.
  assert (Hstep : forall kw,
             In kw keywords ->
             match chars kw prev s with
             | Some (p', s') =>
                 matchRe tail p' s' None (fun _ rest' cap' => Some (rest', cap'))
             | None => None
             end = Some (rest, c) ->
             exists kw spacing name, DeclaresAt prev s kw spacing name rest /\ c = Some name).
  { intros kw Hkw Hm.
    destruct (chars kw prev s) as [[p' s'] |] eqn:Hc; [| discriminate Hm].
    destruct (keyword_start kw prev p' s s' Hkw Hb Hc) as [Hprev ->].
    destruct (match_spacing_name_shape _ _ _ _ _ Hm)
      as [spacing [name [-> [Hs [Hsp [Hn [Hw [Hout ->]]]]]]]].
    exists kw, spacing, name. split; [| reflexivity].
    unfold DeclaresAt. repeat split; assumption. }
  apply alt_step in H. destruct H as [H | H];
    [apply (Hstep "asset"); [simpl; tauto | exact H] |].
  apply alt_step in H. destruct H as [H | H];
    [apply (Hstep "participant"); [simpl; tauto | exact H] |].
  apply alt_step in H. destruct H as [H | H];
    [apply (Hstep "enum"); [simpl; tauto | exact H] |].
  apply (Hstep "abstract asset"); [simpl; tauto | exact H].
Qed.

Lemma matchAt_declares (prev : option ascii) (s kw spacing name rest : string) :
  DeclaresAt prev s kw spacing name rest ->
  matchAt namespaceRegex prev s = Some (rest, Some name).
Proof.
  intros [Hkw [Hprev [-> [Hs [Hsp [Hn [Hw Hout]]]]]]].
  now apply matchAt_declaration.
Qed.

Lemma declaration_not_empty (prev : option ascii) (s kw spacing name rest : string) :
  DeclaresAt prev s kw spacing name rest ->
  s = (kw ++ spacing ++ name) ++ rest /\ kw ++ spacing ++ name <> EmptyString
  /\ String.length rest < String.length s.
Proof.
  intros [Hkw [_ [-> [Hs _]]]].
  assert (Hne : kw ++ spacing ++ name <> EmptyString).
  { destruct kw; [| discriminate]. destruct spacing; [contradiction | discriminate]. }
  split; [now rewrite !append_assoc |]. split; [exact Hne |].
  rewrite !length_append.
  destruct kw; cbn [String.length]; [| lia].
  destruct spacing; [contradiction | cbn [String.length]; lia].
Qed.

Lemma execAll_none (r : regex) (prev : option ascii) (c : ascii) (s : string) :
  matchAt r prev (String c s) = None ->
  execAll r prev 0 (String c s) = execAll r (Some c) 0 s.
Proof.
  intros H. cbn [execAll]. now rewrite H.
Qed.

Lemma extracts_unique (prev : option ascii) (s : string) (names : list string) :
  Extracts prev s names -> names = map group1 (execAll namespaceRegex prev 0 s).
Proof.
  induction 1 as [prev | prev s kw spacing name rest names Hd _ IH
                 | prev c s names Hno _ IH].
  - reflexivity.
  - destruct (declaration_not_empty _ _ _ _ _ _ Hd) as [Hs [Hne _]].
    pose proof (matchAt_declares _ _ _ _ _ _ Hd) as Hm. rewrite Hs in Hm |- *.
    rewrite (execAll_match _ _ _ _ _ Hne Hm). cbn [map group1]. now rewrite IH.
  - rewrite execAll_none; [exact IH |].
    destruct (matchAt namespaceRegex prev (String c s)) as [[rest cap] |] eqn:E;
      [| reflexivity].
    destruct (matchAt_namespace_shape _ _ _ _ E) as [kw [spacing [name [Hd _]]]].
    exfalso. exact (Hno _ _ _ _ Hd).
Qed.

Lemma extracts_total (n : nat) (s : string) (prev : option ascii) :
  String.length s <= n ->
  Extracts prev s (map group1 (execAll namespaceRegex prev 0 s)).
Proof.
  revert s prev. induction n as [| n IH]; intros s prev Hlen.
  - destruct s; [constructor | cbn [String.length] in Hlen; lia].
  - destruct s as [| c s]; [constructor |].
    destruct (matchAt namespaceRegex prev (String c s)) as [[rest cap] |] eqn:E.
    + destruct (matchAt_namespace_shape _ _ _ _ E) as [kw [spacing [name [Hd ->]]]].
      destruct (declaration_not_empty _ _ _ _ _ _ Hd) as [Hs [Hne Hshort]].
      rewrite Hs in E |- *.
      rewrite (execAll_match _ _ _ _ _ Hne E). cbn [map group1].
      rewrite <- Hs.
      apply (Extracts_declaration prev (String c s) kw spacing name rest); [exact Hd |].
      apply IH. cbn [String.length] in Hlen, Hshort. lia.
    + rewrite (execAll_none _ _ _ _ E).
      apply Extracts_skip.
      * intros kw spacing name rest Hd.
        rewrite (matchAt_declares _ _ _ _ _ _ Hd) in E. discriminate E.
      * apply IH. cbn [String.length] in Hlen. lia.
Qed.

(** C7. For every text, namespace extraction returns the identifiers of the
    declarations in it, in the order of the text and with repetitions: the
    identifiers that follow, after white space, a keyword [asset],
    [participant], [enum] or [abstract asset] that starts a word, the text
    being read from left to right and on from the end of each identifier.
    The text "asset Vehicle {} participant Driver {}" yields "Vehicle" and
    "Driver", in this order; a name declared twice is returned twice; text
    in front of the first declaration is passed over, and so is a keyword
    that only ends a longer word. *)
Theorem extractNamespaces_in_order :
  (forall fileContent names,
      Extracts None fileContent names <-> names = extractNamespaces fileContent)
  /\ extractNamespaces "asset Vehicle {} participant Driver {}" = ["Vehicle"; "Driver"]
  /\ extractNamespaces "asset Car {} enum Color {} asset Car {}" = ["Car"; "Color"; "Car"]
  /\ extractNamespaces
       ("namespace org.example" ++ LF ++ "abstract asset Vehicle identified by vin {}"
          ++ LF ++ "subasset Wheel {}" ++ LF ++ "participant Driver {}" ++ LF)
     = ["Vehicle"; "Driver"].
Proof.
  split; [| repeat split; reflexivity].
  intros fileContent names. unfold extractNamespaces. split.
  - apply extracts_unique.
  - intros ->. now apply (extracts_total (String.length fileContent)).
Qed.

(** ** More on import synthesis *)

Lemma concat_app (l1 l2 : list string) :
  String.concat "" (l1 ++ l2)%list = String.concat "" l1 ++ String.concat "" l2.
Proof.
  induction l1 as [| x l1 IH]; [reflexivity |].
  cbn [app]. now rewrite !concat_cons, IH, append_assoc.
Qed.

Lemma generateCTOImports_lines (namespaceMappings : JsObject (list string)) :
  generateCTOImports namespaceMappings
  = String.concat "" (map (fun entry => importLine (fst entry) (snd entry))
                        namespaceMappings).
Proof.
  unfold generateCTOImports. now rewrite generateCTOImports_fold.
Qed.

(** X14. The import block of two mappings put one after the other is the
    block of the first followed by the block of the second, and a file
    with no extracted name can be left out of a mapping without changing
    the block. *)
Theorem import_block_composes (m1 m2 : JsObject (list string)) :
  generateCTOImports (m1 ++ m2)%list = generateCTOImports m1 ++ generateCTOImports m2
  /\ forall key,
       generateCTOImports (m1 ++ (key, []) :: m2)%list = generateCTOImports (m1 ++ m2)%list.
Proof.
  split.
  - now rewrite !generateCTOImports_lines, map_app, concat_app.
  - intros key. rewrite !generateCTOImports_lines, !map_app, !concat_app.
    cbn [map]. now rewrite concat_cons.
Qed.







Section SameExceptAt.

Context {V : Type}.
Variable f : string.

Lemma sameExceptAt_keys (a b : JsObject V) :
  Forall2 (sameExceptAt f) a b -> map fst a = map fst b.
Proof.
  induction 1 as [| p q a b [Hk _] _ IH]; [reflexivity |].
  cbn [map]. now rewrite Hk, IH.
Qed.









End SameExceptAt.







(** ** More on the removal of import lines *)

Lemma matchAt_import_start (s : string) (prev : option ascii) :
  startsWith "import " s = false -> matchAt importRegex prev s = None.
Proof.
  intros H. unfold matchAt, importRegex. cbn [matchRe].
  now rewrite chars_none.
Qed.

Lemma replaceAll_quiet (r : regex) (replacement s : string) (prev : option ascii) :
  (forall pre post p, s = pre ++ post -> matchAt r p post = None) ->
  replaceAll r replacement prev 0 s = s.
Proof.
  revert prev. induction s as [| c s IH]; intros prev H; [reflexivity |].
  cbn [replaceAll]. rewrite (H EmptyString (String c s) prev eq_refl).
  f_equal. apply IH. intros pre post p E.
  apply (H (String c pre) post p). now rewrite E.
Qed.

Lemma containsb_split (pattern pre post : string) :
  containsb pattern (pre ++ post) = false -> startsWith pattern post = false.
Proof.
  induction pre as [| c pre IH]; intros H.
  - now apply containsb_start.
  - apply IH. now apply (containsb_suffix _ c).
Qed.

(** X16. A text in which "import " does not occur comes back from the
    cleaning unchanged. *)
Theorem text_without_import_is_unchanged (content : string) :
  containsb "import " content = false -> removeImports content = content.
Proof.
  intros H. unfold removeImports. apply replaceAll_quiet.
  intros pre post p E. apply matchAt_import_start.
  apply (containsb_split _ pre). now rewrite <- E.
Qed.

Lemma text_without_import_witness :
  removeImports ("asset Car identified by vin {" ++ LF ++ "}" ++ LF)
  = "asset Car identified by vin {" ++ LF ++ "}" ++ LF.
Proof.
  apply text_without_import_is_unchanged. reflexivity.
Defined.

Lemma many_none {R : Type} (cls : ascii -> bool) (s : string) (prev : option ascii)
  (k : option ascii -> string -> option R) :
  (forall run rest, s = run ++ rest -> allChars cls run = true ->
                    k (lastChar run prev) rest = None) ->
  many cls prev s k = None.
Proof.
  revert prev. induction s as [| c s IH]; intros prev H.
  - exact (H EmptyString EmptyString eq_refl eq_refl).
  - cbn [many]. destruct (cls c) eqn:Hc.
    + rewrite IH.
      * exact (H EmptyString (String c s) eq_refl eq_refl).
      * intros run rest E Hrun.
        apply (H (String c run) rest); [now rewrite E |].
        cbn [allChars]. now rewrite Hc.
    + exact (H EmptyString (String c s) eq_refl eq_refl).
Qed.

Lemma noBareLineFeed_split (pre post : string) (afterCR : bool) :
  noBareLineFeed afterCR (pre ++ post) = true ->
  exists b, noBareLineFeed b post = true.
Proof.
  revert afterCR. induction pre as [| c pre IH]; intros afterCR H.
  - now exists afterCR.
  - cbn [append noBareLineFeed] in H. apply andb_true_iff in H.
    destruct H as [_ H]. now apply (IH _ H).
Qed.

(** After a run of characters other than line terminators no line feed is
    allowed. *)
Lemma noBareLineFeed_run (run rest : string) :
  noBareLineFeed false (run ++ rest) = true ->
  allChars isDotChar run = true ->
  startsWith LF rest = false.
Proof.
  induction run as [| c run IH]; intros H Hrun.
  - destruct rest as [| c rest]; [reflexivity |].
    cbn [append noBareLineFeed] in H. apply andb_true_iff in H.
    destruct H as [H _]. cbn [startsWith LF].
    destruct (Ascii.eqb_spec (ascii_of_nat 10) c) as [<- |]; [| reflexivity].
    discriminate H.
  - cbn [allChars] in Hrun. apply andb_true_iff in Hrun. destruct Hrun as [Hc Hrun].
    cbn [append noBareLineFeed] in H. apply andb_true_iff in H. destruct H as [_ H].
    unfold isDotChar in Hc. apply negb_true_iff, orb_false_iff in Hc.
    destruct Hc as [_ Hc]. rewrite Hc in H. now apply IH.
Qed.

Lemma matchAt_import_no_line_feed (s : string) (afterCR : bool) (prev : option ascii) :
  noBareLineFeed afterCR s = true -> matchAt importRegex prev s = None.
Proof.
  intros H. destruct (startsWith "import " s) eqn:Hp;
    [| now apply matchAt_import_start].
  apply startsWith_split in Hp.
  set (s1 := dropString (String.length "import ") s) in Hp.
  rewrite Hp in H |- *. clear Hp.
  assert (H1 : noBareLineFeed false s1 = true).
  { cbn in H. exact H. }
  unfold matchAt, importRegex. cbn [matchRe]. rewrite chars_prefix.
  apply many_none. intros run rest E Hrun.
  rewrite chars_none; [reflexivity |].
  apply (noBareLineFeed_run run); [now rewrite <- E | exact Hrun].
Qed.

(** X17. Import lines are removed only where a line ends in a bare line
    feed. A text in which every line feed follows a carriage return, and so
    also a text without any line feed, comes back unchanged, import lines
    included. *)
Theorem windows_line_endings_keep_imports (content : string) :
  noBareLineFeed false content = true -> removeImports content = content.
Proof.
  intros H. unfold removeImports. apply replaceAll_quiet.
  intros pre post p E. rewrite E in H.
  destruct (noBareLineFeed_split pre post false H) as [b Hb].
  now apply (matchAt_import_no_line_feed post b).
Qed.

Lemma windows_line_endings_witness :
  removeImports windowsImports = windowsImports.
Proof.
  apply windows_line_endings_keep_imports. reflexivity.
Defined.

Lemma replaceAll_length (r : regex) (s : string) (prev : option ascii) (skip : nat) :
  String.length (replaceAll r "" prev skip s) <= String.length s.
Proof.
  revert prev skip. induction s as [| c s IH]; intros prev skip; [reflexivity |].
  cbn [replaceAll String.length].
  destruct skip as [| n].
  - destruct (matchAt r prev (String c s)) as [[rest cap] |].
    + destruct (S (String.length s) - String.length rest) as [| n].
      * cbn [append String.length]. specialize (IH (Some c) 0). lia.
      * cbn [append]. specialize (IH (Some c) n). lia.
    + cbn [String.length]. specialize (IH (Some c) 0). lia.
  - specialize (IH (Some c) n). lia.
Qed.

(** X18. The cleaning only takes text away: the cleaned content is never
    longer than the content. *)
Theorem cleaning_never_adds_text (content : string) :
  String.length (removeImports content) <= String.length content.
Proof.
  apply replaceAll_length.
Qed.


(** ** Errors of the rankings *)

Lemma loop_throws {E T : Type} (select : E -> option (list number))
  (score : list number -> Result number) (entryOf : number -> E -> T) (l : list E) (acc : list T)
  (e : JsError) :
  forOf (scoreStep select score entryOf) l acc = Throw e
  <-> FirstFailure select score l e.
Proof.
  revert acc. induction l as [| x l IH]; intros acc.
  - split; [intros H; discriminate H |].
    intros [before [entry [after [v [H _]]]]]. destruct before; discriminate H.
  - cbn [forOf]. unfold scoreStep at 1.
    destruct (select x) as [v |] eqn:Hx.
    + destruct (score v) as [q | e'] eqn:Hv; cbn [bindR].
      * rewrite IH. split.
        -- intros [before [entry [after [w [-> [Hs [Ht Hb]]]]]]].
           exists (x :: before), entry, after, w.
           repeat split; try assumption.
           intros y u [<- | Hin] Hy; [| now apply (Hb y u)].
           rewrite Hx in Hy. injection Hy as <-. now exists q.
        -- intros [before [entry [after [w [H [Hs [Ht Hb]]]]]]].
           destruct before as [| y before]; cbn [app] in H; injection H as <- ->.
           ++ rewrite Hx in Hs. injection Hs as <-. rewrite Hv in Ht. discriminate Ht.
           ++ exists before, entry, after, w. repeat split; try assumption.
              intros z u Hin. apply Hb. now right.
      * split.
        -- intros H. injection H as <-.
           exists [], x, l, v. repeat split; try assumption. intros y u [].
        -- intros [before [entry [after [w [H [Hs [Ht Hb]]]]]]].
           destruct before as [| y before]; cbn [app] in H; injection H as <- ->.
           ++ rewrite Hx in Hs. injection Hs as <-. rewrite Hv in Ht.
              now injection Ht as <-.
           ++ destruct (Hb x v (or_introl eq_refl) Hx) as [q Hq].
              rewrite Hv in Hq. discriminate Hq.
    + cbn [bindR]. rewrite IH. split.
      * intros [before [entry [after [w [-> [Hs [Ht Hb]]]]]]].
        exists (x :: before), entry, after, w.
        repeat split; try assumption.
        intros y u [<- | Hin] Hy; [| now apply (Hb y u)].
        rewrite Hx in Hy. discriminate Hy.
      * intros [before [entry [after [w [H [Hs [Ht Hb]]]]]]].
        destruct before as [| y before]; cbn [app] in H; injection H as <- ->.
        -- rewrite Hx in Hs. discriminate Hs.
        -- exists before, entry, after, w. repeat split; try assumption.
           intros z u Hin. apply Hb. now right.
Qed.

Lemma bindR_throws {A B : Type} (r : Result A) (k : A -> Result B) (e : JsError) :
  (forall a, exists b, k a = Ok b) -> bindR r k = Throw e <-> r = Throw e.
Proof.
  intros Hk. destruct r as [a | e']; cbn [bindR].
  - destruct (Hk a) as [b ->]. split; intros H; discriminate H.
  - split; intros H; injection H as <-; reflexivity.
Qed.

(** X26. None of the rankings catches an error of mathjs. A similarity
    fails with the error of the dot product, else with that of the norm of
    the prompt vector, else with that of the norm of the stored vector. A
    ranking fails exactly when the similarity of some entry holding a
    vector for the provider fails, with the error of the first such entry
    in corpus order; the entries after it are not looked at. *)
Theorem ranking_fails_with_first_error
  (math_dot : list number -> list number -> Result number) (math_norm : list number -> Result number)
  (promptEmbedding : list number) (provider : string) (topN : nat) (e : JsError) :
  (forall vec1 vec2,
      cosineSimilarity math_dot math_norm vec1 vec2 = Throw e
      <-> math_dot vec1 vec2 = Throw e
          \/ (exists d, math_dot vec1 vec2 = Ok d /\ math_norm vec1 = Throw e)
          \/ (exists d n, math_dot vec1 vec2 = Ok d /\ math_norm vec1 = Ok n
                          /\ math_norm vec2 = Throw e))
  /\ (forall corpus,
        fetchRelevantNamespaces math_dot math_norm corpus promptEmbedding provider topN
        = Throw e
        <-> FirstFailure (selectNamespace provider)
              (cosineSimilarity math_dot math_norm promptEmbedding) corpus e)
  /\ (forall corpus,
        fetchRelevantTemplates math_dot math_norm corpus promptEmbedding provider topN
        = Throw e
        <-> FirstFailure (selectTemplate provider)
              (cosineSimilarity math_dot math_norm promptEmbedding) corpus e)
  /\ (forall corpus,
        fetchRelevantGrammar math_dot math_norm corpus promptEmbedding provider topN
        = Throw e
        <-> FirstFailure (selectTemplate provider)
              (cosineSimilarity math_dot math_norm promptEmbedding) corpus e).
Proof.
  split; [| split; [| split]].
  - intros vec1 vec2. unfold cosineSimilarity.
    destruct (math_dot vec1 vec2) as [d | e1]; cbn [bindR].
    + destruct (math_norm vec1) as [n1 | e2]; cbn [bindR].
      * destruct (math_norm vec2) as [n2 | e3]; cbn [bindR].
        -- split; [intros H; discriminate H |].
           intros [H | [[d' [_ H]] | [d' [n' [_ [_ H]]]]]]; discriminate H.
        -- split.
           ++ intros H. injection H as <-. right. right. exists d, n1. repeat split.
           ++ intros [H | [[d' [_ H]] | [d' [n' [_ [_ H]]]]]];
                try discriminate H; exact H.
      * split.
        -- intros H. injection H as <-. right. left. exists d. repeat split.
        -- intros [H | [[d' [_ H]] | [d' [n' [_ [H _]]]]]];
             try discriminate H; exact H.
    + split.
      * intros H. now left.
      * intros [H | [[d' [H _]] | [d' [n' [H _]]]]]; try discriminate H; exact H.
  - intros corpus. unfold fetchRelevantNamespaces.
    rewrite bindR_throws by (intros a; eexists; reflexivity).
    rewrite scoreNamespaces_loop. apply loop_throws.
  - intros corpus. unfold fetchRelevantTemplates.
    rewrite bindR_throws by (intros a; eexists; reflexivity).
    rewrite scoreTemplates_loop. apply loop_throws.
  - intros corpus. unfold fetchRelevantGrammar.
    rewrite bindR_throws by (intros a; eexists; reflexivity).
    rewrite scoreGrammar_loop. apply loop_throws.
Qed.

(** * Properties of the OpenAI client *)

Section OpenAIClient.
Import OpenAI.
Local Open Scope openai_scope.

Arguments decimal : simpl never.

Lemma reads_ret {A : Type} (a : A) : reads (ret a).
Proof.
  split; [reflexivity | intros e H; discriminate H].
Qed.

Lemma reads_getProp (h : Platform) (v : JsValue) (name : string) :
  reads (attempt (getProp h v name)).
Proof.
  split; [reflexivity |]. intros e H. cbn [attempt snd] in H.
  destruct v; cbn [getProp] in H; try discriminate H; injection H as <-; eauto.
Qed.

Lemma reads_getFirst (h : Platform) (v : JsValue) : reads (attempt (getFirst h v)).
Proof.
  split; [reflexivity |]. intros e H. cbn [attempt snd] in H.
  destruct v; cbn [getFirst] in H; try discriminate H; injection H as <-; eauto.
Qed.

Lemma reads_bind {A B : Type} (m : T A) (k : A -> T B) :
  reads m -> (forall a, reads (k a)) -> reads (bind m k).
Proof.
  intros [Hf He] Hk. destruct m as [events [a | e]]; cbn [fst snd] in *; subst events.
  - cbn [bind]. destruct (Hk a) as [Hkf Hke].
    destruct (k a) as [events' r]. cbn [fst snd app] in *. now split.
  - cbn [bind]. split; [reflexivity |].
    intros e0 H. cbn [snd] in H. injection H as <-. exact (He e eq_refl).
Qed.

Lemma reads_if {A : Type} (b : bool) (m1 m2 : T A) :
  reads m1 -> reads m2 -> reads (if b then m1 else m2).
Proof.
  now destruct b.
Qed.

Lemma hasChoices_reads (h : Platform) (r : AxiosResponse) : reads (hasChoices h r).
Proof.
  unfold hasChoices.
  repeat first [ apply reads_if | apply reads_bind | apply reads_getProp
               | apply reads_ret | intro ].
Qed.

Lemma firstChoiceContent_reads (h : Platform) (v : JsValue) :
  reads (firstChoiceContent h v).
Proof.
  unfold firstChoiceContent.
  repeat first [ apply reads_if | apply reads_bind | apply reads_getProp
               | apply reads_getFirst | apply reads_ret | intro ].
Qed.

Lemma hasData_reads (h : Platform) (r : AxiosResponse) : reads (hasData h r).
Proof.
  unfold hasData.
  repeat first [ apply reads_if | apply reads_bind | apply reads_getProp
               | apply reads_ret | intro ].
Qed.

Lemma hasChoices_status (h : Platform) (r : AxiosResponse) :
  snd (hasChoices h r) = Returned true -> status r = 200%N.
Proof.
  unfold hasChoices. destruct (N.eqb_spec (status r) 200) as [E | E]; [easy |].
  intros H. discriminate H.
Qed.

Lemma hasData_status (h : Platform) (r : AxiosResponse) :
  snd (hasData h r) = Returned true -> status r = 200%N.
Proof.
  unfold hasData. destruct (N.eqb_spec (status r) 200) as [E | E]; [easy |].
  intros H. discriminate H.
Qed.

(** A computation is settled by what it reads. *)
Lemma reads_cases {A : Type} (m : T A) :
  reads m ->
  (exists a, m = ([], Returned a)) \/ (exists message, m = ([], Raised (TypeError message))).
Proof.
  intros [Hf He]. destruct m as [events [a | e]]; cbn [fst snd] in *; subst events.
  - left. now exists a.
  - right. destruct (He e eq_refl) as [message ->]. now exists message.
Qed.

Lemma tryCatch_post {A : Type} (h : Platform) (url : string) (body : RequestBody)
  (headers : Headers) (k : AxiosResponse -> T A) (handler : Thrown -> T A) :
  tryCatch (bind (post h url body headers) k) handler
  = match axios_post h url body headers with
    | Returned r =>
        match k r with
        | (events, Returned a) => (Post url body headers :: events, Returned a)
        | (events, Raised e) =>
            (Post url body headers :: events ++ fst (handler e), snd (handler e))%list
        end
    | Raised e => (Post url body headers :: fst (handler e), snd (handler e))
    end.
Proof.
  unfold tryCatch, bind, post.
  destruct (axios_post h url body headers) as [r | e].
  - destruct (k r) as [events [a | e]]; [reflexivity |].
    cbn [app]. now destruct (handler e).
  - now destruct (handler e).
Qed.

Ltac settle :=
  cbn [bind ret log raise attempt convert app fst snd forallb isLog andb
       error_response error_request error_config];
  eexists; split; [reflexivity |]; split; [reflexivity |];
  let E := fresh "E" in intros ? E; try discriminate E; reflexivity.

(** X19. Whatever the server answers, [generateContent] posts exactly one
    request: to the configured address, or to the OpenAI end point when the
    address is unset or empty, with the bearer token in the headers, the
    configured model and the prompt as messages. Everything else it records
    is a log line, and a call that returns a text logs nothing. *)
Theorem content_request_is_posted_once (h : Platform) (config : ModelConfig)
  (promptArray : list Message) :
  exists logs,
    fst (generateContent h config promptArray)
    = Post (orDefault (apiUrl config) (LLM_ENDPOINTS_OPENAI h))
        (ContentBody (createGenerateContentRequest promptArray config))
        [("Content-Type", "application/json");
         ("Authorization", "Bearer " ++ templateString (accessToken config))]
      :: logs
    /\ forallb isLog logs = true
    /\ (forall text,
          snd (generateContent h config promptArray) = Returned text -> logs = [])
    /\ model (createGenerateContentRequest promptArray config) = llmModel config
    /\ messages (createGenerateContentRequest promptArray config) = promptArray
    /\ (additionalParams config = None ->
        createGenerateContentRequest promptArray config
        = {| model := llmModel config; messages := promptArray;
             max_tokens := None; request_temperature := None; top_p := None;
             frequency_penalty := None; presence_penalty := None |}).
Proof.
  assert (H : exists logs,
    fst (generateContent h config promptArray)
    = Post (orDefault (apiUrl config) (LLM_ENDPOINTS_OPENAI h))
        (ContentBody (createGenerateContentRequest promptArray config))
        [("Content-Type", "application/json");
         ("Authorization", "Bearer " ++ templateString (accessToken config))]
      :: logs
    /\ forallb isLog logs = true
    /\ (forall text,
          snd (generateContent h config promptArray) = Returned text -> logs = [])).
  { unfold generateContent. cbv zeta. rewrite tryCatch_post. unfold requestHeaders.
    destruct (axios_post h _ _ _) as [r | e].
    - destruct (reads_cases _ (hasChoices_reads h r)) as [[ok E] | [message E]];
        rewrite E; cbn [bind].
      + destruct ok.
        * destruct (reads_cases _ (firstChoiceContent_reads h (data r)))
            as [[text E2] | [message E2]]; rewrite E2; settle.
        * settle.
      + settle.
    - destruct e as [[[r |] [|] [c |] m] | m | m | [s |]]; settle. }
  destruct H as [logs [H1 [H2 H3]]]. exists logs.
  repeat (split; [assumption || reflexivity |]).
  intros E. unfold createGenerateContentRequest, additionalParam. now rewrite E.
Qed.

(** X20. A failure of [generateContent] reaches the caller as an [Error]
    with one of four messages: the status line of a rejected response, the
    two messages for a request that got no response, and the
    unexpected-error message. The one exception is the log line of the
    catch block: when the request configuration of an axios error without
    a response, or a rejected value that is no axios error, converts to no
    string, the TypeError of that conversion reaches the caller instead.
    The message "Failed to generate content. Invalid response from server."
    is never the message of the [Error], and a text is returned only for
    an answer with status 200. *)
Theorem content_errors_are_rewritten (h : Platform) (config : ModelConfig)
  (promptArray : list Message) :
  match snd (generateContent h config promptArray) with
  | Returned _ =>
      exists r, contentAnswer h config promptArray = Returned r /\ status r = 200%N
  | Raised e =>
      (exists message,
          e = NewError message
          /\ message <> "Failed to generate content. Invalid response from server."
          /\ (message = "Failed to send request to the server."
              \/ message = "An error occurred while processing the request."
              \/ message = "An unexpected error occurred while generating content."
              \/ exists rejection r,
                   contentAnswer h config promptArray = Raised (AxiosRejection rejection)
                   /\ error_response rejection = Some r
                   /\ message = "Failed to generate content due to an error ("
                                 ++ decimal (status r) ++ " " ++ statusText r ++ ")."))
      \/ (e = TypeError (conversionErrorMessage h)
          /\ ((exists rejection,
                  contentAnswer h config promptArray = Raised (AxiosRejection rejection)
                  /\ error_response rejection = None
                  /\ error_request rejection = true
                  /\ error_config rejection = CannotConvert)
              \/ contentAnswer h config promptArray = Raised (OtherRejection CannotConvert)))
  end.
Proof.
  unfold contentAnswer, generateContent. cbv zeta. rewrite tryCatch_post.
  unfold requestHeaders.
  destruct (axios_post h _ _ _) as [r | e].
  - pose proof (hasChoices_status h r) as Hs.
    destruct (reads_cases _ (hasChoices_reads h r)) as [[ok E] | [message E]];
      rewrite E in *; cbn [bind].
    + destruct ok.
      * destruct (reads_cases _ (firstChoiceContent_reads h (data r)))
          as [[text E2] | [message E2]]; rewrite E2;
          cbn [bind ret log raise app fst snd].
        -- exists r. split; [reflexivity | now apply Hs].
        -- left. eexists. split; [reflexivity |]. split; [discriminate | tauto].
      * cbn [bind ret log raise app fst snd].
        left. eexists. split; [reflexivity |]. split; [discriminate | tauto].
    + cbn [bind ret log raise app fst snd].
      left. eexists. split; [reflexivity |]. split; [discriminate | tauto].
  - destruct e as [[[r |] [|] [c |] m] | m | m | [s |]];
      cbn [bind ret log raise convert app fst snd error_response error_request
           error_config];
      try (left; eexists; split; [reflexivity |]; split; [discriminate |]; tauto).
    + left. eexists. split; [reflexivity |]. split; [discriminate |].
      right. right. right. eexists. exists r. repeat split.
    + left. eexists. split; [reflexivity |]. split; [discriminate |].
      right. right. right. eexists. exists r. repeat split.
    + left. eexists. split; [reflexivity |]. split; [discriminate |].
      right. right. right. eexists. exists r. repeat split.
    + left. eexists. split; [reflexivity |]. split; [discriminate |].
      right. right. right. eexists. exists r. repeat split.
    + right. split; [reflexivity |]. left. eexists. repeat split.
    + right. split; [reflexivity |]. now right.
Qed.



(** X22. For an answer with status 200 whose body lists at least one
    choice, [generateContent] logs nothing and returns the content of the
    first choice's message; when the first choice is null or has no
    message, it returns [undefined] instead of failing. *)
Theorem first_choice_is_returned (h : Platform) (config : ModelConfig)
  (promptArray : list Message) (r : AxiosResponse)
  (fields : list (string * JsValue)) (choice : JsValue) (others : list JsValue) :
  contentAnswer h config promptArray = Returned r ->
  status r = 200%N ->
  data r = JsObjectValue fields ->
  ownProperty "choices" fields = JsArray (choice :: others) ->
  exists text,
    generateContent h config promptArray
    = ([contentPost h config promptArray], Returned text)
    /\ (forall c m,
          choice = JsObjectValue c ->
          ownProperty "message" c = JsObjectValue m ->
          text = ownProperty "content" m)
    /\ (forall c,
          choice = JsObjectValue c ->
          nullish (ownProperty "message" c) = true ->
          text = JsUndefined)
    /\ (nullish choice = true -> text = JsUndefined).
Proof.
  unfold contentAnswer, contentPost, generateContent. cbv zeta. intros Ha Hs Hd Hc.
  rewrite tryCatch_post. unfold requestHeaders. rewrite Ha.
  assert (E : hasChoices h r = ([], Returned true)).
  { unfold hasChoices. rewrite Hs, Hd. cbn [N.eqb Pos.eqb getProp attempt bind].
    rewrite Hc. reflexivity. }
  rewrite E. cbn [bind]. unfold firstChoiceContent. rewrite Hd.
  cbn [nullish getProp attempt bind]. rewrite Hc. cbn [getFirst nth bind].
  destruct choice as [| | b | q | s | items | c];
    cbn [nullish getProp attempt bind ret app];
    try (eexists; split; [reflexivity |];
         split; [intros ? ? X; discriminate X |];
         split; [intros ? X; discriminate X |];
         intros X; try discriminate X; reflexivity).
  destruct (ownProperty "message" c) as [| | b | q | s | items | m] eqn:Hm;
    cbn [nullish getProp attempt bind ret app];
    eexists; (split; [reflexivity |]);
    (split; [intros ? ? X Y; injection X as <-; rewrite Hm in Y;
             try discriminate Y; try (injection Y as <-); reflexivity |]);
    (split; [intros ? X Y; injection X as <-; rewrite Hm in Y;
             try discriminate Y; reflexivity |]);
    intros X; discriminate X.
Qed.

Lemma first_choice_witness :
  generateContent (examplePlatform (exampleAnswer 200 exampleCompletion)) exampleConfig []
  = ([contentPost (examplePlatform (exampleAnswer 200 exampleCompletion)) exampleConfig []],
     Returned (JsString "asset Car {}")).
Proof.
  destruct (first_choice_is_returned
              (examplePlatform (exampleAnswer 200 exampleCompletion)) exampleConfig []
              _ _ _ _ eq_refl eq_refl eq_refl eq_refl) as [text [E [H _]]].
  rewrite E. now rewrite (H _ _ eq_refl eq_refl).
Defined.

(** X23. Whatever the server answers, [generateEmbeddings] posts exactly
    one request, for the one text, with the bearer token in the headers.
    The model is the configured embedding model, or text-embedding-ada-002
    when that is unset or empty. The address is the configured one, or the
    OpenAI embeddings end point when that is unset or empty; it is used as
    it is when "openai" occurs in it, and with "/embeddings" appended
    otherwise. Everything else recorded is a log line, and a call that
    returns logs nothing. *)
Theorem embeddings_request_is_posted_once (h : Platform) (config : ModelConfig)
  (text : string) :
  let base := orDefault (apiUrl config) (LLM_EMDEDDINGS_ENDPOINTS_OPENAI h) in
  exists url logs,
    fst (generateEmbeddings h config text)
    = Post url
        (EmbeddingsBody
           {| input := [text];
              embeddings_model :=
                orDefault (embeddingModel config) "text-embedding-ada-002" |})
        [("Content-Type", "application/json");
         ("Authorization", "Bearer " ++ templateString (accessToken config))]
      :: logs
    /\ forallb isLog logs = true
    /\ (forall embeddings,
          snd (generateEmbeddings h config text) = Returned embeddings -> logs = [])
    /\ (includes base "openai" = true -> url = base)
    /\ (includes base "openai" = false -> url = base ++ "/embeddings").
Proof.
  intros base.
  set (url := if includes base "openai" then base else base ++ "/embeddings").
  exists url.
  cut (exists logs,
    fst (generateEmbeddings h config text)
    = Post url
        (EmbeddingsBody
           {| input := [text];
              embeddings_model :=
                orDefault (embeddingModel config) "text-embedding-ada-002" |})
        [("Content-Type", "application/json");
         ("Authorization", "Bearer " ++ templateString (accessToken config))]
      :: logs
    /\ forallb isLog logs = true
    /\ (forall embeddings,
          snd (generateEmbeddings h config text) = Returned embeddings -> logs = [])).
  { intros [logs [H1 [H2 H3]]]. exists logs.
    split; [exact H1 |]. split; [exact H2 |]. split; [exact H3 |].
    subst url. split; intros E; now rewrite E. }
  unfold generateEmbeddings. cbv zeta. fold base. fold url.
  rewrite tryCatch_post.
  unfold requestHeaders, createGenerateEmbeddingsRequest.
  destruct (axios_post h _ _ _) as [r | e].
  - destruct (reads_cases _ (hasData_reads h r)) as [[ok E] | [message E]];
      rewrite E; cbn [bind].
    + destruct ok.
      * assert (R : reads (bind (attempt (getProp h (data r) "data"))
                            (fun data => bind (attempt (getFirst h data))
                               (fun first => bind (attempt (getProp h first "embedding"))
                                  (fun embeddings => ret embeddings))))).
        { repeat first [ apply reads_bind | apply reads_getProp | apply reads_getFirst
                       | apply reads_ret | intro ]. }
        destruct (reads_cases _ R) as [[v E2] | [message E2]]; rewrite E2; settle.
      * settle.
    + settle.
  - destruct e as [[[r |] [|] [c |] m] | m | m | [s |]]; settle.
Qed.

Lemma embeddings_request_witness :
  exists logs,
    fst (generateEmbeddings (examplePlatform (Raised (OtherRejection (Converts "offline"))))
           proxyConfig "asset Car {}")
    = Post "https://llm.example.org/v1/embeddings"
        (EmbeddingsBody {| input := ["asset Car {}"];
                           embeddings_model := "text-embedding-ada-002" |})
        [("Content-Type", "application/json"); ("Authorization", "Bearer key")]
      :: logs.
Proof.
  destruct (embeddings_request_is_posted_once
              (examplePlatform (Raised (OtherRejection (Converts "offline"))))
              proxyConfig "asset Car {}") as [url [logs [H [_ [_ [_ Hurl]]]]]].
  exists logs. rewrite H. now rewrite (Hurl eq_refl).
Defined.

(** X24. For an answer with status 200 whose body has a [data] list,
    [generateEmbeddings] returns the [embedding] of the first entry of the
    list, logging nothing. When the list is empty the call fails with the
    unexpected-error message. *)
Theorem first_embedding_is_returned (h : Platform) (config : ModelConfig)
  (text : string) (r : AxiosResponse) (fields : list (string * JsValue))
  (items : list JsValue) :
  embeddingsAnswer h config text = Returned r ->
  status r = 200%N ->
  data r = JsObjectValue fields ->
  ownProperty "data" fields = JsArray items ->
  (forall entry others,
     items = JsObjectValue entry :: others ->
     generateEmbeddings h config text
     = ([embeddingsPost h config text], Returned (ownProperty "embedding" entry)))
  /\ (items = [] ->
      generateEmbeddings h config text
      = ([embeddingsPost h config text;
          Log ("Error generating embeddings: "
                 ++ errorToString "TypeError"
                      (typeErrorMessage h JsUndefined "embedding"))],
         Raised (NewError "An unexpected error occurred while generating embeddings."))).
Proof.
  unfold embeddingsAnswer, embeddingsPost, embeddingsUrl, embeddingsBody,
    generateEmbeddings.
  cbv zeta. intros Ha Hs Hd Hi.
  rewrite tryCatch_post.
  unfold requestHeaders, createGenerateEmbeddingsRequest. rewrite Ha.
  assert (E : hasData h r = ([], Returned true)).
  { unfold hasData. rewrite Hs, Hd. cbn [N.eqb Pos.eqb getProp attempt bind].
    rewrite Hi. reflexivity. }
  rewrite E. cbn [bind]. rewrite Hd. cbn [getProp attempt bind]. rewrite Hi.
  split.
  - intros entry others ->. reflexivity.
  - intros ->. reflexivity.
Qed.

Lemma first_embedding_witness :
  generateEmbeddings (examplePlatform (exampleAnswer 200 exampleEmbeddingList))
    exampleConfig "asset Car {}"
  = ([embeddingsPost (examplePlatform (exampleAnswer 200 exampleEmbeddingList))
        exampleConfig "asset Car {}"],
     Returned (JsArray [JsNumber 1%Q; JsNumber 0%Q])).
Proof.
  destruct (first_embedding_is_returned
              (examplePlatform (exampleAnswer 200 exampleEmbeddingList))
              exampleConfig "asset Car {}" _ _ _ eq_refl eq_refl eq_refl eq_refl)
    as [H _].
  now rewrite (H _ _ eq_refl).
Defined.

(** X25. A failure of [generateEmbeddings] reaches the caller as an [Error]
    with one of four messages: the status line of a rejected response, the
    two messages for a request that got no response, and the
    unexpected-error message. The one exception is the log line of the
    catch block: when the request configuration of an axios error without
    a response, or a rejected value that is no axios error, converts to no
    string, the TypeError of that conversion reaches the caller instead.
    The message "Failed to generate embeddings" is never the message of the
    [Error], and a value is returned only for an answer with status 200. *)
Theorem embeddings_errors_are_rewritten (h : Platform) (config : ModelConfig)
  (text : string) :
  match snd (generateEmbeddings h config text) with
  | Returned _ =>
      exists r, embeddingsAnswer h config text = Returned r /\ status r = 200%N
  | Raised e =>
      (exists message,
          e = NewError message
          /\ message <> "Failed to generate embeddings"
          /\ (message = "Failed to send request to the server."
              \/ message = "An error occurred while processing the request."
              \/ message = "An unexpected error occurred while generating embeddings."
              \/ exists rejection r,
                   embeddingsAnswer h config text = Raised (AxiosRejection rejection)
                   /\ error_response rejection = Some r
                   /\ message = "Failed to generate embeddings due to an error ("
                                 ++ decimal (status r) ++ " " ++ statusText r ++ ")."))
      \/ (e = TypeError (conversionErrorMessage h)
          /\ ((exists rejection,
                  embeddingsAnswer h config text = Raised (AxiosRejection rejection)
                  /\ error_response rejection = None
                  /\ error_request rejection = true
                  /\ error_config rejection = CannotConvert)
              \/ embeddingsAnswer h config text = Raised (OtherRejection CannotConvert)))
  end.
Proof.
  unfold embeddingsAnswer, embeddingsUrl, embeddingsBody, generateEmbeddings.
  cbv zeta. rewrite tryCatch_post.
  unfold requestHeaders, createGenerateEmbeddingsRequest.
  destruct (axios_post h _ _ _) as [r | e].
  - pose proof (hasData_status h r) as Hs.
    destruct (reads_cases _ (hasData_reads h r)) as [[ok E] | [message E]];
      rewrite E in *; cbn [bind].
    + destruct ok.
      * assert (R : reads (bind (attempt (getProp h (data r) "data"))
                            (fun data => bind (attempt (getFirst h data))
                               (fun first => bind (attempt (getProp h first "embedding"))
                                  (fun embeddings => ret embeddings))))).
        { repeat first [ apply reads_bind | apply reads_getProp | apply reads_getFirst
                       | apply reads_ret | intro ]. }
        destruct (reads_cases _ R) as [[v E2] | [message E2]]; rewrite E2;
          cbn [bind ret log raise app fst snd].
        -- exists r. split; [reflexivity | now apply Hs].
        -- left. eexists. split; [reflexivity |]. split; [discriminate | tauto].
      * cbn [bind ret log raise app fst snd].
        left. eexists. split; [reflexivity |]. split; [discriminate | tauto].
    + cbn [bind ret log raise app fst snd].
      left. eexists. split; [reflexivity |]. split; [discriminate | tauto].
  - destruct e as [[[r |] [|] [c |] m] | m | m | [s |]];
      cbn [bind ret log raise convert app fst snd error_response error_request
           error_config];
      try (left; eexists; split; [reflexivity |]; split; [discriminate |]; tauto).
    + left. eexists. split; [reflexivity |]. split; [discriminate |].
      right. right. right. eexists. exists r. repeat split.
    + left. eexists. split; [reflexivity |]. split; [discriminate |].
      right. right. right. eexists. exists r. repeat split.
    + left. eexists. split; [reflexivity |]. split; [discriminate |].
      right. right. right. eexists. exists r. repeat split.
    + left. eexists. split; [reflexivity |]. split; [discriminate |].
      right. right. right. eexists. exists r. repeat split.
    + right. split; [reflexivity |]. left. eexists. repeat split.
    + right. split; [reflexivity |]. now right.
Qed.

End OpenAIClient.
